(** * A VM-to-Hack translator: shallow embedding and verification

    The repository holds two variants of one Python program:
    - [src/VMTranslator.py]: arithmetic and memory-access commands only;
    - [src/main.py]: the same, plus a bootstrap prologue and a call emitter.

    Each variant is embedded in a module of its own ([VMTranslatorPy],
    [MainPy]).  Python integers are [Z], Python strings are [string],
    the output file is the text written so far, and exceptions are an
    explicit outcome that keeps the writer state reached when raised. *)

From Stdlib Require Import ZArith List String Ascii Bool Lia.
From Stdlib Require Import Decimal DecimalString DecimalZ DecimalFacts.
Import ListNotations.
Open Scope list_scope.
Open Scope string_scope.
Open Scope Z_scope.

(** ** Python primitives *)

Definition LF : ascii := "010"%char.

(** [py] reads a literal the way Python does: the two characters
    backslash, n stand for one line feed.  The templates below are the
    source's literals, copied verbatim. *)
Fixpoint py (s : string) : string :=
  match s with
  | EmptyString => EmptyString
  | String c r =>
      match r with
      | String "n"%char r' =>
          if Ascii.eqb c "\"%char then String LF (py r') else String c (py r)
      | _ => String c (py r)
      end
  end.

(** [str(n)] for an integer: decimal digits, a leading minus sign. *)
Definition py_str (n : Z) : string := NilZero.string_of_int (Z.to_int n).

Arguments py_str : simpl never.

(** [x in {...}] on a set literal of strings. *)
Definition py_in (x : string) (s : list string) : bool :=
  existsb (String.eqb x) s.

(** A dict literal with string keys, and [k in d], [d[k]]. *)
Definition dict (V : Type) : Type := list (string * V).

Fixpoint dict_get {V : Type} (d : dict V) (k : string) : option V :=
  match d with
  | [] => None
  | (k', v) :: d' => if String.eqb k k' then Some v else dict_get d' k
  end.

Definition dict_mem {V : Type} (d : dict V) (k : string) : bool :=
  match dict_get d k with Some _ => true | None => false end.

Definition is_digit (c : ascii) : bool :=
  let n := nat_of_ascii c in (Nat.leb 48 n && Nat.leb n 57)%bool.

Definition digit_val (c : ascii) : Z := Z.of_nat (nat_of_ascii c) - 48.

(** [int(s)] on a token: an optional sign, then decimal digits, single
    underscores allowed between digits.  Tokens come from [str.split()],
    so they hold no white space; digits outside ASCII and the
    interpreter's limit on the length of a numeral are not modelled. *)
Fixpoint py_int_digits (acc : Z) (after_digit : bool) (s : string) : option Z :=
  match s with
  | EmptyString => if after_digit then Some acc else None
  | String c r =>
      if Ascii.eqb c "_"%char then
        if after_digit then py_int_digits acc false r else None
      else if is_digit c then py_int_digits (10 * acc + digit_val c) true r
      else None
  end.

Definition py_int (s : string) : option Z :=
  match s with
  | String "+"%char r => py_int_digits 0 false r
  | String "-"%char r => option_map Z.opp (py_int_digits 0 false r)
  | _ => py_int_digits 0 false s
  end.

(** ** Exceptions and the writer state *)

(** The exception classes the two programs can raise; messages are not
    modelled. *)
Inductive exn : Type :=
| ValueError
| IndexError
| KeyError
| TypeError
| UnboundLocalError.

Inductive outcome (A : Type) : Type :=
| Ok (a : A)
| Raise (e : exn).
Arguments Ok {A} a.
Arguments Raise {A} e.

(** The attributes of a [CodeWriter] that code generation reads or
    writes: the text written to [self.file] so far and [self.label_count].
    ([self.filename] of [src/main.py] is never read.) *)
Record CodeWriter : Type := mkCodeWriter {
  file : string;
  label_count : Z
}.

(** A method of [CodeWriter]: it ends normally or raises, and in both
    cases leaves a writer state behind. *)
Definition M (A : Type) : Type := CodeWriter -> outcome A * CodeWriter.

Definition ret {A : Type} (a : A) : M A := fun w => (Ok a, w).
Definition raise {A : Type} (e : exn) : M A := fun w => (Raise e, w).
Definition bind {A B : Type} (m : M A) (k : A -> M B) : M B :=
  fun w => match m w with
           | (Ok a, w') => k a w'
           | (Raise e, w') => (Raise e, w')
           end.
(** A parser method raises or returns, and touches no writer state. *)
Definition lift {A : Type} (o : outcome A) : M A := fun w => (o, w).

Notation "x <- m ;; k" := (bind m (fun x => k))
  (at level 61, m at next level, right associativity).
Notation "m ;;; k" := (bind m (fun _ => k))
  (at level 61, right associativity).

(** [self.file.write(s)] *)
Definition file_write (s : string) : M unit :=
  fun w => (Ok tt, mkCodeWriter (file w ++ s) (label_count w)).

(** [self.label_count += 1] *)
Definition incr_label_count : M unit :=
  fun w => (Ok tt, mkCodeWriter (file w) (label_count w + 1)).

Definition get_label_count : M Z := fun w => (Ok (label_count w), w).

(** [d[k]] inside a method: [KeyError] when the key is missing. *)
Definition dict_index {V : Type} (d : dict V) (k : string) : M V :=
  match dict_get d k with Some v => ret v | None => raise KeyError end.

(** ** The parser state and command kinds *)

Inductive command_type : Type :=
| C_ARITHMETIC | C_PUSH | C_POP
| C_LABEL | C_GOTO | C_IF | C_FUNCTION | C_CALL | C_RETURN.

Definition command_type_eqb (a b : command_type) : bool :=
  match a, b with
  | C_ARITHMETIC, C_ARITHMETIC | C_PUSH, C_PUSH | C_POP, C_POP
  | C_LABEL, C_LABEL | C_GOTO, C_GOTO | C_IF, C_IF
  | C_FUNCTION, C_FUNCTION | C_CALL, C_CALL | C_RETURN, C_RETURN => true
  | _, _ => false
  end.

(** [self.commands] is the list of token lists still to read;
    [self.current_command] is [None] until the first [advance]. *)
Record Parser : Type := mkParser {
  commands : list (list string);
  current_command : option (list string)
}.

(** [l[i]] on a list of tokens. *)
Definition tok (l : list string) (i : nat) : outcome string :=
  match nth_error l i with Some t => Ok t | None => Raise IndexError end.

Definition arithmetic_words : list string :=
  ["add"; "sub"; "neg"; "eq"; "gt"; "lt"; "and"; "or"; "not"].

(** [int(s)] inside a method: [ValueError] when [s] is no numeral. *)
Definition int_of (s : string) : outcome Z :=
  match py_int s with Some n => Ok n | None => Raise ValueError end.

(** ** src/VMTranslator.py *)

Module VMTranslatorPy.

(** [Parser.commandType]: indexing [None] is a [TypeError], indexing an
    empty token list an [IndexError]. *)
Definition commandType (p : Parser) : outcome command_type :=
  match current_command p with
  | None => Raise TypeError
  | Some cur =>
      match tok cur 0 with
      | Raise e => Raise e
      | Ok c0 =>
          if py_in c0 arithmetic_words then Ok C_ARITHMETIC
          else if String.eqb c0 "push" then Ok C_PUSH
          else if String.eqb c0 "pop" then Ok C_POP
          else Raise ValueError
      end
  end.

Definition arg1 (p : Parser) : outcome string :=
  match commandType p with
  | Raise e => Raise e
  | Ok t =>
      match current_command p with
      | None => Raise TypeError
      | Some cur =>
          if command_type_eqb t C_ARITHMETIC then tok cur 0 else tok cur 1
      end
  end.

Definition arg2 (p : Parser) : outcome Z :=
  match commandType p with
  | Raise e => Raise e
  | Ok t =>
      if (command_type_eqb t C_PUSH || command_type_eqb t C_POP)%bool then
        match current_command p with
        | None => Raise TypeError
        | Some cur =>
            match tok cur 2 with
            | Raise e => Raise e
            | Ok t2 => int_of t2
            end
        end
      else Raise ValueError
  end.

(** [CodeWriter.__init__]: an empty output file, the counter at 0. *)
Definition CodeWriter_init : CodeWriter := mkCodeWriter "" 0.

Definition writeArithmetic (command : string) : M unit :=
  if py_in command ["add"; "sub"; "and"; "or"] then
    op <- dict_index [("add", "+"); ("sub", "-"); ("and", "&"); ("or", "|")]
                     command ;;
    let asm_code := py "@SP\nAM=M-1\nD=M\nA=A-1\nM=M" ++ op ++ py "D\n" in
    file_write asm_code
  else if py_in command ["neg"; "not"] then
    op <- dict_index [("neg", "-"); ("not", "!")] command ;;
    let asm_code := py "@SP\nA=M-1\nM=" ++ op ++ py "M\n" in
    file_write asm_code
  else if py_in command ["eq"; "gt"; "lt"] then
    jump <- dict_index [("eq", "JEQ"); ("gt", "JGT"); ("lt", "JLT")] command ;;
    n <- get_label_count ;;
    let label_true := "TRUE_" ++ py_str n in
    let label_end := "END_" ++ py_str n in
    let asm_code :=
      py "@SP\nAM=M-1\nD=M\nA=A-1\nD=M-D\n"
      ++ "@" ++ label_true ++ py "\nD;" ++ jump ++ py "\n"
      ++ py "@SP\nA=M-1\nM=0\n"
      ++ "@" ++ label_end ++ py "\n0;JMP\n"
      ++ "(" ++ label_true ++ py ")\n@SP\nA=M-1\nM=-1\n"
      ++ "(" ++ label_end ++ py ")\n" in
    incr_label_count ;;;
    file_write asm_code
  else raise ValueError.

Definition push_segment_map (index : Z) : dict string :=
  [ ("constant", "@" ++ py_str index ++ py "\nD=A\n");
    ("local", py "@LCL\nD=M\n@" ++ py_str index ++ py "\nA=D+A\nD=M\n");
    ("argument", py "@ARG\nD=M\n@" ++ py_str index ++ py "\nA=D+A\nD=M\n");
    ("this", py "@THIS\nD=M\n@" ++ py_str index ++ py "\nA=D+A\nD=M\n");
    ("that", py "@THAT\nD=M\n@" ++ py_str index ++ py "\nA=D+A\nD=M\n");
    ("temp", "@" ++ py_str (5 + index) ++ py "\nD=M\n");
    ("pointer", "@" ++ (if (index =? 0)%Z then "THIS" else "THAT") ++ py "\nD=M\n");
    ("static", "@Static." ++ py_str index ++ py "\nD=M\n") ].

Definition writePush (segment : string) (index : Z) : M unit :=
  let segment_map := push_segment_map index in
  if negb (dict_mem segment_map segment) then raise ValueError
  else
    s <- dict_index segment_map segment ;;
    let asm_code := s ++ py "@SP\nA=M\nM=D\n@SP\nM=M+1\n" in
    file_write asm_code.

Definition pop_segment_map (index : Z) : dict string :=
  [ ("local", "@LCL");
    ("argument", "@ARG");
    ("this", "@THIS");
    ("that", "@THAT");
    ("temp", "@" ++ py_str (5 + index));
    ("pointer", if (index =? 0)%Z then "@THIS" else "@THAT");
    ("static", "@Static." ++ py_str index) ].

Definition writePop (segment : string) (index : Z) : M unit :=
  if String.eqb segment "constant" then raise ValueError
  else
    let segment_map := pop_segment_map index in
    if negb (dict_mem segment_map segment) then raise ValueError
    else if py_in segment ["temp"; "pointer"; "static"] then
      s <- dict_index segment_map segment ;;
      let asm_code := py "@SP\nAM=M-1\nD=M\n" ++ s ++ py "\nM=D\n" in
      file_write asm_code
    else
      s <- dict_index segment_map segment ;;
      let asm_code :=
        "@" ++ py_str index ++ py "\nD=A\n"
        ++ s
        ++ py "\nD=M+D\n@R13\nM=D\n"
        ++ py "@SP\nAM=M-1\nD=M\n@R13\nA=M\nM=D\n" in
      file_write asm_code.

(** The body of the loop in [VMTranslator.translate], run on the parser
    state that [advance] leaves. *)
Definition dispatch (p : Parser) : M unit :=
  command_type <- lift (commandType p) ;;
  match command_type with
  | C_ARITHMETIC =>
      a1 <- lift (arg1 p) ;; writeArithmetic a1
  | C_PUSH =>
      a1 <- lift (arg1 p) ;; a2 <- lift (arg2 p) ;; writePush a1 a2
  | C_POP =>
      a1 <- lift (arg1 p) ;; a2 <- lift (arg2 p) ;; writePop a1 a2
  | _ => ret tt
  end.

(** [while self.parser.hasMoreCommands(): self.parser.advance(); ...]:
    [advance] pops the first token list, so the loop is a recursion on
    [self.commands]. *)
Fixpoint translate_loop (cmds : list (list string)) : M unit :=
  match cmds with
  | [] => ret tt
  | c :: rest => dispatch (mkParser rest (Some c)) ;;; translate_loop rest
  end.

(** [VMTranslator(input).translate()], on the token lists the parser
    loaded. *)
Definition translate (input : list (list string)) : outcome unit * CodeWriter :=
  translate_loop input CodeWriter_init.

End VMTranslatorPy.

(** ** src/main.py *)

Module MainPy.

(** [Parser.commandType]: [None] for an empty current command, else one
    of the nine kinds, else [ValueError]. *)
Definition commandType (p : Parser) : outcome (option command_type) :=
  match current_command p with
  | None => Ok None
  | Some [] => Ok None
  | Some cur =>
      match tok cur 0 with
      | Raise e => Raise e
      | Ok c0 =>
          if py_in c0 ["add"; "sub"; "neg"; "eq"; "gt"; "lt"; "and"; "or"; "not"]
          then Ok (Some C_ARITHMETIC)
          else if String.eqb c0 "push" then Ok (Some C_PUSH)
          else if String.eqb c0 "pop" then Ok (Some C_POP)
          else if String.eqb c0 "label" then Ok (Some C_LABEL)
          else if String.eqb c0 "goto" then Ok (Some C_GOTO)
          else if String.eqb c0 "if-goto" then Ok (Some C_IF)
          else if String.eqb c0 "function" then Ok (Some C_FUNCTION)
          else if String.eqb c0 "call" then Ok (Some C_CALL)
          else if String.eqb c0 "return" then Ok (Some C_RETURN)
          else Raise ValueError
      end
  end.

Definition is_type (t : option command_type) (k : command_type) : bool :=
  match t with Some t' => command_type_eqb t' k | None => false end.

Definition arg1 (p : Parser) : outcome string :=
  match commandType p with
  | Raise e => Raise e
  | Ok t =>
      match current_command p with
      | None => Raise TypeError
      | Some cur => if is_type t C_ARITHMETIC then tok cur 0 else tok cur 1
      end
  end.

Definition arg2 (p : Parser) : outcome Z :=
  match commandType p with
  | Raise e => Raise e
  | Ok t =>
      if (is_type t C_PUSH || is_type t C_POP
          || is_type t C_FUNCTION || is_type t C_CALL)%bool then
        match current_command p with
        | None => Raise TypeError
        | Some cur =>
            match tok cur 2 with
            | Raise e => Raise e
            | Ok t2 => int_of t2
            end
        end
      else Raise ValueError
  end.

Definition SEGMENTS : dict string :=
  [ ("local", "LCL");
    ("argument", "ARG");
    ("this", "THIS");
    ("that", "THAT");
    ("temp", "5");
    ("pointer", "3");
    ("static", "16") ].

Definition writeCall (function_name : string) (num_args : Z) : M unit :=
  n <- get_label_count ;;
  let return_label := "RETURN_" ++ py_str n in
  incr_label_count ;;;
  let asm_code :=
    "// call " ++ function_name ++ " " ++ py_str num_args ++ py "\n"
    ++ "@" ++ return_label ++ py "\nD=A\n@SP\nA=M\nM=D\n@SP\nM=M+1\n"
    ++ py "@LCL\nD=M\n@SP\nA=M\nM=D\n@SP\nM=M+1\n"
    ++ py "@ARG\nD=M\n@SP\nA=M\nM=D\n@SP\nM=M+1\n"
    ++ py "@THIS\nD=M\n@SP\nA=M\nM=D\n@SP\nM=M+1\n"
    ++ py "@THAT\nD=M\n@SP\nA=M\nM=D\n@SP\nM=M+1\n"
    ++ "@" ++ py_str num_args ++ py "\nD=A\n@5\nD=D+A\n@SP\nD=M-D\n@ARG\nM=D\n"
    ++ py "@SP\nD=M\n@LCL\nM=D\n"
    ++ "@" ++ function_name ++ py "\n0;JMP\n"
    ++ "(" ++ return_label ++ py ")\n" in
  file_write asm_code.

Definition writeInit : M unit :=
  let asm_code :=
    py "// Bootstrap code\n"
    ++ py "@256\nD=A\n@SP\nM=D\n" in
  file_write asm_code ;;;
  writeCall "Sys.init" 0.

(** [CodeWriter.__init__]: an empty output file, the counter at 0, then
    [self.writeInit()]. *)
Definition CodeWriter_init : outcome unit * CodeWriter :=
  writeInit (mkCodeWriter "" 0).

Definition writeArithmetic (command : string) : M unit :=
  if py_in command ["add"; "sub"; "and"; "or"] then
    op <- dict_index [("add", "+"); ("sub", "-"); ("and", "&"); ("or", "|")]
                     command ;;
    let asm_code := py "@SP\nAM=M-1\nD=M\nA=A-1\nM=M" ++ op ++ py "D\n" in
    file_write asm_code
  else if py_in command ["neg"; "not"] then
    op <- dict_index [("neg", "-"); ("not", "!")] command ;;
    let asm_code := py "@SP\nA=M-1\nM=" ++ op ++ py "M\n" in
    file_write asm_code
  else if py_in command ["eq"; "gt"; "lt"] then
    jump <- dict_index [("eq", "JEQ"); ("gt", "JGT"); ("lt", "JLT")] command ;;
    n <- get_label_count ;;
    let label_true := "TRUE_" ++ py_str n in
    let label_end := "END_" ++ py_str n in
    let asm_code :=
      py "@SP\nAM=M-1\nD=M\nA=A-1\nD=M-D\n"
      ++ "@" ++ label_true ++ py "\nD;" ++ jump ++ py "\n"
      ++ py "@SP\nA=M-1\nM=0\n"
      ++ "@" ++ label_end ++ py "\n0;JMP\n"
      ++ "(" ++ label_true ++ py ")\n@SP\nA=M-1\nM=-1\n"
      ++ "(" ++ label_end ++ py ")\n" in
    incr_label_count ;;;
    file_write asm_code
  else raise ValueError.

(** In [writePush] and [writePop] the local [asm_code] is bound on some
    paths only; reading it unbound is an [UnboundLocalError]. *)
Definition writePush (segment : string) (index : Z) : M unit :=
  asm_code <-
    (if String.eqb segment "constant" then
       ret (Some ("@" ++ py_str index ++ py "\nD=A\n"))
     else if dict_mem SEGMENTS segment then
       base <- dict_index SEGMENTS segment ;;
       if py_in segment ["temp"; "pointer"; "static"] then
         b <- lift (int_of base) ;;
         ret (Some ("@" ++ py_str (b + index) ++ py "\nD=M\n"))
       else
         ret (Some ("@" ++ base ++ py "\nD=M\n@" ++ py_str index
                    ++ py "\nA=D+A\nD=M\n"))
     else ret None) ;;
  match asm_code with
  | None => raise UnboundLocalError
  | Some a => file_write (a ++ py "@SP\nA=M\nM=D\n@SP\nM=M+1\n")
  end.

Definition writePop (segment : string) (index : Z) : M unit :=
  asm_code <-
    (if dict_mem SEGMENTS segment then
       base <- dict_index SEGMENTS segment ;;
       if py_in segment ["temp"; "pointer"; "static"] then
         b <- lift (int_of base) ;;
         ret (Some (py "@SP\nAM=M-1\nD=M\n@" ++ py_str (b + index)
                    ++ py "\nM=D\n"))
       else
         ret (Some ("@" ++ base ++ py "\nD=M\n@" ++ py_str index
                    ++ py "\nD=D+A\n@R13\nM=D\n@SP\nAM=M-1\nD=M\n@R13\nA=M\nM=D\n"))
     else ret None) ;;
  match asm_code with
  | None => raise UnboundLocalError
  | Some a => file_write a
  end.

(** The body of the loop in [VMTranslator.translate], run on the parser
    state that [advance] leaves: three kinds are dispatched, every other
    value of [command_type] falls through the [if] chain. *)
Definition dispatch (p : Parser) : M unit :=
  command_type <- lift (commandType p) ;;
  if is_type command_type C_ARITHMETIC then
    a1 <- lift (arg1 p) ;; writeArithmetic a1
  else if is_type command_type C_PUSH then
    a1 <- lift (arg1 p) ;; a2 <- lift (arg2 p) ;; writePush a1 a2
  else if is_type command_type C_POP then
    a1 <- lift (arg1 p) ;; a2 <- lift (arg2 p) ;; writePop a1 a2
  else ret tt.

Fixpoint translate_loop (cmds : list (list string)) : M unit :=
  match cmds with
  | [] => ret tt
  | c :: rest => dispatch (mkParser rest (Some c)) ;;; translate_loop rest
  end.

(** [VMTranslator(input).translate()]: the constructor builds the
    [CodeWriter] (which writes the bootstrap), then the loop runs. *)
Definition translate (input : list (list string)) : outcome unit * CodeWriter :=
  match CodeWriter_init with
  | (Ok _, w) => translate_loop input w
  | (Raise e, w) => (Raise e, w)
  end.

End MainPy.

(** ** The target: Hack assembly text and the Hack machine

    The programs only print assembly; what the printed text does is
    fixed by the target platform.  This module states that platform: the
    syntax of an assembly line, the two-pass symbol resolution of its
    assembler, and the instruction semantics of its 16-bit CPU.  The
    mnemonic table accepts the commuted spellings of [+], [&] and [|]
    (for example [M+D] for [D+M]), which both programs print. *)

Module Hack.

(** The lines of a text: the pieces between line feeds. *)
Fixpoint lines (s : string) : list string :=
  match s with
  | EmptyString => [EmptyString]
  | String c r =>
      if Ascii.eqb c LF then EmptyString :: lines r
      else match lines r with
           | l :: ls => String c l :: ls
           | [] => [String c EmptyString]
           end
  end.

(** [strip_close s] removes a final [")"]. *)
Fixpoint strip_close (s : string) : option string :=
  match s with
  | EmptyString => None
  | String c EmptyString => if Ascii.eqb c ")"%char then Some EmptyString else None
  | String c r => option_map (String c) (strip_close r)
  end.

(** A line [(NAME)] declares the label [NAME]. *)
Definition label_of_line (l : string) : option string :=
  match l with
  | String "("%char r => strip_close r
  | _ => None
  end.

(** The labels a text declares, in order. *)
Fixpoint labels_of_lines (ls : list string) : list string :=
  match ls with
  | [] => []
  | l :: ls' =>
      (match label_of_line l with Some n => [n] | None => [] end
       ++ labels_of_lines ls')%list
  end.

Definition declared_labels (text : string) : list string :=
  labels_of_lines (lines text).

(** *** Syntax *)

Inductive reg : Type := RA | RD | RM.
(** The second operand of a two-operand computation: [A] or [M]. *)
Inductive src : Type := SA | SM.

Inductive comp : Type :=
| CZero | COne | CMinusOne
| CReg (r : reg) | CNot (r : reg) | CNeg (r : reg)
| CInc (r : reg) | CDec (r : reg)
| CAdd (y : src)            (* D+y *)
| CSubD (y : src)           (* D-y *)
| CSubY (y : src)           (* y-D *)
| CAnd (y : src)
| COr (y : src).

Record dest : Type := mkDest { toA : bool; toD : bool; toM : bool }.

Inductive jump : Type :=
| JNone | JGT | JEQ | JGE | JLT | JNE | JLE | JMP.

Inductive aoperand : Type :=
| ANum (n : Z)
| ASym (s : string).

(** One line of code-bearing assembly text. *)
Inductive item : Type :=
| IA (a : aoperand)
| IC (d : dest) (c : comp) (j : jump)
| ILabel (s : string).

Definition comp_table : dict comp :=
  [ ("0", CZero); ("1", COne); ("-1", CMinusOne);
    ("D", CReg RD); ("A", CReg RA); ("M", CReg RM);
    ("!D", CNot RD); ("!A", CNot RA); ("!M", CNot RM);
    ("-D", CNeg RD); ("-A", CNeg RA); ("-M", CNeg RM);
    ("D+1", CInc RD); ("A+1", CInc RA); ("M+1", CInc RM);
    ("1+D", CInc RD); ("1+A", CInc RA); ("1+M", CInc RM);
    ("D-1", CDec RD); ("A-1", CDec RA); ("M-1", CDec RM);
    ("D+A", CAdd SA); ("A+D", CAdd SA); ("D+M", CAdd SM); ("M+D", CAdd SM);
    ("D-A", CSubD SA); ("D-M", CSubD SM);
    ("A-D", CSubY SA); ("M-D", CSubY SM);
    ("D&A", CAnd SA); ("A&D", CAnd SA); ("D&M", CAnd SM); ("M&D", CAnd SM);
    ("D|A", COr SA); ("A|D", COr SA); ("D|M", COr SM); ("M|D", COr SM) ].

Definition dest_table : dict dest :=
  [ ("M", mkDest false false true);
    ("D", mkDest false true false);
    ("MD", mkDest false true true);
    ("A", mkDest true false false);
    ("AM", mkDest true false true);
    ("AD", mkDest true true false);
    ("AMD", mkDest true true true) ].

Definition jump_table : dict jump :=
  [ ("JGT", JGT); ("JEQ", JEQ); ("JGE", JGE); ("JLT", JLT);
    ("JNE", JNE); ("JLE", JLE); ("JMP", JMP) ].

Definition no_dest : dest := mkDest false false false.

Definition is_letter (c : ascii) : bool :=
  let n := nat_of_ascii c in
  ((Nat.leb 65 n && Nat.leb n 90) || (Nat.leb 97 n && Nat.leb n 122))%bool.

(** The characters of a symbol: letters, digits, [_], [.], [$], [:]. *)
Definition symbol_char (c : ascii) : bool :=
  (is_letter c || is_digit c || Ascii.eqb c "_" || Ascii.eqb c "."
   || Ascii.eqb c "$" || Ascii.eqb c ":")%bool.

Fixpoint all_chars (f : ascii -> bool) (s : string) : bool :=
  match s with
  | EmptyString => true
  | String c r => (f c && all_chars f r)%bool
  end.

(** A symbol is not empty and does not begin with a digit. *)
Definition valid_symbol (s : string) : bool :=
  match s with
  | EmptyString => false
  | String c r => (negb (is_digit c) && symbol_char c && all_chars symbol_char r)%bool
  end.

(** The operand of [@...]: a decimal constant of at most 15 bits, or a
    symbol. *)
Definition parse_aoperand (s : string) : option aoperand :=
  match NilZero.uint_of_string s with
  | Some d => let n := Z.of_uint d in
              if n <=? 32767 then Some (ANum n) else None
  | None => if valid_symbol s then Some (ASym s) else None
  end.

(** [cut c s]: the text before and after the first [c] in [s]. *)
Fixpoint cut (c : ascii) (s : string) : option (string * string) :=
  match s with
  | EmptyString => None
  | String x r =>
      if Ascii.eqb x c then Some (EmptyString, r)
      else match cut c r with
           | Some (a, b) => Some (String x a, b)
           | None => None
           end
  end.

(** [dest=comp;jump], with [dest=] and [;jump] optional. *)
Definition parse_cinstr (l : string) : option item :=
  let '(d, rest) :=
    match cut "="%char l with
    | Some (ds, r) => (dict_get dest_table ds, r)
    | None => (Some no_dest, l)
    end in
  let '(cs, j) :=
    match cut ";"%char rest with
    | Some (c, js) => (c, dict_get jump_table js)
    | None => (rest, Some JNone)
    end in
  match d, dict_get comp_table cs, j with
  | Some d', Some c', Some j' => Some (IC d' c' j')
  | _, _, _ => None
  end.

(** A line is blank or a comment (no code), or one item, or a syntax
    error ([None]). *)
Definition parse_line (l : string) : option (option item) :=
  match l with
  | EmptyString => Some None
  | String "/"%char (String "/"%char _) => Some None
  | String "@"%char r => option_map (fun a => Some (IA a)) (parse_aoperand r)
  | String "("%char r =>
      match strip_close r with
      | Some n => if valid_symbol n then Some (Some (ILabel n)) else None
      | None => None
      end
  | _ => option_map Some (parse_cinstr l)
  end.

Fixpoint parse_lines (ls : list string) : option (list item) :=
  match ls with
  | [] => Some []
  | l :: ls' =>
      match parse_line l, parse_lines ls' with
      | Some None, Some r => Some r
      | Some (Some i), Some r => Some (i :: r)
      | _, _ => None
      end
  end.

Definition parse_asm (text : string) : option (list item) :=
  parse_lines (lines text).

(** *** Symbol resolution *)

Inductive instr : Type :=
| AInstr (v : Z)
| CInstr (d : dest) (c : comp) (j : jump).

Definition symtab : Type := string -> Z.

Definition resolve_operand (sigma : symtab) (a : aoperand) : Z :=
  match a with
  | ANum n => n
  | ASym s => sigma s
  end.

(** Label declarations occupy no instruction address. *)
Fixpoint resolve (sigma : symtab) (items : list item) : list instr :=
  match items with
  | [] => []
  | IA a :: r => AInstr (resolve_operand sigma a) :: resolve sigma r
  | IC d c j :: r => CInstr d c j :: resolve sigma r
  | ILabel _ :: r => resolve sigma r
  end.

Definition predefined : dict Z :=
  [ ("SP", 0); ("LCL", 1); ("ARG", 2); ("THIS", 3); ("THAT", 4);
    ("R0", 0); ("R1", 1); ("R2", 2); ("R3", 3); ("R4", 4); ("R5", 5);
    ("R6", 6); ("R7", 7); ("R8", 8); ("R9", 9); ("R10", 10); ("R11", 11);
    ("R12", 12); ("R13", 13); ("R14", 14); ("R15", 15);
    ("SCREEN", 16384); ("KBD", 24576) ].

(** First pass: each label names the address of the next instruction. *)
Fixpoint label_pass (items : list item) (addr : Z) (t : dict Z) : dict Z :=
  match items with
  | [] => t
  | ILabel s :: r => label_pass r addr ((s, addr) :: t)
  | _ :: r => label_pass r (addr + 1) t
  end.

(** Second pass: a symbol met for the first time and not yet in the
    table is a variable, placed at the next free cell from 16 on. *)
Fixpoint var_pass (items : list item) (next : Z) (t : dict Z) : dict Z :=
  match items with
  | [] => t
  | IA (ASym s) :: r =>
      if dict_mem t s then var_pass r next t
      else var_pass r (next + 1) ((s, next) :: t)
  | _ :: r => var_pass r next t
  end.

Definition symbol_table (items : list item) : dict Z :=
  var_pass items 16 (label_pass items 0 predefined).

Definition lookup (t : dict Z) : symtab :=
  fun s => match dict_get t s with Some v => v | None => 0 end.

(** The assembler: text to the instruction memory it denotes. *)
Definition assemble (text : string) : option (list instr) :=
  match parse_asm text with
  | Some items => Some (resolve (lookup (symbol_table items)) items)
  | None => None
  end.

(** *** The machine *)

(** Registers [A] and [D], the program counter and the data memory; a
    cell holds a 16-bit word, [wrap] is the wrap-around of the ALU. *)
Record machine : Type := mkMachine {
  regA : Z;
  regD : Z;
  pc : Z;
  ram : Z -> Z
}.

Definition wrap (z : Z) : Z := z mod 65536.

(** The two's-complement reading of a word. *)
Definition signed (z : Z) : Z := if z <? 32768 then z else z - 65536.

Definition upd (f : Z -> Z) (a v : Z) : Z -> Z :=
  fun x => if x =? a then v else f x.

Definition read (r : reg) (m : machine) : Z :=
  match r with
  | RA => regA m
  | RD => regD m
  | RM => ram m (regA m)
  end.

Definition read_src (y : src) (m : machine) : Z :=
  match y with
  | SA => regA m
  | SM => ram m (regA m)
  end.

Definition comp_val (c : comp) (m : machine) : Z :=
  wrap match c with
       | CZero => 0
       | COne => 1
       | CMinusOne => -1
       | CReg r => read r m
       | CNot r => Z.lnot (read r m)
       | CNeg r => - read r m
       | CInc r => read r m + 1
       | CDec r => read r m - 1
       | CAdd y => regD m + read_src y m
       | CSubD y => regD m - read_src y m
       | CSubY y => read_src y m - regD m
       | CAnd y => Z.land (regD m) (read_src y m)
       | COr y => Z.lor (regD m) (read_src y m)
       end.

Definition jump_taken (j : jump) (out : Z) : bool :=
  let v := signed out in
  match j with
  | JNone => false
  | JGT => 0 <? v
  | JEQ => v =? 0
  | JGE => 0 <=? v
  | JLT => v <? 0
  | JNE => negb (v =? 0)
  | JLE => v <=? 0
  | JMP => true
  end.

(** One instruction.  A C-instruction stores to the cell [A] addressed
    before the instruction and jumps to the address [A] held before it. *)
Definition exec (i : instr) (m : machine) : machine :=
  match i with
  | AInstr v => mkMachine v (regD m) (pc m + 1) (ram m)
  | CInstr d c j =>
      let out := comp_val c m in
      mkMachine (if toA d then out else regA m)
                (if toD d then out else regD m)
                (if jump_taken j out then regA m else pc m + 1)
                (if toM d then upd (ram m) (regA m) out else ram m)
  end.

Definition fetch (rom : list instr) (a : Z) : option instr :=
  if a <? 0 then None else nth_error rom (Z.to_nat a).

Definition step (rom : list instr) (m : machine) : option machine :=
  match fetch rom (pc m) with
  | Some i => Some (exec i m)
  | None => None
  end.

Fixpoint run (n : nat) (rom : list instr) (m : machine) : option machine :=
  match n with
  | O => Some m
  | S k =>
      match step rom m with
      | Some m' => run k rom m'
      | None => None
      end
  end.

End Hack.

(** ** Auxiliary definitions for the statements *)

(** A text given line by line, each line closed by a line feed. *)
Fixpoint unlines (ls : list string) : string :=
  match ls with
  | [] => EmptyString
  | l :: r => l ++ String LF (unlines r)
  end.

Definition no_lf (s : string) : bool :=
  Hack.all_chars (fun c => negb (Ascii.eqb c LF)) s.

(** *** The emitted texts, line by line

    Each function below lists the lines one method writes, or [None]
    where it raises; the lemmas [*_spec] prove that the methods write
    exactly these lines. *)

Definition binary_lines (op : string) : list string :=
  ["@SP"; "AM=M-1"; "D=M"; "A=A-1"; "M=M" ++ op ++ "D"].

Definition unary_lines (op : string) : list string :=
  ["@SP"; "A=M-1"; "M=" ++ op ++ "M"].

Definition comparison_lines (jump : string) (n : Z) : list string :=
  [ "@SP"; "AM=M-1"; "D=M"; "A=A-1"; "D=M-D";
    String "@" ("TRUE_" ++ py_str n); "D;" ++ jump;
    "@SP"; "A=M-1"; "M=0";
    String "@" ("END_" ++ py_str n); "0;JMP";
    String "(" (("TRUE_" ++ py_str n) ++ ")"); "@SP"; "A=M-1"; "M=-1";
    String "(" (("END_" ++ py_str n) ++ ")") ].

Definition is_comparison (command : string) : bool :=
  py_in command ["eq"; "gt"; "lt"].

Definition arithmetic_lines (command : string) (n : Z) : option (list string) :=
  if String.eqb command "add" then Some (binary_lines "+")
  else if String.eqb command "sub" then Some (binary_lines "-")
  else if String.eqb command "and" then Some (binary_lines "&")
  else if String.eqb command "or" then Some (binary_lines "|")
  else if String.eqb command "neg" then Some (unary_lines "-")
  else if String.eqb command "not" then Some (unary_lines "!")
  else if String.eqb command "eq" then Some (comparison_lines "JEQ" n)
  else if String.eqb command "gt" then Some (comparison_lines "JGT" n)
  else if String.eqb command "lt" then Some (comparison_lines "JLT" n)
  else None.

Definition push_tail : list string := ["@SP"; "A=M"; "M=D"; "@SP"; "M=M+1"].

Definition push_constant_lines (index : Z) : list string :=
  [String "@" (py_str index); "D=A"] ++ push_tail.

Definition push_via_lines (base : string) (index : Z) : list string :=
  [String "@" base; "D=M"; String "@" (py_str index); "A=D+A"; "D=M"] ++ push_tail.

Definition push_direct_lines (operand : string) : list string :=
  [String "@" operand; "D=M"] ++ push_tail.

Definition pop_direct_lines (operand : string) : list string :=
  ["@SP"; "AM=M-1"; "D=M"; String "@" operand; "M=D"].

Definition pop_tail : list string :=
  ["@R13"; "M=D"; "@SP"; "AM=M-1"; "D=M"; "@R13"; "A=M"; "M=D"].

(** The base register of a register-backed segment. *)
Definition base_register (segment : string) : option string :=
  if String.eqb segment "local" then Some "LCL"
  else if String.eqb segment "argument" then Some "ARG"
  else if String.eqb segment "this" then Some "THIS"
  else if String.eqb segment "that" then Some "THAT"
  else None.

Definition vmt_direct_operand (segment : string) (index : Z) : option string :=
  if String.eqb segment "temp" then Some (py_str (5 + index))
  else if String.eqb segment "pointer" then
    Some (if index =? 0 then "THIS" else "THAT")
  else if String.eqb segment "static" then Some ("Static." ++ py_str index)
  else None.

Definition main_direct_operand (segment : string) (index : Z) : option string :=
  if String.eqb segment "temp" then Some (py_str (5 + index))
  else if String.eqb segment "pointer" then Some (py_str (3 + index))
  else if String.eqb segment "static" then Some (py_str (16 + index))
  else None.

Definition push_lines (direct : string -> Z -> option string)
    (segment : string) (index : Z) : option (list string) :=
  if String.eqb segment "constant" then Some (push_constant_lines index)
  else match base_register segment, direct segment index with
       | Some b, _ => Some (push_via_lines b index)
       | None, Some o => Some (push_direct_lines o)
       | None, None => None
       end.

Definition vmt_pop_via_lines (base : string) (index : Z) : list string :=
  [String "@" (py_str index); "D=A"; String "@" base; "D=M+D"] ++ pop_tail.

Definition main_pop_via_lines (base : string) (index : Z) : list string :=
  [String "@" base; "D=M"; String "@" (py_str index); "D=D+A"] ++ pop_tail.

Definition pop_lines (via : string -> Z -> list string)
    (direct : string -> Z -> option string)
    (segment : string) (index : Z) : option (list string) :=
  match base_register segment, direct segment index with
  | Some b, _ => Some (via b index)
  | None, Some o => Some (pop_direct_lines o)
  | None, None => None
  end.

Definition call_lines (function_name : string) (num_args n : Z) : list string :=
  [ "// call " ++ function_name ++ " " ++ py_str num_args;
    String "@" ("RETURN_" ++ py_str n); "D=A"; "@SP"; "A=M"; "M=D"; "@SP"; "M=M+1";
    "@LCL"; "D=M"; "@SP"; "A=M"; "M=D"; "@SP"; "M=M+1";
    "@ARG"; "D=M"; "@SP"; "A=M"; "M=D"; "@SP"; "M=M+1";
    "@THIS"; "D=M"; "@SP"; "A=M"; "M=D"; "@SP"; "M=M+1";
    "@THAT"; "D=M"; "@SP"; "A=M"; "M=D"; "@SP"; "M=M+1";
    String "@" (py_str num_args); "D=A"; "@5"; "D=D+A"; "@SP"; "D=M-D"; "@ARG"; "M=D";
    "@SP"; "D=M"; "@LCL"; "M=D";
    String "@" function_name; "0;JMP";
    String "(" (("RETURN_" ++ py_str n) ++ ")") ].

Definition init_lines : list string :=
  ["// Bootstrap code"; "@256"; "D=A"; "@SP"; "M=D"].


(** The six kinds of command that are neither arithmetic nor memory
    access, by their first token. *)
Definition control_words : list string :=
  ["label"; "goto"; "if-goto"; "function"; "call"; "return"].

(** *** The output of a run, command by command *)

(** What one turn of the translate loop can add to the output, from
    label counter [n]: nothing, or the lines of one arithmetic, push or
    pop command.  [direct] and [via] are the variant's own texts. *)
Inductive fragment (direct : string -> Z -> option string)
    (via : string -> Z -> list string) : Z -> list string -> Z -> Prop :=
| frag_none (n : Z) : fragment direct via n [] n
| frag_arithmetic (n : Z) (command : string) (ls : list string) :
    arithmetic_lines command n = Some ls ->
    fragment direct via n ls (if is_comparison command then n + 1 else n)
| frag_push (n : Z) (segment : string) (index : Z) (ls : list string) :
    push_lines direct segment index = Some ls ->
    fragment direct via n ls n
| frag_pop (n : Z) (segment : string) (index : Z) (ls : list string) :
    pop_lines via direct segment index = Some ls ->
    fragment direct via n ls n.

(** A run of the loop: fragments one after the other. *)
Inductive trace (F : Z -> list string -> Z -> Prop) : Z -> list string -> Z -> Prop :=
| trace_nil (n : Z) : trace F n [] n
| trace_cons (n n' n'' : Z) (ls ls' : list string) :
    F n ls n' -> trace F n' ls' n'' -> trace F n (ls ++ ls')%list n''.

(** A line of generated code holds no line feed and no slash. *)
Definition clean_char (c : ascii) : bool :=
  (negb (Ascii.eqb c LF) && negb (Ascii.eqb c "/"))%bool.

Definition clean (s : string) : bool := Hack.all_chars clean_char s.

(** The two labels of the comparison translated at counter [k]. *)
Definition comparison_labels (k : Z) : list string :=
  ["TRUE_" ++ py_str k; "END_" ++ py_str k].

(** The counter values [n], [n+1], ..., [n+len-1]. *)
Definition counters (n : Z) (len : nat) : list Z :=
  List.map (fun k => n + Z.of_nat k) (seq 0 len).

Definition is_comparison_command (c : list string) : bool :=
  match c with
  | c0 :: _ => is_comparison c0
  | [] => false
  end.

Definition count_comparisons (input : list (list string)) : nat :=
  List.length (filter is_comparison_command input).

(** The names a program declares: the argument of its [label] and
    [function] commands, as the parser of [src/main.py] reads them. *)
Definition user_declared (input : list (list string)) : list string :=
  flat_map (fun c =>
              let p := mkParser [] (Some c) in
              match MainPy.commandType p, MainPy.arg1 p with
              | Ok (Some C_LABEL), Ok name => [name]
              | Ok (Some C_FUNCTION), Ok name => [name]
              | _, _ => []
              end) input.

(** [starts pat s]: [s] begins with [pat]. *)
Fixpoint starts (pat s : string) : bool :=
  match pat, s with
  | EmptyString, _ => true
  | String a p, String b r => (Ascii.eqb a b && starts p r)%bool
  | String _ _, EmptyString => false
  end.

(** The number of positions of [s] at which [pat] occurs. *)
Fixpoint occurrences (pat s : string) : nat :=
  match s with
  | EmptyString => if starts pat EmptyString then 1 else 0
  | String _ r => ((if starts pat s then 1 else 0) + occurrences pat r)%nat
  end.

(** *** Running a fragment on the machine *)

(** From [m] the machine reaches, in some number of steps, a state that
    satisfies [Q]. *)
Definition runs_to (rom : list Hack.instr) (m : Hack.machine)
    (Q : Hack.machine -> Prop) : Prop :=
  exists n m', Hack.run n rom m = Some m' /\ Q m'.

(** [sigma] gives the predefined symbols their addresses. *)
Definition symtab_ok (sigma : Hack.symtab) : Prop :=
  forall s v, dict_get Hack.predefined s = Some v -> sigma s = v.

(** [sigma] gives each label declared in [items], placed from address
    [base], the address of the instruction that follows it. *)
Definition labels_at (sigma : Hack.symtab) (base : Z) (items : list Hack.item) : Prop :=
  forall l a, In (l, a) (Hack.label_pass items base []) -> sigma l = a.

(** Every cell of the data memory holds a 16-bit word. *)
Definition word_ram (m : Hack.machine) : Prop :=
  forall a, 0 <= Hack.ram m a < 65536.

(** The stack pointer, cell 0, points into the addressable memory at
    or above the base of the stack, 256. *)
Definition stack_ok (m : Hack.machine) : Prop :=
  256 <= Hack.ram m 0 < 32768.

(** The text a method writes, from label counter [n]; [None] when it
    raises. *)
Definition emitted (act : M unit) (n : Z) : option string :=
  match act (mkCodeWriter "" n) with
  | (Ok _, w) => Some (file w)
  | (Raise _, _) => None
  end.

(** A call of one of the three code generators. *)
Inductive vm_command : Type :=
| Arithmetic (command : string)
| Push (segment : string) (index : Z)
| Pop (segment : string) (index : Z).

Definition vmt_perform (c : vm_command) : M unit :=
  match c with
  | Arithmetic command => VMTranslatorPy.writeArithmetic command
  | Push segment index => VMTranslatorPy.writePush segment index
  | Pop segment index => VMTranslatorPy.writePop segment index
  end.

Definition main_perform (c : vm_command) : M unit :=
  match c with
  | Arithmetic command => MainPy.writeArithmetic command
  | Push segment index => MainPy.writePush segment index
  | Pop segment index => MainPy.writePop segment index
  end.

(** The change of stack depth the specification gives each command:
    unary operators 0, the other operators and pop -1, push +1. *)
Definition stack_effect (c : vm_command) : Z :=
  match c with
  | Arithmetic command => if py_in command ["neg"; "not"] then 0 else -1
  | Push _ _ => 1
  | Pop _ _ => -1
  end.

(** The cell a memory segment and an index denote on machine [m], in
    each program.  The four register-backed segments go through the
    cell of their base register; the others are a fixed cell. *)
Definition via_address (sigma : Hack.symtab) (m : Hack.machine)
    (b : string) (index : Z) : Z :=
  Hack.wrap (Hack.ram m (sigma b) + index).

Definition vmt_address (sigma : Hack.symtab) (m : Hack.machine)
    (segment : string) (index : Z) : option Z :=
  match base_register segment with
  | Some b => Some (via_address sigma m b index)
  | None =>
      if String.eqb segment "temp" then Some (5 + index)
      else if String.eqb segment "pointer" then
        Some (if index =? 0 then sigma "THIS" else sigma "THAT")
      else if String.eqb segment "static" then
        Some (sigma ("Static." ++ py_str index))
      else None
  end.

Definition main_address (sigma : Hack.symtab) (m : Hack.machine)
    (segment : string) (index : Z) : option Z :=
  match base_register segment with
  | Some b => Some (via_address sigma m b index)
  | None =>
      if String.eqb segment "temp" then Some (5 + index)
      else if String.eqb segment "pointer" then Some (3 + index)
      else if String.eqb segment "static" then Some (16 + index)
      else None
  end.

(** The two programs. *)
Inductive program : Type := VMTranslator_py | Main_py.

Definition perform (p : program) (c : vm_command) : M unit :=
  match p with
  | VMTranslator_py => vmt_perform c
  | Main_py => main_perform c
  end.

Definition address (p : program) :
    Hack.symtab -> Hack.machine -> string -> Z -> option Z :=
  match p with
  | VMTranslator_py => vmt_address
  | Main_py => main_address
  end.

(** The cell a push reads or a pop writes; [None] for the constant
    segment, which is not memory. *)
Definition target (p : program) (sigma : Hack.symtab) (m : Hack.machine)
    (c : vm_command) : option Z :=
  match c with
  | Push segment index => address p sigma m segment index
  | Pop segment index => address p sigma m segment index
  | Arithmetic _ => None
  end.

(** *** A concrete run, for the examples *)

(** A machine about to run the instruction at 0, with the stack pointer
    at [sp] and the value [17 * a] in every other cell [a]. *)
Definition demo_machine (sp : Z) : Hack.machine :=
  Hack.mkMachine 0 0 0 (fun a => if a =? 0 then sp else (17 * a) mod 65536).

Definition demo_text (p : program) (c : vm_command) (n : Z) : string :=
  match emitted (perform p c) n with Some t => t | None => EmptyString end.

Definition demo_items (text : string) : list Hack.item :=
  match Hack.parse_asm text with Some items => items | None => [] end.

(** The symbol table the assembler builds for a text on its own. *)
Definition demo_sigma (text : string) : Hack.symtab :=
  Hack.lookup (Hack.symbol_table (demo_items text)).

(** The text of one [writeCall], for the examples. *)
Definition call_text (function_name : string) (num_args n : Z) : string :=
  match emitted (MainPy.writeCall function_name num_args) n with
  | Some t => t
  | None => EmptyString
  end.

(** What the constructor of the [CodeWriter] of [src/main.py] writes. *)
Definition bootstrap_text : string := file (snd MainPy.CodeWriter_init).

(** An instruction that cannot transfer control. *)
Definition no_jump (i : Hack.instr) : bool :=
  match i with
  | Hack.AInstr _ => true
  | Hack.CInstr _ _ Hack.JNone => true
  | Hack.CInstr _ _ _ => false
  end.

(** ** Loading a program: [Parser.__init__], [hasMoreCommands], [advance]

    The three methods read and change [self.commands] and
    [self.current_command] in the same way in both files
    ([src/main.py] also sets [self.filename], which nothing reads).  The
    file is given by its text, as [open(filename, "r")] decodes it (line
    ends already translated to line feeds); a character is a code point
    below 256. *)

(** [c.isspace()]: the white space [str.strip()] and [str.split()]
    remove. *)
Definition is_space (c : ascii) : bool :=
  let n := nat_of_ascii c in
  ((Nat.leb 9 n && Nat.leb n 13) || (Nat.leb 28 n && Nat.leb n 32)
   || Nat.eqb n 133 || Nat.eqb n 160)%bool.

(** [file.readlines()]: the lines of the text, each with its line feed;
    the last line may lack one. *)
Fixpoint readlines (s : string) : list string :=
  match s with
  | EmptyString => []
  | String c r =>
      if Ascii.eqb c LF then String LF EmptyString :: readlines r
      else match readlines r with
           | l :: ls => String c l :: ls
           | [] => [String c EmptyString]
           end
  end.

Fixpoint lstrip (s : string) : string :=
  match s with
  | EmptyString => EmptyString
  | String c r => if is_space c then lstrip r else s
  end.

Fixpoint rstrip (s : string) : string :=
  match s with
  | EmptyString => EmptyString
  | String c r =>
      match rstrip r with
      | EmptyString => if is_space c then EmptyString else String c EmptyString
      | r' => String c r'
      end
  end.

(** [s.strip()] *)
Definition strip (s : string) : string := rstrip (lstrip s).

(** [s.split(sep)[0]]: the text before the first [sep]. *)
Fixpoint split_head (sep s : string) : string :=
  match s with
  | EmptyString => EmptyString
  | String c r => if starts sep s then EmptyString else String c (split_head sep r)
  end.

(** [s.split()]: the maximal runs of characters that are not white
    space. *)
Fixpoint py_split (s : string) : list string :=
  match s with
  | EmptyString => []
  | String c r =>
      if is_space c then py_split r
      else match r with
           | EmptyString => [String c EmptyString]
           | String c' _ =>
               if is_space c' then String c EmptyString :: py_split r
               else match py_split r with
                    | w :: ws => String c w :: ws
                    | [] => [String c EmptyString]
                    end
           end
  end.

(** The truth value of a string: it is not empty. *)
Definition py_bool (s : string) : bool :=
  match s with
  | EmptyString => false
  | String _ _ => true
  end.

(** [Parser.__init__], on the text of the file. *)
Definition Parser_init (text : string) : Parser :=
  mkParser
    (List.map (fun line => py_split (strip (split_head "//" line)))
       (List.filter
          (fun line => (py_bool (strip line) && negb (starts "//" line))%bool)
          (readlines text)))
    None.

Definition hasMoreCommands (p : Parser) : bool :=
  match commands p with
  | [] => false
  | _ :: _ => true
  end.

(** [advance]: [self.commands.pop(0)] becomes the current command; with
    no command left nothing changes. *)
Definition advance (p : Parser) : Parser :=
  if hasMoreCommands p then
    match commands p with
    | c :: rest => mkParser rest (Some c)
    | [] => p
    end
  else p.

(** The loop of [VMTranslator.translate] as the source writes it, [body]
    being the [if] chain of the variant; [fuel] bounds the number of
    turns, and [None] is returned when it runs out. *)
Fixpoint translate_while (body : Parser -> M unit) (fuel : nat) (p : Parser)
    : M (option Parser) :=
  if hasMoreCommands p then
    match fuel with
    | O => ret None
    | S k =>
        let p' := advance p in
        body p' ;;; translate_while body k p'
    end
  else ret (Some p).

(** [s.replace(old, new)] for a pattern [old] that is not empty: the
    occurrences of [old] are replaced from left to right; [skip] counts
    the characters of an occurrence still to pass over. *)
Fixpoint replace_from (old new : string) (skip : nat) (s : string) : string :=
  match s with
  | EmptyString => EmptyString
  | String c r =>
      match skip with
      | S k => replace_from old new k r
      | O =>
          if starts old s
          then new ++ replace_from old new (Nat.pred (String.length old)) r
          else String c (replace_from old new O r)
      end
  end.

Definition py_replace (old new s : string) : string := replace_from old new 0 s.

(** [VMTranslator.__init__]: the path of the output file. *)
Definition output_file (input_file : string) : string :=
  py_replace ".vm" ".asm" input_file.

(** The loop, its body and the whole run of either program. *)
Definition loop_of (p : program) : list (list string) -> M unit :=
  match p with
  | VMTranslator_py => VMTranslatorPy.translate_loop
  | Main_py => MainPy.translate_loop
  end.

Definition dispatch_of (p : program) : Parser -> M unit :=
  match p with
  | VMTranslator_py => VMTranslatorPy.dispatch
  | Main_py => MainPy.dispatch
  end.

Definition translate_of (p : program) : list (list string) -> outcome unit * CodeWriter :=
  match p with
  | VMTranslator_py => VMTranslatorPy.translate
  | Main_py => MainPy.translate
  end.

(** *** For the statements about loading *)

(** [sep.join(l)] *)
Fixpoint py_join (sep : string) (l : list string) : string :=
  match l with
  | [] => EmptyString
  | [a] => a
  | a :: r => a ++ sep ++ py_join sep r
  end.

(** A token as a program text can hold it: not empty, free of white
    space and of the comment mark. *)
Definition token_ok (t : string) : Prop :=
  t <> EmptyString
  /\ Hack.all_chars (fun c => negb (is_space c)) t = true
  /\ occurrences "//" t = 0%nat.

(** *** One turn of the loop, as lines

    What the loop body does with command [c] at label counter [n]: the
    lines it writes, or the exception it raises.  [dispatch_spec] proves
    that the bodies of the two programs behave so. *)

Definition direct_of (p : program) : string -> Z -> option string :=
  match p with
  | VMTranslator_py => vmt_direct_operand
  | Main_py => main_direct_operand
  end.

Definition via_of (p : program) : string -> Z -> list string :=
  match p with
  | VMTranslator_py => vmt_pop_via_lines
  | Main_py => main_pop_via_lines
  end.

(** The exception of a segment name that the writer does not know. *)
Definition segment_error (p : program) : exn :=
  match p with
  | VMTranslator_py => ValueError
  | Main_py => UnboundLocalError
  end.

Definition command_lines (p : program) (c : list string) (n : Z)
    : outcome (list string) :=
  match c with
  | [] =>
      match p with
      | VMTranslator_py => Raise IndexError
      | Main_py => Ok []
      end
  | c0 :: args =>
      if py_in c0 arithmetic_words then
        match arithmetic_lines c0 n with
        | Some ls => Ok ls
        | None => Raise ValueError
        end
      else if String.eqb c0 "push" then
        match args with
        | segment :: index :: _ =>
            match py_int index with
            | Some i =>
                match push_lines (direct_of p) segment i with
                | Some ls => Ok ls
                | None => Raise (segment_error p)
                end
            | None => Raise ValueError
            end
        | _ => Raise IndexError
        end
      else if String.eqb c0 "pop" then
        match args with
        | segment :: index :: _ =>
            match py_int index with
            | Some i =>
                match pop_lines (via_of p) (direct_of p) segment i with
                | Some ls => Ok ls
                | None => Raise (segment_error p)
                end
            | None => Raise ValueError
            end
        | _ => Raise IndexError
        end
      else
        match p with
        | VMTranslator_py => Raise ValueError
        | Main_py => if py_in c0 control_words then Ok [] else Raise ValueError
        end
  end.

(** *** The commands a program translates *)





(** The writer as the constructor of [CodeWriter] leaves it. *)
Definition initial_writer (p : program) : CodeWriter :=
  match p with
  | VMTranslator_py => VMTranslatorPy.CodeWriter_init
  | Main_py => snd MainPy.CodeWriter_init
  end.

(** A [push] or [pop] whose index lies between 0 and 32751: every
    address the writers print from it ([index], [5 + index],
    [16 + index]) is then a constant of the assembly language. *)
Definition index_in_range (c : list string) : bool :=
  match c with
  | c0 :: _ :: index :: _ =>
      if py_in c0 ["push"; "pop"] then
        match py_int index with
        | Some i => ((0 <=? i) && (i <=? 32751))%bool
        | None => true
        end
      else true
  | _ => true
  end.

(** *** The values the operators compute

    Operands and results are 16-bit words; [x] is the operand pushed
    first, [y] the one on top of the stack. *)

Definition binary_value (command : string) (x y : Z) : option Z :=
  if String.eqb command "add" then Some (Hack.wrap (x + y))
  else if String.eqb command "sub" then Some (Hack.wrap (x - y))
  else if String.eqb command "and" then Some (Z.land x y)
  else if String.eqb command "or" then Some (Z.lor x y)
  else None.

Definition unary_value (command : string) (y : Z) : option Z :=
  if String.eqb command "neg" then Some (Hack.wrap (- y))
  else if String.eqb command "not" then Some (65535 - y)
  else None.

(** The comparisons, on the integers the words stand for. *)
Definition comparison (command : string) (x y : Z) : option bool :=
  if String.eqb command "eq" then Some (x =? y)
  else if String.eqb command "gt" then Some (y <? x)
  else if String.eqb command "lt" then Some (x <? y)
  else None.

(** The truth values on the stack: -1 (all bits set) and 0. *)
Definition vm_bool (b : bool) : Z := if b then 65535 else 0.

(** * Properties *)

#[local] Arguments Z.add : simpl never.
#[local] Arguments Z.sub : simpl never.
#[local] Arguments py_in : simpl never.
#[local] Arguments VMTranslatorPy.writeArithmetic : simpl never.
#[local] Arguments VMTranslatorPy.writePush : simpl never.
#[local] Arguments VMTranslatorPy.writePop : simpl never.
#[local] Arguments MainPy.writeArithmetic : simpl never.
#[local] Arguments MainPy.writePush : simpl never.
#[local] Arguments MainPy.writePop : simpl never.
#[local] Arguments MainPy.writeCall : simpl never.

(** ** Texts, lines and numerals *)

Lemma append_assoc (a b c : string) : (a ++ b) ++ c = a ++ (b ++ c).
Proof. induction a as [|x a IH]; simpl; [reflexivity | now rewrite IH]. Qed.

Lemma append_nil_r (a : string) : a ++ "" = a.
Proof. induction a as [|x a IH]; simpl; [reflexivity | now rewrite IH]. Qed.

Lemma unlines_app (l1 l2 : list string) :
  unlines (l1 ++ l2)%list = unlines l1 ++ unlines l2.
Proof.
  induction l1 as [|l l1 IH]; simpl; [reflexivity|].
  rewrite IH, append_assoc. reflexivity.
Qed.

Lemma lines_no_lf_app (a b : string) :
  no_lf a = true ->
  Hack.lines (a ++ String LF b) = a :: Hack.lines b.
Proof.
  induction a as [|x a IH]; simpl; intros H.
  - reflexivity.
  - apply andb_prop in H. destruct H as [Hx Ha].
    destruct (Ascii.eqb x LF); [discriminate|].
    rewrite (IH Ha). reflexivity.
Qed.

Lemma lines_unlines (ls : list string) (rest : string) :
  Forall (fun l => no_lf l = true) ls ->
  Hack.lines (unlines ls ++ rest) = (ls ++ Hack.lines rest)%list.
Proof.
  induction 1 as [|l ls Hl _ IH]; simpl; [reflexivity|].
  rewrite append_assoc. simpl. rewrite (lines_no_lf_app _ _ Hl), IH.
  reflexivity.
Qed.

Lemma all_chars_app (f : ascii -> bool) (a b : string) :
  Hack.all_chars f (a ++ b) = (Hack.all_chars f a && Hack.all_chars f b)%bool.
Proof.
  induction a as [|x a IH]; simpl; [reflexivity|].
  rewrite IH, andb_assoc. reflexivity.
Qed.

Lemma all_chars_weaken (f g : ascii -> bool) (s : string) :
  (forall c, f c = true -> g c = true) ->
  Hack.all_chars f s = true -> Hack.all_chars g s = true.
Proof.
  intros Hfg. induction s as [|x s IH]; simpl; [reflexivity|].
  intros H. apply andb_prop in H. destruct H as [Hx Hs].
  rewrite (Hfg _ Hx), (IH Hs). reflexivity.
Qed.

Lemma digits_of_uint (d : uint) :
  Hack.all_chars is_digit (NilEmpty.string_of_uint d) = true.
Proof. induction d; simpl; auto. Qed.

Lemma digit_no_lf (c : ascii) : is_digit c = true -> negb (Ascii.eqb c LF) = true.
Proof.
  intros H. destruct (Ascii.eqb_spec c LF) as [->|]; [discriminate H | reflexivity].
Qed.

Lemma digit_symbol_char (c : ascii) : is_digit c = true -> Hack.symbol_char c = true.
Proof.
  intros H. unfold Hack.symbol_char. rewrite H.
  now rewrite orb_true_r.
Qed.

Lemma nilzero_string (d : uint) :
  d <> Nil -> NilZero.string_of_uint d = NilEmpty.string_of_uint d.
Proof. destruct d; intros H; try reflexivity. now destruct H. Qed.

(** The numeral of a non-negative integer: a non-empty run of digits
    that reads back as the integer. *)
Lemma py_str_nonneg (n : Z) :
  0 <= n ->
  exists d, d <> Nil /\ py_str n = NilEmpty.string_of_uint d /\ Z.of_uint d = n.
Proof.
  intros Hn. unfold py_str. destruct n as [|p|p]; [| |lia].
  - exists (D0 Nil). repeat split. discriminate.
  - exists (Pos.to_uint p). split; [apply DecimalPos.Unsigned.to_uint_nonnil|].
    split.
    + simpl. apply nilzero_string, DecimalPos.Unsigned.to_uint_nonnil.
    + unfold Z.of_uint. now rewrite DecimalPos.Unsigned.of_to.
Qed.

Lemma py_str_neg (n : Z) : n < 0 -> exists r, py_str n = String "-" r.
Proof.
  intros Hn. destruct n as [|p|p]; try lia. unfold py_str. simpl.
  eexists. reflexivity.
Qed.

Lemma py_str_digits (n : Z) : 0 <= n -> Hack.all_chars is_digit (py_str n) = true.
Proof.
  intros Hn. destruct (py_str_nonneg n Hn) as (d & _ & -> & _).
  apply digits_of_uint.
Qed.

Lemma py_str_no_lf (n : Z) : no_lf (py_str n) = true.
Proof.
  destruct (Z_lt_le_dec n 0) as [Hn|Hn].
  - unfold py_str. destruct n as [|p|p]; try lia. simpl.
    unfold no_lf. simpl.
    apply (all_chars_weaken is_digit); [apply digit_no_lf|].
    rewrite nilzero_string by apply DecimalPos.Unsigned.to_uint_nonnil.
    apply digits_of_uint.
  - apply (all_chars_weaken is_digit); [apply digit_no_lf|].
    now apply py_str_digits.
Qed.

Lemma to_int_normal (n : Z) : Z.to_int n <> Pos Nil /\ Z.to_int n <> Neg Nil.
Proof.
  destruct n as [|p|p]; simpl; split; try discriminate;
    intros [= H]; now apply (DecimalPos.Unsigned.to_uint_nonnil p).
Qed.

Lemma py_str_inj (a b : Z) : py_str a = py_str b -> a = b.
Proof.
  unfold py_str. intros H. apply DecimalZ.to_int_inj.
  destruct (to_int_normal a) as [Ha1 Ha2].
  destruct (to_int_normal b) as [Hb1 Hb2].
  apply (f_equal NilZero.int_of_string) in H.
  rewrite !NilZero.isi in H by assumption. now injection H.
Qed.

(** ** What each method writes *)

Ltac text_eq :=
  simpl; rewrite ?append_assoc; simpl; rewrite ?append_assoc; reflexivity.

Ltac unfold_writer :=
  unfold bind, ret, raise, lift, file_write, incr_label_count,
    get_label_count, dict_index, dict_mem, py_in; simpl.

(** A case analysis on the key [x]: in a branch where [x] is a known
    key the goal computes. *)
Ltac by_key x tac :=
  repeat match goal with
    | |- context [String.eqb x ?k] =>
        destruct (String.eqb_spec x k) as [->|?]; [ solve [tac] | simpl ]
    end.

Lemma wrote_eq (f x y : string) (n n' : Z) :
  x = y -> n = n' ->
  (Ok tt, mkCodeWriter (f ++ x) n) = (Ok tt, mkCodeWriter (f ++ y) n').
Proof. now intros -> ->. Qed.

Ltac wrote := simpl; apply wrote_eq; [ text_eq | reflexivity ].

(** The same, leaving the rest of the goal as it is written. *)
Ltac by_key_only x tac :=
  repeat match goal with
    | |- context [String.eqb x ?k] =>
        destruct (String.eqb_spec x k) as [->|?];
        [ solve [tac] | cbv beta iota ]
    end.

Lemma vmt_writeArithmetic_spec (command : string) (w : CodeWriter) :
  VMTranslatorPy.writeArithmetic command w =
  match arithmetic_lines command (label_count w) with
  | Some ls =>
      (Ok tt, mkCodeWriter (file w ++ unlines ls)
                (if is_comparison command then label_count w + 1
                 else label_count w))
  | None => (Raise ValueError, w)
  end.
Proof.
  unfold VMTranslatorPy.writeArithmetic, arithmetic_lines, is_comparison.
  unfold_writer.
  by_key command wrote.
  reflexivity.
Qed.

Lemma main_writeArithmetic_spec (command : string) (w : CodeWriter) :
  MainPy.writeArithmetic command w =
  match arithmetic_lines command (label_count w) with
  | Some ls =>
      (Ok tt, mkCodeWriter (file w ++ unlines ls)
                (if is_comparison command then label_count w + 1
                 else label_count w))
  | None => (Raise ValueError, w)
  end.
Proof.
  unfold MainPy.writeArithmetic, arithmetic_lines, is_comparison.
  unfold_writer.
  by_key command wrote.
  reflexivity.
Qed.

Ltac wrote_if := wrote || (match goal with
                           | |- context [Z.eqb ?i 0] => destruct (Z.eqb i 0)
                           end; wrote).

Lemma vmt_writePush_spec (segment : string) (index : Z) (w : CodeWriter) :
  VMTranslatorPy.writePush segment index w =
  match push_lines vmt_direct_operand segment index with
  | Some ls => (Ok tt, mkCodeWriter (file w ++ unlines ls) (label_count w))
  | None => (Raise ValueError, w)
  end.
Proof.
  unfold VMTranslatorPy.writePush, VMTranslatorPy.push_segment_map,
    push_lines, base_register, vmt_direct_operand.
  unfold_writer.
  by_key segment wrote_if.
  reflexivity.
Qed.

Lemma vmt_writePop_spec (segment : string) (index : Z) (w : CodeWriter) :
  VMTranslatorPy.writePop segment index w =
  if String.eqb segment "constant" then (Raise ValueError, w)
  else match pop_lines vmt_pop_via_lines vmt_direct_operand segment index with
       | Some ls => (Ok tt, mkCodeWriter (file w ++ unlines ls) (label_count w))
       | None => (Raise ValueError, w)
       end.
Proof.
  unfold VMTranslatorPy.writePop, VMTranslatorPy.pop_segment_map,
    pop_lines, base_register, vmt_direct_operand.
  unfold_writer.
  by_key segment ltac:(first [reflexivity | wrote_if]).
  reflexivity.
Qed.

Lemma main_writePush_spec (segment : string) (index : Z) (w : CodeWriter) :
  MainPy.writePush segment index w =
  match push_lines main_direct_operand segment index with
  | Some ls => (Ok tt, mkCodeWriter (file w ++ unlines ls) (label_count w))
  | None => (Raise UnboundLocalError, w)
  end.
Proof.
  unfold MainPy.writePush, MainPy.SEGMENTS,
    push_lines, base_register, main_direct_operand.
  unfold_writer.
  by_key segment wrote_if.
  reflexivity.
Qed.

Lemma main_writePop_spec (segment : string) (index : Z) (w : CodeWriter) :
  MainPy.writePop segment index w =
  match pop_lines main_pop_via_lines main_direct_operand segment index with
  | Some ls => (Ok tt, mkCodeWriter (file w ++ unlines ls) (label_count w))
  | None => (Raise UnboundLocalError, w)
  end.
Proof.
  unfold MainPy.writePop, MainPy.SEGMENTS,
    pop_lines, base_register, main_direct_operand.
  unfold_writer.
  by_key segment wrote_if.
  reflexivity.
Qed.

Lemma main_writeCall_spec (function_name : string) (num_args : Z) (w : CodeWriter) :
  MainPy.writeCall function_name num_args w =
  (Ok tt, mkCodeWriter
            (file w ++ unlines (call_lines function_name num_args (label_count w)))
            (label_count w + 1)).
Proof.
  unfold MainPy.writeCall. unfold_writer. wrote.
Qed.

Lemma main_writeInit_spec (w : CodeWriter) :
  MainPy.writeInit w =
  (Ok tt, mkCodeWriter
            (file w ++ unlines (init_lines ++ call_lines "Sys.init" 0 (label_count w)))
            (label_count w + 1)).
Proof.
  unfold MainPy.writeInit, bind. unfold file_write at 1.
  rewrite main_writeCall_spec. simpl file. simpl label_count.
  rewrite unlines_app, <- append_assoc. reflexivity.
Qed.

(** ** The translate loop *)

Lemma vmt_loop_app (a b : list (list string)) (w : CodeWriter) :
  VMTranslatorPy.translate_loop (a ++ b)%list w =
  match VMTranslatorPy.translate_loop a w with
  | (Ok _, w') => VMTranslatorPy.translate_loop b w'
  | (Raise e, w') => (Raise e, w')
  end.
Proof.
  revert w. induction a as [|c a IH]; intros w; simpl; [reflexivity|].
  unfold bind.
  destruct (VMTranslatorPy.dispatch _ w) as [[u|e] w1]; [apply IH | reflexivity].
Qed.

Lemma main_loop_app (a b : list (list string)) (w : CodeWriter) :
  MainPy.translate_loop (a ++ b)%list w =
  match MainPy.translate_loop a w with
  | (Ok _, w') => MainPy.translate_loop b w'
  | (Raise e, w') => (Raise e, w')
  end.
Proof.
  revert w. induction a as [|c a IH]; intros w; simpl; [reflexivity|].
  unfold bind.
  destruct (MainPy.dispatch _ w) as [[u|e] w1]; [apply IH | reflexivity].
Qed.

(** A command of one of the six control kinds leaves the writer of
    [src/main.py] untouched: the loop goes on to the next command. *)
Lemma main_control_skipped (c0 : string) (args : list string)
    (rest : list (list string)) (w : CodeWriter) :
  py_in c0 control_words = true ->
  MainPy.dispatch (mkParser rest (Some (c0 :: args))) w = (Ok tt, w).
Proof.
  unfold control_words, py_in. simpl. rewrite orb_false_r. intros H.
  unfold MainPy.dispatch, MainPy.commandType, bind, lift, py_in. simpl.
  repeat match goal with
    | H : (String.eqb c0 ?k || _)%bool = true |- _ =>
        destruct (String.eqb_spec c0 k) as [->|?]; [reflexivity | simpl in H]
    end.
  apply String.eqb_eq in H. subst c0. reflexivity.
Qed.

(** The same command stops [src/VMTranslator.py]: its parser knows no
    such kind. *)
Lemma vmt_control_rejected (c0 : string) (args : list string)
    (rest : list (list string)) (w : CodeWriter) :
  py_in c0 control_words = true ->
  VMTranslatorPy.dispatch (mkParser rest (Some (c0 :: args))) w
  = (Raise ValueError, w).
Proof.
  unfold control_words, py_in. simpl. rewrite orb_false_r. intros H.
  unfold VMTranslatorPy.dispatch, VMTranslatorPy.commandType, bind, lift,
    py_in, arithmetic_words. simpl.
  repeat match goal with
    | H : (String.eqb c0 ?k || _)%bool = true |- _ =>
        destruct (String.eqb_spec c0 k) as [->|?]; [reflexivity | simpl in H]
    end.
  apply String.eqb_eq in H. subst c0. reflexivity.
Qed.

(** C1.  The claim asks that every Label, Goto, IfGoto, Function, Call
    and Return command be dispatched to a routine that appends a
    non-empty fragment.  Neither program does so.  On each of the six
    one-command programs below, [src/main.py] ends normally with exactly
    the output of the empty program (the command is skipped in silence),
    and [src/VMTranslator.py] raises with an empty output. *)
Theorem C1_control_commands_not_dispatched :
  Forall (fun c =>
            MainPy.translate [c] = MainPy.translate []
            /\ VMTranslatorPy.translate [c] = (Raise ValueError, mkCodeWriter "" 0))
    [ ["label"; "LOOP"]; ["goto"; "LOOP"]; ["if-goto"; "LOOP"];
      ["function"; "Main.f"; "2"]; ["call"; "Main.f"; "2"]; ["return"] ].
Proof.
  repeat constructor; vm_compute; reflexivity.
Qed.

(** ** Pop to the constant segment *)

Lemma vmt_pop_constant_dispatch (args : list string)
    (rest : list (list string)) (w : CodeWriter) :
  exists e,
    VMTranslatorPy.dispatch (mkParser rest (Some ("pop" :: "constant" :: args))) w
    = (Raise e, w).
Proof.
  unfold VMTranslatorPy.dispatch, bind, lift. simpl.
  destruct args as [|a args]; simpl.
  - now exists IndexError.
  - unfold VMTranslatorPy.arg2. simpl. unfold int_of.
    destruct (py_int a) as [i|]; [|now exists ValueError].
    rewrite vmt_writePop_spec. simpl. now exists ValueError.
Qed.

Lemma main_pop_constant_dispatch (args : list string)
    (rest : list (list string)) (w : CodeWriter) :
  exists e,
    MainPy.dispatch (mkParser rest (Some ("pop" :: "constant" :: args))) w
    = (Raise e, w).
Proof.
  unfold MainPy.dispatch, bind, lift. simpl.
  destruct args as [|a args]; simpl.
  - now exists IndexError.
  - unfold MainPy.arg2. simpl. unfold int_of.
    destruct (py_int a) as [i|]; [|now exists ValueError].
    rewrite main_writePop_spec. simpl. now exists UnboundLocalError.
Qed.

(** C6.  A pop to the constant segment raises in both programs, for
    every index, and the writer is left as it was: nothing is appended
    for that command.  In a program, whatever comes before and after,
    translation ends with an exception, and the output is exactly what
    the commands before the pop wrote: no later command is translated. *)
Theorem C6_pop_constant_is_fatal (index : Z) (w : CodeWriter)
    (pre post : list (list string)) (args : list string) :
  VMTranslatorPy.writePop "constant" index w = (Raise ValueError, w)
  /\ MainPy.writePop "constant" index w = (Raise UnboundLocalError, w)
  /\ (let r := VMTranslatorPy.translate_loop
                 (pre ++ ("pop" :: "constant" :: args) :: post)%list w in
      (exists e, fst r = Raise e)
      /\ snd r = snd (VMTranslatorPy.translate_loop pre w))
  /\ (let r := MainPy.translate_loop
                 (pre ++ ("pop" :: "constant" :: args) :: post)%list w in
      (exists e, fst r = Raise e)
      /\ snd r = snd (MainPy.translate_loop pre w)).
Proof.
  split; [rewrite vmt_writePop_spec; reflexivity|].
  split; [rewrite main_writePop_spec; reflexivity|].
  split.
  - cbv zeta. rewrite vmt_loop_app.
    destruct (VMTranslatorPy.translate_loop pre w) as [[u|e] w1]; simpl.
    + unfold bind.
      destruct (vmt_pop_constant_dispatch args post w1) as [e ->].
      simpl. eauto.
    + eauto.
  - cbv zeta. rewrite main_loop_app.
    destruct (MainPy.translate_loop pre w) as [[u|e] w1]; simpl.
    + unfold bind.
      destruct (main_pop_constant_dispatch args post w1) as [e ->].
      simpl. eauto.
    + eauto.
Qed.

(** ** Out-of-range pointer indices *)




(** ** The two [writeArithmetic] *)

(** C10.  From one writer state (the same text written so far, the same
    label counter) the two [writeArithmetic] give the same result: the
    same outcome, the same text and the same counter.  For the nine
    operators the outcome is normal; for any other string both raise
    [ValueError] and leave the writer as it was. *)
Theorem C10_writeArithmetic_variants_agree (command : string) (w : CodeWriter) :
  MainPy.writeArithmetic command w = VMTranslatorPy.writeArithmetic command w
  /\ (if py_in command arithmetic_words then
        exists text,
          VMTranslatorPy.writeArithmetic command w =
          (Ok tt, mkCodeWriter (file w ++ text)
                    (if is_comparison command then label_count w + 1
                     else label_count w))
      else
        MainPy.writeArithmetic command w = (Raise ValueError, w)
        /\ VMTranslatorPy.writeArithmetic command w = (Raise ValueError, w)).
Proof.
  rewrite main_writeArithmetic_spec, vmt_writeArithmetic_spec.
  split; [reflexivity|].
  unfold arithmetic_lines, arithmetic_words, py_in. simpl.
  by_key command ltac:(eexists; reflexivity).
  split; reflexivity.
Qed.

(** ** The shape of the output of a run *)

Lemma vmt_dispatch_fragment (p : Parser) (w : CodeWriter) :
  exists ls,
    fragment vmt_direct_operand vmt_pop_via_lines
      (label_count w) ls (label_count (snd (VMTranslatorPy.dispatch p w)))
    /\ file (snd (VMTranslatorPy.dispatch p w)) = file w ++ unlines ls.
Proof.
  assert (Hnone : exists ls,
             fragment vmt_direct_operand vmt_pop_via_lines
               (label_count w) ls (label_count w)
             /\ file w = file w ++ unlines ls).
  { exists []. split; [constructor | simpl; now rewrite append_nil_r]. }
  unfold VMTranslatorPy.dispatch, bind, lift.
  destruct (VMTranslatorPy.commandType p) as [t|e]; [|exact Hnone].
  destruct t; try exact Hnone.
  - destruct (VMTranslatorPy.arg1 p) as [a1|e]; [|exact Hnone].
    rewrite vmt_writeArithmetic_spec.
    destruct (arithmetic_lines a1 (label_count w)) as [ls|] eqn:E; [|exact Hnone].
    exists ls. split; [now apply frag_arithmetic | reflexivity].
  - destruct (VMTranslatorPy.arg1 p) as [a1|e]; [|exact Hnone].
    destruct (VMTranslatorPy.arg2 p) as [a2|e]; [|exact Hnone].
    rewrite vmt_writePush_spec.
    destruct (push_lines vmt_direct_operand a1 a2) as [ls|] eqn:E; [|exact Hnone].
    exists ls. split; [now apply (frag_push _ _ _ a1 a2) | reflexivity].
  - destruct (VMTranslatorPy.arg1 p) as [a1|e]; [|exact Hnone].
    destruct (VMTranslatorPy.arg2 p) as [a2|e]; [|exact Hnone].
    rewrite vmt_writePop_spec.
    destruct (String.eqb a1 "constant"); [exact Hnone|].
    destruct (pop_lines vmt_pop_via_lines vmt_direct_operand a1 a2) as [ls|] eqn:E;
      [|exact Hnone].
    exists ls. split; [now apply (frag_pop _ _ _ a1 a2) | reflexivity].
Qed.

Lemma main_dispatch_fragment (p : Parser) (w : CodeWriter) :
  exists ls,
    fragment main_direct_operand main_pop_via_lines
      (label_count w) ls (label_count (snd (MainPy.dispatch p w)))
    /\ file (snd (MainPy.dispatch p w)) = file w ++ unlines ls.
Proof.
  assert (Hnone : exists ls,
             fragment main_direct_operand main_pop_via_lines
               (label_count w) ls (label_count w)
             /\ file w = file w ++ unlines ls).
  { exists []. split; [constructor | simpl; now rewrite append_nil_r]. }
  unfold MainPy.dispatch, bind, lift.
  destruct (MainPy.commandType p) as [t|e]; [|exact Hnone].
  destruct (MainPy.is_type t C_ARITHMETIC).
  { destruct (MainPy.arg1 p) as [a1|e]; [|exact Hnone].
    rewrite main_writeArithmetic_spec.
    destruct (arithmetic_lines a1 (label_count w)) as [ls|] eqn:E; [|exact Hnone].
    exists ls. split; [now apply frag_arithmetic | reflexivity]. }
  destruct (MainPy.is_type t C_PUSH).
  { destruct (MainPy.arg1 p) as [a1|e]; [|exact Hnone].
    destruct (MainPy.arg2 p) as [a2|e]; [|exact Hnone].
    rewrite main_writePush_spec.
    destruct (push_lines main_direct_operand a1 a2) as [ls|] eqn:E; [|exact Hnone].
    exists ls. split; [now apply (frag_push _ _ _ a1 a2) | reflexivity]. }
  destruct (MainPy.is_type t C_POP); [|exact Hnone].
  destruct (MainPy.arg1 p) as [a1|e]; [|exact Hnone].
  destruct (MainPy.arg2 p) as [a2|e]; [|exact Hnone].
  rewrite main_writePop_spec.
  destruct (pop_lines main_pop_via_lines main_direct_operand a1 a2) as [ls|] eqn:E;
    [|exact Hnone].
  exists ls. split; [now apply (frag_pop _ _ _ a1 a2) | reflexivity].
Qed.

Lemma vmt_loop_trace (input : list (list string)) (w : CodeWriter) :
  exists ls,
    trace (fragment vmt_direct_operand vmt_pop_via_lines)
      (label_count w) ls
      (label_count (snd (VMTranslatorPy.translate_loop input w)))
    /\ file (snd (VMTranslatorPy.translate_loop input w)) = file w ++ unlines ls.
Proof.
  revert w. induction input as [|c rest IH]; intros w; simpl.
  - exists []. split; [constructor | simpl; now rewrite append_nil_r].
  - unfold bind.
    destruct (vmt_dispatch_fragment (mkParser rest (Some c)) w) as (ls & Hf & Hw).
    destruct (VMTranslatorPy.dispatch (mkParser rest (Some c)) w) as [[u|e] w1];
      simpl in Hf, Hw.
    + destruct (IH w1) as (ls' & Ht & Hw').
      exists (ls ++ ls')%list. split; [econstructor; eassumption|].
      rewrite Hw', Hw, unlines_app, append_assoc. reflexivity.
    + exists (ls ++ [])%list. split; [econstructor; [eassumption | constructor]|].
      simpl. rewrite List.app_nil_r. exact Hw.
Qed.

Lemma main_loop_trace (input : list (list string)) (w : CodeWriter) :
  exists ls,
    trace (fragment main_direct_operand main_pop_via_lines)
      (label_count w) ls
      (label_count (snd (MainPy.translate_loop input w)))
    /\ file (snd (MainPy.translate_loop input w)) = file w ++ unlines ls.
Proof.
  revert w. induction input as [|c rest IH]; intros w; simpl.
  - exists []. split; [constructor | simpl; now rewrite append_nil_r].
  - unfold bind.
    destruct (main_dispatch_fragment (mkParser rest (Some c)) w) as (ls & Hf & Hw).
    destruct (MainPy.dispatch (mkParser rest (Some c)) w) as [[u|e] w1];
      simpl in Hf, Hw.
    + destruct (IH w1) as (ls' & Ht & Hw').
      exists (ls ++ ls')%list. split; [econstructor; eassumption|].
      rewrite Hw', Hw, unlines_app, append_assoc. reflexivity.
    + exists (ls ++ [])%list. split; [econstructor; [eassumption | constructor]|].
      simpl. rewrite List.app_nil_r. exact Hw.
Qed.

(** ** What the lines of a run look like *)

Lemma py_str_clean (n : Z) : Hack.all_chars clean_char (py_str n) = true.
Proof.
  assert (Hd : forall d, Hack.all_chars clean_char (NilEmpty.string_of_uint d) = true).
  { intros d. apply (all_chars_weaken is_digit); [|apply digits_of_uint].
    intros c Hc. unfold clean_char.
    destruct (Ascii.eqb_spec c LF) as [->|]; [discriminate Hc|].
    destruct (Ascii.eqb_spec c "/") as [->|]; [discriminate Hc|reflexivity]. }
  unfold py_str. destruct n as [|p|p]; simpl.
  - reflexivity.
  - rewrite nilzero_string by apply DecimalPos.Unsigned.to_uint_nonnil. apply Hd.
  - rewrite nilzero_string by apply DecimalPos.Unsigned.to_uint_nonnil. apply Hd.
Qed.

Lemma clean_no_lf (s : string) : clean s = true -> no_lf s = true.
Proof.
  apply all_chars_weaken. intros c H. unfold clean_char in H.
  apply andb_prop in H. tauto.
Qed.

Lemma strip_close_app (a : string) : Hack.strip_close (a ++ ")") = Some a.
Proof.
  induction a as [|x a IH]; [reflexivity|].
  simpl. rewrite IH. destruct (a ++ ")") eqn:E; [|reflexivity].
  destruct a; discriminate E.
Qed.

#[local] Arguments Hack.strip_close : simpl never.

Lemma labels_of_lines_app (a b : list string) :
  Hack.labels_of_lines (a ++ b)%list
  = (Hack.labels_of_lines a ++ Hack.labels_of_lines b)%list.
Proof.
  induction a as [|l a IH]; simpl; [reflexivity|].
  rewrite IH. apply List.app_assoc.
Qed.

Ltac clean_lines :=
  repeat constructor; unfold clean; simpl;
  rewrite ?all_chars_app; simpl;
  rewrite ?py_str_clean; reflexivity.

Lemma arithmetic_lines_facts (command : string) (n : Z) (ls : list string) :
  arithmetic_lines command n = Some ls ->
  Forall (fun l => clean l = true) ls
  /\ Hack.labels_of_lines ls
     = if is_comparison command then comparison_labels n else [].
Proof.
  unfold arithmetic_lines, is_comparison, py_in. simpl.
  by_key command ltac:(intros [= <-]; split;
                       [clean_lines
                       | unfold binary_lines, unary_lines, comparison_lines;
                         cbn [Hack.labels_of_lines Hack.label_of_line];
                         rewrite ?strip_close_app; reflexivity]).
  discriminate.
Qed.

Section FragmentFacts.

Variable direct : string -> Z -> option string.
Variable via : string -> Z -> list string.

Hypothesis direct_clean :
  forall segment index o, direct segment index = Some o -> clean o = true.
Hypothesis via_clean :
  forall b index, clean b = true ->
    Forall (fun l => clean l = true) (via b index)
    /\ Hack.labels_of_lines (via b index) = [].

Lemma base_register_clean (segment b : string) :
  base_register segment = Some b -> clean b = true.
Proof.
  unfold base_register.
  by_key segment ltac:(intros [= <-]; reflexivity).
  discriminate.
Qed.

Lemma push_lines_facts (segment : string) (index : Z) (ls : list string) :
  push_lines direct segment index = Some ls ->
  Forall (fun l => clean l = true) ls /\ Hack.labels_of_lines ls = [].
Proof.
  unfold push_lines.
  destruct (String.eqb segment "constant").
  { intros [= <-]. split; [clean_lines | reflexivity]. }
  destruct (base_register segment) as [b|] eqn:Eb.
  { intros [= <-]. apply base_register_clean in Eb. split; [|reflexivity].
    unfold push_via_lines. simpl.
    repeat constructor; try reflexivity; unfold clean; simpl;
      [exact Eb | apply py_str_clean]. }
  destruct (direct segment index) as [o|] eqn:Eo; [|discriminate].
  intros [= <-]. apply direct_clean in Eo. split; [|reflexivity].
  unfold push_direct_lines. simpl.
  repeat constructor; try reflexivity; unfold clean; simpl; exact Eo.
Qed.

Lemma pop_lines_facts (segment : string) (index : Z) (ls : list string) :
  pop_lines via direct segment index = Some ls ->
  Forall (fun l => clean l = true) ls /\ Hack.labels_of_lines ls = [].
Proof.
  unfold pop_lines.
  destruct (base_register segment) as [b|] eqn:Eb.
  { intros [= <-]. apply via_clean. now apply base_register_clean in Eb. }
  destruct (direct segment index) as [o|] eqn:Eo; [|discriminate].
  intros [= <-]. apply direct_clean in Eo. split; [|reflexivity].
  unfold pop_direct_lines.
  repeat constructor; try reflexivity; unfold clean; simpl; exact Eo.
Qed.

Lemma fragment_facts (n n' : Z) (ls : list string) :
  fragment direct via n ls n' ->
  Forall (fun l => clean l = true) ls
  /\ ((n' = n /\ Hack.labels_of_lines ls = [])
      \/ (n' = n + 1 /\ Hack.labels_of_lines ls = comparison_labels n)).
Proof.
  intros [k | k c l H | k sg i l H | k sg i l H].
  - split; [constructor | left; split; reflexivity].
  - destruct (arithmetic_lines_facts _ _ _ H) as [Hc Hl].
    split; [exact Hc|]. rewrite Hl.
    destruct (is_comparison c); [right | left]; split; reflexivity.
  - destruct (push_lines_facts _ _ _ H) as [Hc Hl].
    split; [exact Hc | left; split; [reflexivity | exact Hl]].
  - destruct (pop_lines_facts _ _ _ H) as [Hc Hl].
    split; [exact Hc | left; split; [reflexivity | exact Hl]].
Qed.

(** Along a run the counter only grows, and the labels declared are
    those of the counter values passed, in order. *)
Lemma trace_facts (n n' : Z) (ls : list string) :
  trace (fragment direct via) n ls n' ->
  Forall (fun l => clean l = true) ls
  /\ n <= n'
  /\ Hack.labels_of_lines ls
     = flat_map comparison_labels (counters n (Z.to_nat (n' - n))).
Proof.
  induction 1 as [k | k k' k'' l l' Hf Ht (IHc & IHle & IHl)].
  - split; [constructor|]. split; [lia|].
    rewrite Z.sub_diag. reflexivity.
  - destruct (fragment_facts _ _ _ Hf) as (Hc & Hcase).
    split; [apply Forall_app; split; assumption|].
    rewrite labels_of_lines_app, IHl.
    destruct Hcase as [[-> Hl] | [-> Hl]]; rewrite Hl.
    + split; [lia | reflexivity].
    + split; [lia|].
      replace (Z.to_nat (k'' - k)) with (S (Z.to_nat (k'' - (k + 1)))) by lia.
      unfold counters. simpl. rewrite Z.add_0_r. do 2 f_equal.
      rewrite <- seq_shift, map_map. f_equal. apply map_ext.
      intros a. lia.
Qed.

End FragmentFacts.

Lemma vmt_direct_clean (segment : string) (index : Z) (o : string) :
  vmt_direct_operand segment index = Some o -> clean o = true.
Proof.
  unfold vmt_direct_operand, clean.
  by_key segment ltac:(intros [= <-]; try destruct (index =? 0); simpl;
                       rewrite ?py_str_clean; reflexivity).
  discriminate.
Qed.

Lemma main_direct_clean (segment : string) (index : Z) (o : string) :
  main_direct_operand segment index = Some o -> clean o = true.
Proof.
  unfold main_direct_operand, clean.
  by_key segment ltac:(intros [= <-]; apply py_str_clean).
  discriminate.
Qed.

Lemma vmt_via_clean (b : string) (index : Z) :
  clean b = true ->
  Forall (fun l => clean l = true) (vmt_pop_via_lines b index)
  /\ Hack.labels_of_lines (vmt_pop_via_lines b index) = [].
Proof.
  intros Hb. split; [|reflexivity].
  unfold vmt_pop_via_lines. simpl.
  repeat constructor; try reflexivity; unfold clean; simpl;
    [apply py_str_clean | exact Hb].
Qed.

Lemma main_via_clean (b : string) (index : Z) :
  clean b = true ->
  Forall (fun l => clean l = true) (main_pop_via_lines b index)
  /\ Hack.labels_of_lines (main_pop_via_lines b index) = [].
Proof.
  intros Hb. split; [|reflexivity].
  unfold main_pop_via_lines. simpl.
  repeat constructor; try reflexivity; unfold clean; simpl;
    [exact Hb | apply py_str_clean].
Qed.

(** *** Distinct labels *)

Lemma counters_succ (n : Z) (len : nat) :
  counters n (S len) = n :: counters (n + 1) len.
Proof.
  unfold counters. simpl. rewrite Z.add_0_r. f_equal.
  rewrite <- seq_shift, map_map. apply map_ext. intros a. lia.
Qed.

Lemma in_comparison_labels (x : string) (n : Z) (len : nat) :
  In x (flat_map comparison_labels (counters n len)) ->
  exists k, n <= k < n + Z.of_nat len
            /\ (x = "TRUE_" ++ py_str k \/ x = "END_" ++ py_str k).
Proof.
  revert n. induction len as [|len IH]; intros n.
  - intros [].
  - rewrite counters_succ. simpl.
    intros [<- | [<- | H]].
    + exists n. split; [lia | now left].
    + exists n. split; [lia | now right].
    + destruct (IH _ H) as (k & Hk & Hx). exists k. split; [lia | exact Hx].
Qed.

Lemma comparison_labels_nodup (n : Z) (len : nat) :
  NoDup (flat_map comparison_labels (counters n len)).
Proof.
  revert n. induction len as [|len IH]; intros n.
  - constructor.
  - rewrite counters_succ. simpl.
    constructor; [|constructor; [|apply IH]].
    + intros [H | H]; [discriminate H|].
      apply in_comparison_labels in H. destruct H as (k & Hk & [H | H]).
      * injection H as H. apply py_str_inj in H. lia.
      * discriminate H.
    + intros H.
      apply in_comparison_labels in H. destruct H as (k & Hk & [H | H]).
      * discriminate H.
      * injection H as H. apply py_str_inj in H. lia.
Qed.

Lemma comparison_labels_length (n : Z) (len : nat) :
  List.length (flat_map comparison_labels (counters n len)) = (2 * len)%nat.
Proof.
  revert n. induction len as [|len IH]; intros n; [reflexivity|].
  rewrite counters_succ. simpl. rewrite IH. lia.
Qed.

(** The labels are spelled like any identifier of a program. *)
Lemma comparison_label_symbol (k : Z) :
  0 <= k ->
  Hack.valid_symbol ("TRUE_" ++ py_str k) = true
  /\ Hack.valid_symbol ("END_" ++ py_str k) = true.
Proof.
  intros Hk.
  assert (H : Hack.all_chars Hack.symbol_char (py_str k) = true).
  { apply (all_chars_weaken is_digit); [apply digit_symbol_char|].
    now apply py_str_digits. }
  split; simpl; exact H.
Qed.

(** *** The labels of a whole output *)

Lemma declared_labels_unlines (ls : list string) :
  Forall (fun l => clean l = true) ls ->
  Hack.declared_labels (unlines ls) = Hack.labels_of_lines ls.
Proof.
  intros H. unfold Hack.declared_labels.
  rewrite <- (append_nil_r (unlines ls)), lines_unlines.
  - rewrite labels_of_lines_app. simpl. apply List.app_nil_r.
  - eapply Forall_impl; [|exact H]. intros l. apply clean_no_lf.
Qed.

Lemma vmt_output_labels (input : list (list string)) :
  let w := snd (VMTranslatorPy.translate input) in
  0 <= label_count w
  /\ Hack.declared_labels (file w)
     = flat_map comparison_labels (counters 0 (Z.to_nat (label_count w))).
Proof.
  cbv zeta. unfold VMTranslatorPy.translate.
  destruct (vmt_loop_trace input VMTranslatorPy.CodeWriter_init) as (ls & Ht & Hw).
  apply (trace_facts _ _ vmt_direct_clean vmt_via_clean) in Ht.
  destruct Ht as (Hc & Hle & Hl). simpl in Hle, Hl, Hw.
  split; [exact Hle|].
  rewrite Hw, declared_labels_unlines by exact Hc.
  rewrite Hl, Z.sub_0_r. reflexivity.
Qed.

Lemma main_init_state :
  MainPy.CodeWriter_init
  = (Ok tt, mkCodeWriter (unlines (init_lines ++ call_lines "Sys.init" 0 0)) 1).
Proof. unfold MainPy.CodeWriter_init. rewrite main_writeInit_spec. reflexivity. Qed.

Lemma main_output_lines (input : list (list string)) :
  let w := snd (MainPy.translate input) in
  exists ls,
    file w = unlines ((init_lines ++ call_lines "Sys.init" 0 0) ++ ls)
    /\ Forall (fun l => clean l = true) ls
    /\ 1 <= label_count w
    /\ Hack.labels_of_lines ls
       = flat_map comparison_labels (counters 1 (Z.to_nat (label_count w - 1))).
Proof.
  cbv zeta. unfold MainPy.translate. rewrite main_init_state.
  match goal with |- context [MainPy.translate_loop input ?w0] =>
    destruct (main_loop_trace input w0) as (ls & Ht & Hw) end.
  apply (trace_facts _ _ main_direct_clean main_via_clean) in Ht.
  destruct Ht as (Hc & Hle & Hl). cbn [label_count file] in Hle, Hl, Hw.
  exists ls. cbn [snd]. rewrite Hw, unlines_app. auto.
Qed.

Lemma main_output_labels (input : list (list string)) :
  let w := snd (MainPy.translate input) in
  1 <= label_count w
  /\ Hack.declared_labels (file w)
     = "RETURN_0"
       :: flat_map comparison_labels (counters 1 (Z.to_nat (label_count w - 1))).
Proof.
  cbv zeta. destruct (main_output_lines input) as (ls & Hw & Hc & Hle & Hl).
  split; [exact Hle|]. rewrite Hw, unlines_app.
  unfold Hack.declared_labels. rewrite lines_unlines.
  - rewrite labels_of_lines_app. fold (Hack.declared_labels (unlines ls)).
    rewrite declared_labels_unlines, Hl by exact Hc. reflexivity.
  - repeat constructor.
Qed.

(** *** How many comparisons a run has translated *)

Lemma is_comparison_arithmetic (c0 : string) :
  is_comparison c0 = true -> py_in c0 arithmetic_words = true.
Proof.
  unfold is_comparison, py_in, arithmetic_words. simpl.
  destruct (String.eqb_spec c0 "eq") as [->|]; [reflexivity|].
  destruct (String.eqb_spec c0 "gt") as [->|]; [reflexivity|].
  destruct (String.eqb_spec c0 "lt") as [->|]; [reflexivity|].
  discriminate.
Qed.

Lemma vmt_dispatch_count (rest : list (list string)) (c : list string)
    (w : CodeWriter) :
  fst (VMTranslatorPy.dispatch (mkParser rest (Some c)) w) = Ok tt ->
  label_count (snd (VMTranslatorPy.dispatch (mkParser rest (Some c)) w))
  = label_count w + (if is_comparison_command c then 1 else 0).
Proof.
  destruct c as [|c0 args]; [discriminate|].
  unfold VMTranslatorPy.dispatch, VMTranslatorPy.arg1, VMTranslatorPy.arg2,
    VMTranslatorPy.commandType, bind, lift. simpl.
  destruct (py_in c0 arithmetic_words) eqn:Ea; simpl.
  - rewrite vmt_writeArithmetic_spec.
    destruct (arithmetic_lines c0 (label_count w)); simpl; [|discriminate].
    intros _. destruct (is_comparison c0); lia.
  - assert (Hc : is_comparison c0 = false).
    { destruct (is_comparison c0) eqn:E; [|reflexivity].
      apply is_comparison_arithmetic in E. congruence. }
    rewrite Hc, Z.add_0_r.
    destruct (String.eqb c0 "push"); simpl.
    { destruct args as [|a1 [|a2 args]]; simpl; try discriminate.
      destruct (int_of a2); simpl; [|discriminate].
      rewrite vmt_writePush_spec.
      destruct (push_lines _ _ _); simpl; [reflexivity | discriminate]. }
    destruct (String.eqb c0 "pop"); simpl; [|discriminate].
    destruct args as [|a1 [|a2 args]]; simpl; try discriminate.
    destruct (int_of a2); simpl; [|discriminate].
    rewrite vmt_writePop_spec.
    destruct (String.eqb a1 "constant"); [discriminate|].
    destruct (pop_lines _ _ _ _); simpl; [reflexivity | discriminate].
Qed.

Lemma main_dispatch_count (rest : list (list string)) (c : list string)
    (w : CodeWriter) :
  fst (MainPy.dispatch (mkParser rest (Some c)) w) = Ok tt ->
  label_count (snd (MainPy.dispatch (mkParser rest (Some c)) w))
  = label_count w + (if is_comparison_command c then 1 else 0).
Proof.
  destruct c as [|c0 args]; [intros _; simpl; lia|].
  unfold MainPy.dispatch, MainPy.arg1, MainPy.arg2,
    MainPy.commandType, bind, lift. simpl.
  fold arithmetic_words.
  destruct (py_in c0 arithmetic_words) eqn:Ea; simpl.
  - rewrite main_writeArithmetic_spec.
    destruct (arithmetic_lines c0 (label_count w)); simpl; [|discriminate].
    intros _. destruct (is_comparison c0); lia.
  - assert (Hc : is_comparison c0 = false).
    { destruct (is_comparison c0) eqn:E; [|reflexivity].
      apply is_comparison_arithmetic in E. congruence. }
    rewrite Hc, Z.add_0_r.
    destruct (String.eqb c0 "push"); simpl.
    { destruct args as [|a1 [|a2 args]]; simpl; try discriminate.
      destruct (int_of a2); simpl; [|discriminate].
      rewrite main_writePush_spec.
      destruct (push_lines _ _ _); simpl; [reflexivity | discriminate]. }
    destruct (String.eqb c0 "pop"); simpl.
    { destruct args as [|a1 [|a2 args]]; simpl; try discriminate.
      destruct (int_of a2); simpl; [|discriminate].
      rewrite main_writePop_spec.
      destruct (pop_lines _ _ _ _); simpl; [reflexivity | discriminate]. }
    repeat match goal with
      | |- context [String.eqb c0 ?k] => destruct (String.eqb c0 k); simpl; try reflexivity
      end.
    all: discriminate.
Qed.

Lemma vmt_loop_count (input : list (list string)) (w : CodeWriter) :
  fst (VMTranslatorPy.translate_loop input w) = Ok tt ->
  label_count (snd (VMTranslatorPy.translate_loop input w))
  = label_count w + Z.of_nat (count_comparisons input).
Proof.
  revert w. induction input as [|c rest IH]; intros w; simpl.
  - intros _. unfold count_comparisons. simpl. lia.
  - unfold bind.
    pose proof (vmt_dispatch_count rest c w) as Hd.
    destruct (VMTranslatorPy.dispatch (mkParser rest (Some c)) w) as [[[]|e] w1];
      simpl in *; [|discriminate].
    intros Hok. rewrite (IH w1 Hok), (Hd eq_refl).
    unfold count_comparisons. simpl.
    destruct (is_comparison_command c); simpl; lia.
Qed.

Lemma main_loop_count (input : list (list string)) (w : CodeWriter) :
  fst (MainPy.translate_loop input w) = Ok tt ->
  label_count (snd (MainPy.translate_loop input w))
  = label_count w + Z.of_nat (count_comparisons input).
Proof.
  revert w. induction input as [|c rest IH]; intros w; simpl.
  - intros _. unfold count_comparisons. simpl. lia.
  - unfold bind.
    pose proof (main_dispatch_count rest c w) as Hd.
    destruct (MainPy.dispatch (mkParser rest (Some c)) w) as [[[]|e] w1];
      simpl in *; [|discriminate].
    intros Hok. rewrite (IH w1 Hok), (Hd eq_refl).
    unfold count_comparisons. simpl.
    destruct (is_comparison_command c); simpl; lia.
Qed.

(** A comparison command is always translated. *)
Lemma comparison_dispatch_ok (rest : list (list string)) (c : list string)
    (w : CodeWriter) :
  is_comparison_command c = true ->
  fst (VMTranslatorPy.dispatch (mkParser rest (Some c)) w) = Ok tt
  /\ fst (MainPy.dispatch (mkParser rest (Some c)) w) = Ok tt.
Proof.
  destruct c as [|c0 args]; [discriminate|]. simpl. intros Hc.
  pose proof (is_comparison_arithmetic _ Hc) as Ha.
  unfold VMTranslatorPy.dispatch, VMTranslatorPy.arg1,
    VMTranslatorPy.commandType, MainPy.dispatch, MainPy.arg1,
    MainPy.commandType, bind, lift. simpl.
  fold arithmetic_words. rewrite Ha. simpl.
  rewrite vmt_writeArithmetic_spec, main_writeArithmetic_spec.
  revert Hc. unfold is_comparison, arithmetic_lines, py_in. simpl.
  by_key c0 ltac:(first [discriminate | intros _; split; reflexivity]).
  discriminate.
Qed.

Lemma comparisons_translate_ok (input : list (list string)) (w : CodeWriter) :
  Forall (fun c => is_comparison_command c = true) input ->
  fst (VMTranslatorPy.translate_loop input w) = Ok tt
  /\ fst (MainPy.translate_loop input w) = Ok tt
  /\ count_comparisons input = List.length input.
Proof.
  intros H.
  assert (Hn : count_comparisons input = List.length input).
  { unfold count_comparisons. induction H as [|c l Hc _ IH]; simpl; [reflexivity|].
    rewrite Hc. simpl. now rewrite IH. }
  split; [|split; [|exact Hn]].
  - clear Hn. revert w. induction H as [|c l Hc _ IH]; intros w; simpl; [reflexivity|].
    unfold bind.
    destruct (comparison_dispatch_ok l c w Hc) as [H1 _].
    destruct (VMTranslatorPy.dispatch (mkParser l (Some c)) w) as [[u|e] w1];
      [apply IH | discriminate H1].
  - clear Hn. revert w. induction H as [|c l Hc _ IH]; intros w; simpl; [reflexivity|].
    unfold bind.
    destruct (comparison_dispatch_ok l c w Hc) as [_ H1].
    destruct (MainPy.dispatch (mkParser l (Some c)) w) as [[u|e] w1];
      [apply IH | discriminate H1].
Qed.

(** C5.  In the output of any run, of either program, the declared
    labels are pairwise distinct.  When the run ends normally on an
    input holding [N] comparison commands (alone or among other
    commands), the labels are exactly the [2N] strings [TRUE_k], [END_k]
    for the [N] successive counter values (after the [RETURN_0] of the
    bootstrap in [src/main.py], whose counter starts at 1); and an
    input made of comparison commands only always ends normally. *)
Theorem C5_comparison_labels_distinct (input : list (list string)) :
  let N := count_comparisons input in
  let rv := VMTranslatorPy.translate input in
  let rm := MainPy.translate input in
  NoDup (Hack.declared_labels (file (snd rv)))
  /\ NoDup (Hack.declared_labels (file (snd rm)))
  /\ (fst rv = Ok tt ->
      Hack.declared_labels (file (snd rv))
      = flat_map comparison_labels (counters 0 N))
  /\ (fst rm = Ok tt ->
      Hack.declared_labels (file (snd rm))
      = "RETURN_0" :: flat_map comparison_labels (counters 1 N))
  /\ List.length (flat_map comparison_labels (counters 0 N)) = (2 * N)%nat
  /\ List.length (flat_map comparison_labels (counters 1 N)) = (2 * N)%nat
  /\ (Forall (fun c => is_comparison_command c = true) input ->
      fst rv = Ok tt /\ fst rm = Ok tt /\ N = List.length input).
Proof.
  cbv zeta.
  destruct (vmt_output_labels input) as [Hv0 Hv].
  destruct (main_output_labels input) as [Hm0 Hm].
  split; [rewrite Hv; apply comparison_labels_nodup|].
  split.
  { rewrite Hm. constructor; [|apply comparison_labels_nodup].
    intros H. apply in_comparison_labels in H.
    destruct H as (k & _ & [H | H]); discriminate H. }
  split.
  { intros Hok. rewrite Hv. unfold VMTranslatorPy.translate in *.
    rewrite (vmt_loop_count _ _ Hok). do 2 f_equal.
    unfold VMTranslatorPy.CodeWriter_init. cbn [label_count]. lia. }
  split.
  { intros Hok. rewrite Hm. unfold MainPy.translate in *.
    rewrite main_init_state in *.
    rewrite (main_loop_count _ _ Hok). cbn [label_count].
    do 3 f_equal. lia. }
  split; [apply comparison_labels_length|].
  split; [apply comparison_labels_length|].
  intros Hall. unfold VMTranslatorPy.translate, MainPy.translate.
  rewrite main_init_state.
  destruct (comparisons_translate_ok input VMTranslatorPy.CodeWriter_init Hall)
    as (H1 & _ & H3).
  match goal with |- context [MainPy.translate_loop input ?w0] =>
    destruct (comparisons_translate_ok input w0 Hall) as (_ & H2 & _) end.
  auto.
Qed.

Lemma C5_comparison_labels_distinct_witness :
  Hack.declared_labels
    (file (snd (VMTranslatorPy.translate [["eq"]; ["lt"]; ["eq"]])))
  = ["TRUE_0"; "END_0"; "TRUE_1"; "END_1"; "TRUE_2"; "END_2"]
  /\ NoDup (Hack.declared_labels
              (file (snd (MainPy.translate [["eq"]; ["lt"]; ["eq"]])))).
Proof.
  destruct (C5_comparison_labels_distinct [["eq"]; ["lt"]; ["eq"]])
    as (_ & H2 & H3 & _ & _ & _ & H7).
  split; [|exact H2].
  rewrite H3; [reflexivity|].
  apply H7. repeat constructor.
Defined.

(** ** The namespace of generated labels *)

(** C8, as the claim states it, fails: the program below declares the
    name [TRUE_1]; [src/main.py] translates it without an error and
    declares a label of its own with the same spelling. *)
Lemma C8_generated_label_equals_user_name :
  let input := [["label"; "TRUE_1"]; ["eq"]] in
  fst (MainPy.translate input) = Ok tt
  /\ In "TRUE_1" (user_declared input)
  /\ In "TRUE_1" (Hack.declared_labels (file (snd (MainPy.translate input)))).
Proof. vm_compute. intuition. Qed.

(** C8, amended.  Every label a run declares is [RETURN_0] or [TRUE_k]
    or [END_k] for a counter value [k >= 0]; each is spelled with the
    characters of an ordinary symbol, so no prefix is reserved for them
    and a name of the program may have the same spelling.  Among
    themselves the labels a run declares are pairwise distinct. *)
Theorem C8_generated_labels_are_plain_symbols
    (input : list (list string)) (l : string) :
  In l (Hack.declared_labels (file (snd (VMTranslatorPy.translate input))))
  \/ In l (Hack.declared_labels (file (snd (MainPy.translate input)))) ->
  Hack.valid_symbol l = true
  /\ (l = "RETURN_0"
      \/ exists k, 0 <= k /\ (l = "TRUE_" ++ py_str k \/ l = "END_" ++ py_str k))
  /\ NoDup (Hack.declared_labels (file (snd (VMTranslatorPy.translate input))))
  /\ NoDup (Hack.declared_labels (file (snd (MainPy.translate input)))).
Proof.
  destruct (vmt_output_labels input) as [_ Hv].
  destruct (main_output_labels input) as [_ Hm].
  rewrite Hv, Hm.
  assert (Hdistinct :
            NoDup (flat_map comparison_labels
                     (counters 0 (Z.to_nat
                        (label_count (snd (VMTranslatorPy.translate input))))))
            /\ NoDup ("RETURN_0"
                      :: flat_map comparison_labels
                           (counters 1 (Z.to_nat
                              (label_count (snd (MainPy.translate input)) - 1))))).
  { split; [apply comparison_labels_nodup|].
    constructor; [|apply comparison_labels_nodup].
    intros H. apply in_comparison_labels in H.
    destruct H as (k & _ & [H | H]); discriminate H. }
  intros Hin.
  cut (Hack.valid_symbol l = true
       /\ (l = "RETURN_0"
           \/ exists k, 0 <= k /\ (l = "TRUE_" ++ py_str k \/ l = "END_" ++ py_str k))).
  { intros [H1 H2]. split; [exact H1|]. split; [exact H2 | exact Hdistinct]. }
  revert Hin. clear Hdistinct.
  assert (Hk : forall n len, 0 <= n ->
             In l (flat_map comparison_labels (counters n len)) ->
             Hack.valid_symbol l = true
             /\ (l = "RETURN_0"
                 \/ exists k, 0 <= k /\ (l = "TRUE_" ++ py_str k \/ l = "END_" ++ py_str k))).
  { intros n len Hn H. apply in_comparison_labels in H.
    destruct H as (k & Hk & Hl).
    assert (H0 : 0 <= k) by lia.
    destruct (comparison_label_symbol k H0) as [Ht He].
    split; [destruct Hl as [-> | ->]; assumption|].
    right. exists k. auto. }
  intros [H | [<- | H]].
  - apply (Hk _ _ (Z.le_refl 0) H).
  - split; [reflexivity | now left].
  - eapply (Hk 1); [lia | exact H].
Qed.

Lemma C8_generated_labels_are_plain_symbols_witness :
  Hack.valid_symbol "END_0" = true.
Proof.
  destruct (C8_generated_labels_are_plain_symbols [["gt"]] "END_0") as [H _].
  - left. vm_compute. auto.
  - exact H.
Defined.

(** ** Reading the emitted text as assembly *)

Lemma uint_of_char_non_digit (c : ascii) (d : option uint) :
  is_digit c = false -> uint_of_char c d = None.
Proof.
  destruct d as [d|]; [|reflexivity].
  destruct c as [[|] [|] [|] [|] [|] [|] [|] [|]]; intros H;
    try reflexivity; discriminate H.
Qed.

Lemma string_of_uint_nonempty (d : uint) :
  d <> Nil -> NilEmpty.string_of_uint d <> EmptyString.
Proof. destruct d; intros H; try discriminate. now destruct H. Qed.

(** A numeral is a constant operand exactly when it fits in 15 bits. *)
Lemma parse_aoperand_num (n : Z) :
  Hack.parse_aoperand (py_str n)
  = if ((0 <=? n) && (n <=? 32767))%bool then Some (Hack.ANum n) else None.
Proof.
  destruct (Z.leb_spec 0 n) as [Hn|Hn]; simpl.
  - destruct (py_str_nonneg n Hn) as (d & Hd & -> & Hv).
    unfold Hack.parse_aoperand, NilZero.uint_of_string.
    pose proof (string_of_uint_nonempty d Hd) as Hne.
    destruct (NilEmpty.string_of_uint d) eqn:E; [now destruct Hne|].
    rewrite <- E, NilEmpty.usu, Hv. reflexivity.
  - destruct (py_str_neg n Hn) as (r & ->).
    unfold Hack.parse_aoperand, NilZero.uint_of_string, NilEmpty.uint_of_string.
    fold NilEmpty.uint_of_string.
    rewrite uint_of_char_non_digit by reflexivity. reflexivity.
Qed.

(** An operand that does not begin with a digit is a symbol or a syntax
    error. *)
Lemma parse_aoperand_sym (c : ascii) (r : string) :
  is_digit c = false ->
  Hack.parse_aoperand (String c r)
  = if Hack.valid_symbol (String c r) then Some (Hack.ASym (String c r)) else None.
Proof.
  intros Hc. unfold Hack.parse_aoperand, NilZero.uint_of_string,
    NilEmpty.uint_of_string. fold NilEmpty.uint_of_string.
  rewrite uint_of_char_non_digit by exact Hc. reflexivity.
Qed.

Lemma parse_lines_app (a b : list string) :
  Hack.parse_lines (a ++ b)%list
  = match Hack.parse_lines a, Hack.parse_lines b with
    | Some x, Some y => Some (x ++ y)%list
    | _, _ => None
    end.
Proof.
  induction a as [|l a IH]; simpl.
  - destruct (Hack.parse_lines b); reflexivity.
  - rewrite IH. destruct (Hack.parse_line l) as [[i|]|];
      destruct (Hack.parse_lines a), (Hack.parse_lines b); reflexivity.
Qed.

Lemma parse_asm_unlines (ls : list string) :
  Forall (fun l => clean l = true) ls ->
  Hack.parse_asm (unlines ls) = Hack.parse_lines ls.
Proof.
  intros H. unfold Hack.parse_asm.
  rewrite <- (append_nil_r (unlines ls)), lines_unlines.
  - rewrite parse_lines_app. simpl.
    destruct (Hack.parse_lines ls); [now rewrite List.app_nil_r | reflexivity].
  - eapply Forall_impl; [|exact H]. intros l. apply clean_no_lf.
Qed.

(** ** Stepping the machine *)

Lemma wrap_small (z : Z) : 0 <= z < 65536 -> Hack.wrap z = z.
Proof. intros H. unfold Hack.wrap. now apply Z.mod_small. Qed.

Lemma wrap_range (z : Z) : 0 <= Hack.wrap z < 65536.
Proof. unfold Hack.wrap. apply Z.mod_pos_bound. lia. Qed.

Lemma upd_same (f : Z -> Z) (a v : Z) : Hack.upd f a v a = v.
Proof. unfold Hack.upd. now rewrite Z.eqb_refl. Qed.

Lemma upd_other (f : Z -> Z) (a v x : Z) : x <> a -> Hack.upd f a v x = f x.
Proof. intros H. unfold Hack.upd. apply Z.eqb_neq in H. now rewrite H. Qed.

Lemma fetch_code (pre code post : list Hack.instr) (base k : Z) (i : Hack.instr) :
  base = Z.of_nat (List.length pre) ->
  0 <= k ->
  nth_error code (Z.to_nat k) = Some i ->
  Hack.fetch (pre ++ code ++ post) (base + k) = Some i.
Proof.
  intros -> Hk Hi. unfold Hack.fetch.
  destruct (Z.ltb_spec (Z.of_nat (List.length pre) + k) 0) as [H|_]; [lia|].
  replace (Z.to_nat (Z.of_nat (List.length pre) + k))
    with (List.length pre + Z.to_nat k)%nat by lia.
  rewrite nth_error_app2 by lia.
  replace (List.length pre + Z.to_nat k - List.length pre)%nat
    with (Z.to_nat k) by lia.
  rewrite nth_error_app1; [exact Hi|].
  apply nth_error_Some. congruence.
Qed.

Lemma runs_to_step (rom : list Hack.instr) (m : Hack.machine) (i : Hack.instr)
    (Q : Hack.machine -> Prop) :
  Hack.fetch rom (Hack.pc m) = Some i ->
  runs_to rom (Hack.exec i m) Q ->
  runs_to rom m Q.
Proof.
  intros Hf (n & m' & Hr & HQ). exists (S n), m'. split; [|exact HQ].
  simpl. unfold Hack.step. rewrite Hf. exact Hr.
Qed.

Lemma runs_to_done (rom : list Hack.instr) (m : Hack.machine)
    (Q : Hack.machine -> Prop) :
  Q m -> runs_to rom m Q.
Proof. intros H. exists O, m. split; [reflexivity | exact H]. Qed.

Lemma upd_eq (f : Z -> Z) (a v x : Z) : x = a -> Hack.upd f a v x = v.
Proof. intros ->. apply upd_same. Qed.

Lemma parse_line_at_num (n : Z) :
  Hack.parse_line (String "@" (py_str n))
  = if ((0 <=? n) && (n <=? 32767))%bool
    then Some (Some (Hack.IA (Hack.ANum n))) else None.
Proof.
  cbn [Hack.parse_line]. rewrite parse_aoperand_num.
  destruct ((0 <=? n) && (n <=? 32767))%bool; reflexivity.
Qed.

Lemma parse_line_at (o : string) (a : Hack.aoperand) :
  Hack.parse_aoperand o = Some a ->
  Hack.parse_line (String "@" o) = Some (Some (Hack.IA a)).
Proof. intros H. cbn [Hack.parse_line]. now rewrite H. Qed.

Lemma parse_line_label (name : string) :
  Hack.parse_line (String "(" (name ++ ")"))
  = if Hack.valid_symbol name then Some (Some (Hack.ILabel name)) else None.
Proof. cbn [Hack.parse_line]. now rewrite strip_close_app. Qed.

Lemma parse_line_at_prefixed (c : ascii) (p : string) (n : Z) :
  is_digit c = false ->
  Hack.parse_line (String "@" (String c p ++ py_str n))
  = if Hack.valid_symbol (String c p ++ py_str n)
    then Some (Some (Hack.IA (Hack.ASym (String c p ++ py_str n)))) else None.
Proof.
  intros Hc. cbn [Hack.parse_line].
  change (String c p ++ py_str n) with (String c (p ++ py_str n)).
  rewrite (parse_aoperand_sym c _ Hc).
  destruct (Hack.valid_symbol _); reflexivity.
Qed.

#[local] Arguments Hack.upd : simpl never.
#[local] Arguments Hack.wrap : simpl never.

Ltac eval_effect :=
  match goal with
  | |- context [stack_effect ?c] =>
      let v := eval vm_compute in (stack_effect c) in
      change (stack_effect c) with v
  end.

(** Split on the outcome of a conditional jump. *)
Ltac jump_cases :=
  match goal with
  | |- context [Z.eqb (Hack.signed ?x) 0] => destruct (Z.eqb (Hack.signed x) 0)
  | |- context [Z.ltb 0 (Hack.signed ?x)] => destruct (Z.ltb 0 (Hack.signed x))
  | |- context [Z.ltb (Hack.signed ?x) 0] => destruct (Z.ltb (Hack.signed x) 0)
  end.

Lemma parse_line_at_inv (o : string) (oi : option Hack.item) :
  Hack.parse_line (String "@" o) = Some oi ->
  exists a, Hack.parse_aoperand o = Some a /\ oi = Some (Hack.IA a).
Proof.
  cbn [Hack.parse_line]. destruct (Hack.parse_aoperand o) as [a|]; [|discriminate].
  intros [= <-]. eauto.
Qed.

Lemma parse_lines_cons_inv (l : string) (ls : list string)
    (items : list Hack.item) :
  Hack.parse_lines (l :: ls) = Some items ->
  exists oi r,
    Hack.parse_line l = Some oi
    /\ Hack.parse_lines ls = Some r
    /\ items = match oi with Some i => i :: r | None => r end.
Proof.
  cbn [Hack.parse_lines].
  destruct (Hack.parse_line l) as [[i|]|]; [| |discriminate];
    (destruct (Hack.parse_lines ls) as [r|]; [|discriminate]);
    intros [= <-]; eauto.
Qed.

(** Read one line: a line with a numeral or a counter in it by the
    lemmas above, a line without variable by evaluation. *)
Ltac parse_one Hl :=
  first
    [ rewrite parse_line_at_num in Hl;
      match type of Hl with
      | (if ?c then _ else _) = _ =>
          let Hr := fresh "Hrange" in
          destruct c eqn:Hr; [injection Hl as <- | discriminate Hl]
      end
    | rewrite parse_line_at_prefixed in Hl by reflexivity;
      match type of Hl with
      | (if ?c then _ else _) = _ =>
          destruct c; [injection Hl as <- | discriminate Hl]
      end
    | rewrite parse_line_label in Hl;
      match type of Hl with
      | (if ?c then _ else _) = _ =>
          destruct c; [injection Hl as <- | discriminate Hl]
      end
    | match goal with
      | Ho : Hack.parse_aoperand ?o = Some _ |- _ =>
          rewrite (parse_line_at _ _ Ho) in Hl; injection Hl as <-
      end
    | vm_compute in Hl; injection Hl as <-
    | let a := fresh "operand" in
      let Ho := fresh "Hoperand" in
      apply parse_line_at_inv in Hl; destruct Hl as (a & Ho & ->) ].

(** Read a whole fragment, line by line. *)
Ltac parse_inv Hp :=
  cbn [List.app] in Hp;
  repeat (let Hl := fresh "Hline" in
          apply parse_lines_cons_inv in Hp;
          destruct Hp as (? & ? & Hl & Hp & ->);
          parse_one Hl);
  injection Hp as <-;
  cbv beta iota.

Ltac range_facts H :=
  apply andb_prop in H;
  let H1 := fresh H in let H2 := fresh H in
  destruct H as [H1 H2]; apply Z.leb_le in H1, H2.

Ltac fetch_tac HB :=
  cbn [Hack.pc];
  match goal with
  | |- Hack.fetch _ (?b + ?k) = _ =>
      apply (fetch_code _ _ _ b k _ HB); [lia | reflexivity]
  end.

Ltac solve_range :=
  first [ lia
        | match goal with H : forall a, 0 <= ?r a < 65536 |- _ => apply H end
        | apply wrap_range ].

(** Bitwise results stay wrapped: their range is of no use here. *)
Ltac no_bitwise z :=
  lazymatch z with
  | context [Z.land] => fail
  | context [Z.lor] => fail
  | context [Z.lnot] => fail
  | _ => idtac
  end.

Ltac simp_state :=
  repeat match goal with
    | |- context [Hack.upd ?f ?a ?v ?x] =>
        first [ rewrite (upd_other f a v x) by lia
              | rewrite (upd_eq f a v x) by lia ]
    | |- context [Hack.wrap ?z] =>
        no_bitwise z; rewrite (wrap_small z) by solve_range
    end.

(** One instruction: fetch it, execute it, simplify the new state. *)
Ltac hstep HB :=
  eapply runs_to_step; [fetch_tac HB|];
  unfold Hack.exec, Hack.comp_val;
  cbn [Hack.read Hack.read_src Hack.regA Hack.regD Hack.pc Hack.ram
       Hack.toA Hack.toD Hack.toM Hack.jump_taken];
  simp_state;
  repeat match goal with
    | |- context [?b + ?k + 1] =>
        lazymatch k with Z0 => idtac | Zpos _ => idtac end;
        let k' := eval vm_compute in (k + 1) in
        replace (b + k + 1) with (b + k') by lia
    end.

Ltac hdone :=
  apply runs_to_done; cbn [Hack.pc Hack.ram List.length]; split; [lia|].

(** ** What the fragments do *)

Section Fragments.

Variable sigma : Hack.symtab.
Variables pre post : list Hack.instr.
Variable B : Z.
Hypothesis Hs : symtab_ok sigma.
Hypothesis HB : B = Z.of_nat (List.length pre).

Local Abbreviation placed items := (pre ++ Hack.resolve sigma items ++ post)%list.
Local Abbreviation size items := (Z.of_nat (List.length (Hack.resolve sigma items))).

Ltac sym_all :=
  repeat match goal with
    | |- context [sigma ?s] => rewrite (Hs s _ eq_refl)
    end.

Ltac hsetup m :=
  cbn [Hack.resolve Hack.resolve_operand]; unfold via_address; sym_all;
  destruct m as [a0 d0 p0 r];
  unfold word_ram, stack_ok in *;
  cbn [Hack.pc Hack.ram] in *; subst p0;
  replace (Hack.mkMachine a0 d0 B r) with (Hack.mkMachine a0 d0 (B + 0) r)
    by (f_equal; lia).

Lemma push_constant_run (index : Z) (items : list Hack.item) (m : Hack.machine) :
  Hack.parse_lines (push_constant_lines index) = Some items ->
  word_ram m -> stack_ok m -> Hack.pc m = B ->
  runs_to (placed items) m
    (fun m' => Hack.pc m' = B + size items
               /\ Hack.ram m'
                  = Hack.upd (Hack.upd (Hack.ram m) (Hack.ram m 0) index)
                      0 (Hack.ram m 0 + 1)).
Proof.
  intros Hp Hw Hst Hpc.
  unfold push_constant_lines, push_tail in Hp. parse_inv Hp. range_facts Hrange.
  hsetup m. do 7 hstep HB. hdone. reflexivity.
Qed.

Lemma push_via_run (segment b : string) (index : Z) (items : list Hack.item)
    (m : Hack.machine) :
  base_register segment = Some b ->
  Hack.parse_lines (push_via_lines b index) = Some items ->
  word_ram m -> stack_ok m -> Hack.pc m = B ->
  runs_to (placed items) m
    (fun m' => Hack.pc m' = B + size items
               /\ Hack.ram m'
                  = Hack.upd (Hack.upd (Hack.ram m) (Hack.ram m 0)
                                (Hack.ram m (via_address sigma m b index)))
                      0 (Hack.ram m 0 + 1)).
Proof.
  unfold base_register.
  by_key_only segment ltac:(
    intros [= <-] Hp Hw Hst Hpc;
    unfold push_via_lines, push_tail in Hp; parse_inv Hp; range_facts Hrange;
    hsetup m; do 10 hstep HB; hdone; reflexivity).
  discriminate.
Qed.

Lemma push_direct_run (o : string) (items : list Hack.item) (m : Hack.machine) :
  Hack.parse_lines (push_direct_lines o) = Some items ->
  word_ram m -> stack_ok m -> Hack.pc m = B ->
  exists a,
    Hack.parse_aoperand o = Some a
    /\ runs_to (placed items) m
         (fun m' => Hack.pc m' = B + size items
                    /\ Hack.ram m'
                       = Hack.upd (Hack.upd (Hack.ram m) (Hack.ram m 0)
                                     (Hack.ram m (Hack.resolve_operand sigma a)))
                           0 (Hack.ram m 0 + 1)).
Proof.
  intros Hp Hw Hst Hpc.
  unfold push_direct_lines, push_tail in Hp. parse_inv Hp.
  exists operand. split; [assumption|].
  cbn [Hack.resolve]. generalize (Hack.resolve_operand sigma operand). intros t.
  cbn [Hack.resolve_operand]. sym_all.
  destruct m as [a0 d0 p0 r]. unfold word_ram, stack_ok in *.
  cbn [Hack.pc Hack.ram] in *. subst p0.
  replace (Hack.mkMachine a0 d0 B r) with (Hack.mkMachine a0 d0 (B + 0) r)
    by (f_equal; lia).
  do 7 hstep HB. hdone. reflexivity.
Qed.

Lemma pop_direct_run (o : string) (items : list Hack.item) (m : Hack.machine) :
  Hack.parse_lines (pop_direct_lines o) = Some items ->
  word_ram m -> stack_ok m -> Hack.pc m = B ->
  exists a,
    Hack.parse_aoperand o = Some a
    /\ runs_to (placed items) m
         (fun m' => Hack.pc m' = B + size items
                    /\ Hack.ram m'
                       = Hack.upd (Hack.upd (Hack.ram m) 0 (Hack.ram m 0 - 1))
                           (Hack.resolve_operand sigma a)
                           (Hack.ram m (Hack.ram m 0 - 1))).
Proof.
  intros Hp Hw Hst Hpc.
  unfold pop_direct_lines in Hp. parse_inv Hp.
  exists operand. split; [assumption|].
  cbn [Hack.resolve]. generalize (Hack.resolve_operand sigma operand). intros t.
  cbn [Hack.resolve_operand]. sym_all.
  destruct m as [a0 d0 p0 r]. unfold word_ram, stack_ok in *.
  cbn [Hack.pc Hack.ram] in *. subst p0.
  replace (Hack.mkMachine a0 d0 B r) with (Hack.mkMachine a0 d0 (B + 0) r)
    by (f_equal; lia).
  do 5 hstep HB. hdone. reflexivity.
Qed.

Lemma vmt_pop_via_run (segment b : string) (index : Z) (items : list Hack.item)
    (m : Hack.machine) :
  base_register segment = Some b ->
  Hack.parse_lines (vmt_pop_via_lines b index) = Some items ->
  word_ram m -> stack_ok m -> Hack.pc m = B ->
  runs_to (placed items) m
    (fun m' => Hack.pc m' = B + size items
               /\ Hack.ram m'
                  = Hack.upd
                      (Hack.upd
                         (Hack.upd (Hack.ram m) 13 (via_address sigma m b index))
                         0 (Hack.ram m 0 - 1))
                      (via_address sigma m b index)
                      (Hack.ram m (Hack.ram m 0 - 1))).
Proof.
  unfold base_register.
  by_key_only segment ltac:(
    intros [= <-] Hp Hw Hst Hpc;
    unfold vmt_pop_via_lines, pop_tail in Hp; parse_inv Hp; range_facts Hrange;
    hsetup m; do 12 hstep HB; hdone;
    rewrite (Z.add_comm index); reflexivity).
  discriminate.
Qed.

Lemma main_pop_via_run (segment b : string) (index : Z) (items : list Hack.item)
    (m : Hack.machine) :
  base_register segment = Some b ->
  Hack.parse_lines (main_pop_via_lines b index) = Some items ->
  word_ram m -> stack_ok m -> Hack.pc m = B ->
  runs_to (placed items) m
    (fun m' => Hack.pc m' = B + size items
               /\ Hack.ram m'
                  = Hack.upd
                      (Hack.upd
                         (Hack.upd (Hack.ram m) 13 (via_address sigma m b index))
                         0 (Hack.ram m 0 - 1))
                      (via_address sigma m b index)
                      (Hack.ram m (Hack.ram m 0 - 1))).
Proof.
  unfold base_register.
  by_key_only segment ltac:(
    intros [= <-] Hp Hw Hst Hpc;
    unfold main_pop_via_lines, pop_tail in Hp; parse_inv Hp; range_facts Hrange;
    hsetup m; do 12 hstep HB; hdone; reflexivity).
  discriminate.
Qed.

Ltac label_address Hl l k :=
  assert (sigma l = B + k)
    by (eapply eq_trans;
        [ eapply Hl; cbn [Hack.label_pass];
          first [ left; reflexivity | right; left; reflexivity ]
        | lia ]).

Ltac use_labels :=
  cbn [append] in *;
  repeat match goal with H : sigma _ = _ |- _ => rewrite H; clear H end.

Ltac binary_case m :=
  intros [= <-] Hp Hl Hw Hst Hpc; eval_effect;
  unfold binary_lines in Hp; parse_inv Hp;
  hsetup m; do 5 hstep HB; hdone; simp_state; lia.

Ltac unary_case m :=
  intros [= <-] Hp Hl Hw Hst Hpc; eval_effect;
  unfold unary_lines in Hp; parse_inv Hp;
  hsetup m; do 3 hstep HB; hdone; simp_state; lia.

Ltac comparison_case m n :=
  intros [= <-] Hp Hl Hw Hst Hpc; eval_effect;
  unfold comparison_lines in Hp; parse_inv Hp;
  unfold labels_at in Hl;
  label_address Hl ("TRUE_" ++ py_str n) 12;
  label_address Hl ("END_" ++ py_str n) 15;
  clear Hl;
  cbn [Hack.resolve Hack.resolve_operand];
  use_labels;
  hsetup m; do 7 hstep HB; jump_cases;
  [ do 3 hstep HB | do 5 hstep HB ]; hdone; simp_state; lia.

(** Every arithmetic fragment runs to its end and moves the stack
    pointer by the effect of its command. *)
Lemma arithmetic_run (command : string) (n : Z) (ls : list string)
    (items : list Hack.item) (m : Hack.machine) :
  arithmetic_lines command n = Some ls ->
  Hack.parse_lines ls = Some items ->
  labels_at sigma B items ->
  word_ram m -> stack_ok m -> Hack.pc m = B ->
  runs_to (placed items) m
    (fun m' => Hack.pc m' = B + size items
               /\ Hack.ram m' 0 = Hack.ram m 0 + stack_effect (Arithmetic command)).
Proof.
  unfold arithmetic_lines.
  destruct (String.eqb_spec command "add") as [->|?]; [binary_case m|].
  destruct (String.eqb_spec command "sub") as [->|?]; [binary_case m|].
  destruct (String.eqb_spec command "and") as [->|?]; [binary_case m|].
  destruct (String.eqb_spec command "or") as [->|?]; [binary_case m|].
  destruct (String.eqb_spec command "neg") as [->|?]; [unary_case m|].
  destruct (String.eqb_spec command "not") as [->|?]; [unary_case m|].
  destruct (String.eqb_spec command "eq") as [->|?]; [comparison_case m n|].
  destruct (String.eqb_spec command "gt") as [->|?]; [comparison_case m n|].
  destruct (String.eqb_spec command "lt") as [->|?]; [comparison_case m n|].
  discriminate.
Qed.

(** The call fragment: five cells pushed, [ARG] and [LCL] set, then the
    jump.  The fragment has 49 instructions, the jump is the last. *)
Lemma call_run (function_name : string) (num_args n : Z)
    (items : list Hack.item) (m : Hack.machine) :
  Hack.parse_lines (call_lines function_name num_args n) = Some items ->
  labels_at sigma B items ->
  word_ram m -> stack_ok m -> Hack.pc m = B ->
  exists callee,
    Hack.parse_aoperand function_name = Some callee
    /\ size items = 49
    /\ sigma ("RETURN_" ++ py_str n) = B + 49
    /\ runs_to (placed items) m
         (fun m' =>
            let sp := Hack.ram m 0 in
            Hack.pc m' = Hack.resolve_operand sigma callee
            /\ Hack.ram m' sp = Hack.wrap (B + 49)
            /\ Hack.ram m' (sp + 1) = Hack.ram m 1
            /\ Hack.ram m' (sp + 2) = Hack.ram m 2
            /\ Hack.ram m' (sp + 3) = Hack.ram m 3
            /\ Hack.ram m' (sp + 4) = Hack.ram m 4
            /\ Hack.ram m' 0 = sp + 5
            /\ Hack.ram m' 2 = Hack.wrap (sp + 5 - (num_args + 5))
            /\ Hack.ram m' 1 = sp + 5
            /\ (forall x, x <> 0 -> x <> 1 -> x <> 2 ->
                          x < sp \/ sp + 5 <= x ->
                          Hack.ram m' x = Hack.ram m x)).
Proof.
  intros Hp Hl Hw Hst Hpc.
  unfold call_lines in Hp. parse_inv Hp. range_facts Hrange.
  exists operand. split; [assumption|]. split; [reflexivity|].
  unfold labels_at in Hl.
  label_address Hl ("RETURN_" ++ py_str n) 49.
  split; [assumption|]. clear Hl.
  cbn [Hack.resolve]. generalize (Hack.resolve_operand sigma operand). intros t.
  cbn [Hack.resolve_operand]. use_labels. sym_all.
  destruct m as [a0 d0 p0 r]. unfold word_ram, stack_ok in *.
  cbn [Hack.pc Hack.ram] in *. subst p0.
  replace (Hack.mkMachine a0 d0 B r) with (Hack.mkMachine a0 d0 (B + 0) r)
    by (f_equal; lia).
  do 49 hstep HB.
  apply runs_to_done. cbn [Hack.pc Hack.ram]. cbv zeta.
  repeat split; simp_state; try reflexivity; try lia; try (f_equal; lia).
  intros x Hx0 Hx1 Hx2 Hx. simp_state. reflexivity.
Qed.

End Fragments.

Lemma runs_to_impl (rom : list Hack.instr) (m : Hack.machine)
    (Q Q' : Hack.machine -> Prop) :
  (forall m', Q m' -> Q' m') -> runs_to rom m Q -> runs_to rom m Q'.
Proof. intros H (n & m' & Hr & HQ). exists n, m'. auto. Qed.

(** ** Push and pop, for either program *)

Section Programs.

Variable direct : string -> Z -> option string.
Variable via : string -> Z -> list string.
Variable addr : Hack.symtab -> Hack.machine -> string -> Z -> option Z.

Hypothesis addr_via : forall sigma m segment b index,
  base_register segment = Some b ->
  addr sigma m segment index = Some (via_address sigma m b index).
Hypothesis addr_direct : forall sigma m segment index o a,
  base_register segment = None ->
  direct segment index = Some o ->
  Hack.parse_aoperand o = Some a ->
  addr sigma m segment index = Some (Hack.resolve_operand sigma a).
Hypothesis addr_constant : forall sigma m index,
  addr sigma m "constant" index = None.
Hypothesis via_run : forall sigma pre post B,
  symtab_ok sigma -> B = Z.of_nat (List.length pre) ->
  forall segment b index items m,
  base_register segment = Some b ->
  Hack.parse_lines (via b index) = Some items ->
  word_ram m -> stack_ok m -> Hack.pc m = B ->
  runs_to (pre ++ Hack.resolve sigma items ++ post) m
    (fun m' => Hack.pc m' = B + Z.of_nat (List.length (Hack.resolve sigma items))
               /\ Hack.ram m'
                  = Hack.upd
                      (Hack.upd
                         (Hack.upd (Hack.ram m) 13 (via_address sigma m b index))
                         0 (Hack.ram m 0 - 1))
                      (via_address sigma m b index)
                      (Hack.ram m (Hack.ram m 0 - 1))).

Variable sigma : Hack.symtab.
Variables pre post : list Hack.instr.
Hypothesis Hs : symtab_ok sigma.

Local Abbreviation B := (Z.of_nat (List.length pre)).
Local Abbreviation placed items := (pre ++ Hack.resolve sigma items ++ post)%list.
Local Abbreviation size items := (Z.of_nat (List.length (Hack.resolve sigma items))).

(** A push runs to its end, moves the stack pointer up by one and
    leaves on top the value of the cell the segment and index denote
    (the index itself for the constant segment). *)
Lemma push_run (segment : string) (index : Z) (ls : list string)
    (items : list Hack.item) (m : Hack.machine) :
  push_lines direct segment index = Some ls ->
  Hack.parse_lines ls = Some items ->
  word_ram m -> stack_ok m -> Hack.pc m = B ->
  runs_to (placed items) m
    (fun m' => Hack.pc m' = B + size items
               /\ Hack.ram m' 0 = Hack.ram m 0 + 1
               /\ Hack.ram m' (Hack.ram m 0)
                  = match addr sigma m segment index with
                    | Some t => Hack.ram m t
                    | None => index
                    end).
Proof.
  intros Hls Hp Hw Hst Hpc. unfold push_lines in Hls.
  assert (Hsp : Hack.ram m 0 <> 0) by (unfold stack_ok in Hst; lia).
  destruct (String.eqb_spec segment "constant") as [->|Hc].
  { injection Hls as <-. rewrite addr_constant.
    eapply runs_to_impl;
      [|apply (push_constant_run sigma pre post B Hs eq_refl index items m);
        assumption].
    intros m' (H1 & H2). rewrite H2. split; [exact H1|].
    rewrite upd_same, upd_other, upd_same by auto. auto. }
  destruct (base_register segment) as [b|] eqn:Eb.
  { injection Hls as <-. rewrite (addr_via sigma m _ _ index Eb).
    eapply runs_to_impl;
      [|apply (push_via_run sigma pre post B Hs eq_refl segment b index items m);
        assumption].
    intros m' (H1 & H2). rewrite H2. split; [exact H1|].
    rewrite upd_same, upd_other, upd_same by auto. auto. }
  destruct (direct segment index) as [o|] eqn:Eo; [|discriminate].
  injection Hls as <-.
  destruct (push_direct_run sigma pre post B Hs eq_refl o items m Hp Hw Hst Hpc)
    as (a & Ha & Hrun).
  rewrite (addr_direct sigma m _ _ _ _ Eb Eo Ha).
  eapply runs_to_impl; [|exact Hrun].
  intros m' (H1 & H2). rewrite H2. split; [exact H1|].
  rewrite upd_same, upd_other, upd_same by auto. auto.
Qed.

(** A pop runs to its end and stores the former top of the stack in
    the cell the segment and index denote; unless that cell is the
    stack pointer itself, the stack pointer moves down by one. *)
Lemma pop_run (segment : string) (index : Z) (ls : list string)
    (items : list Hack.item) (m : Hack.machine) :
  pop_lines via direct segment index = Some ls ->
  Hack.parse_lines ls = Some items ->
  word_ram m -> stack_ok m -> Hack.pc m = B ->
  exists t,
    addr sigma m segment index = Some t
    /\ runs_to (placed items) m
         (fun m' => Hack.pc m' = B + size items
                    /\ Hack.ram m' t = Hack.ram m (Hack.ram m 0 - 1)
                    /\ (t <> 0 -> Hack.ram m' 0 = Hack.ram m 0 - 1)).
Proof.
  intros Hls Hp Hw Hst Hpc. unfold pop_lines in Hls.
  destruct (base_register segment) as [b|] eqn:Eb.
  { injection Hls as <-. exists (via_address sigma m b index).
    split; [now apply addr_via|].
    eapply runs_to_impl;
      [|apply (via_run sigma pre post B Hs eq_refl segment b index items m);
        assumption].
    intros m' (H1 & H2). rewrite H2. split; [exact H1|].
    split; [apply upd_same|]. intros Ht.
    rewrite upd_other, upd_same by auto. reflexivity. }
  destruct (direct segment index) as [o|] eqn:Eo; [|discriminate].
  injection Hls as <-.
  destruct (pop_direct_run sigma pre post B Hs eq_refl o items m Hp Hw Hst Hpc)
    as (a & Ha & Hrun).
  exists (Hack.resolve_operand sigma a).
  split; [now apply (addr_direct sigma m _ _ o)|].
  eapply runs_to_impl; [|exact Hrun].
  intros m' (H1 & H2). rewrite H2. split; [exact H1|].
  split; [apply upd_same|]. intros Ht.
  rewrite upd_other, upd_same by auto. reflexivity.
Qed.

End Programs.

(** *** The cells of the two programs *)

Lemma vmt_addr_via (sigma : Hack.symtab) (m : Hack.machine)
    (segment b : string) (index : Z) :
  base_register segment = Some b ->
  vmt_address sigma m segment index = Some (via_address sigma m b index).
Proof. intros H. unfold vmt_address. now rewrite H. Qed.

Lemma main_addr_via (sigma : Hack.symtab) (m : Hack.machine)
    (segment b : string) (index : Z) :
  base_register segment = Some b ->
  main_address sigma m segment index = Some (via_address sigma m b index).
Proof. intros H. unfold main_address. now rewrite H. Qed.

Ltac numeral_operand H :=
  rewrite parse_aoperand_num in H;
  match type of H with
  | (if ?c then _ else _) = _ => destruct c; [|discriminate H]
  end;
  injection H as <-; reflexivity.

Lemma vmt_addr_direct (sigma : Hack.symtab) (m : Hack.machine)
    (segment : string) (index : Z) (o : string) (a : Hack.aoperand) :
  base_register segment = None ->
  vmt_direct_operand segment index = Some o ->
  Hack.parse_aoperand o = Some a ->
  vmt_address sigma m segment index = Some (Hack.resolve_operand sigma a).
Proof.
  intros Hb. unfold vmt_address, vmt_direct_operand. rewrite Hb.
  destruct (String.eqb segment "temp").
  { intros [= <-] H. numeral_operand H. }
  destruct (String.eqb segment "pointer").
  { intros [= <-] H. destruct (index =? 0); vm_compute in H;
      injection H as <-; reflexivity. }
  destruct (String.eqb segment "static"); [|discriminate].
  intros [= <-] H.
  change ("Static." ++ py_str index) with (String "S" ("tatic." ++ py_str index)) in H.
  rewrite parse_aoperand_sym in H by reflexivity.
  destruct (Hack.valid_symbol _); [|discriminate H].
  injection H as <-. reflexivity.
Qed.

Lemma main_addr_direct (sigma : Hack.symtab) (m : Hack.machine)
    (segment : string) (index : Z) (o : string) (a : Hack.aoperand) :
  base_register segment = None ->
  main_direct_operand segment index = Some o ->
  Hack.parse_aoperand o = Some a ->
  main_address sigma m segment index = Some (Hack.resolve_operand sigma a).
Proof.
  intros Hb. unfold main_address, main_direct_operand. rewrite Hb.
  destruct (String.eqb segment "temp").
  { intros [= <-] H. numeral_operand H. }
  destruct (String.eqb segment "pointer").
  { intros [= <-] H. numeral_operand H. }
  destruct (String.eqb segment "static"); [|discriminate].
  intros [= <-] H. numeral_operand H.
Qed.

(** What a call of a generator writes, as lines. *)
Lemma emitted_lines (p : program) (c : vm_command) (n : Z) (text : string) :
  emitted (perform p c) n = Some text ->
  exists ls,
    text = unlines ls
    /\ Forall (fun l => clean l = true) ls
    /\ match c with
       | Arithmetic command => arithmetic_lines command n = Some ls
       | Push segment index =>
           push_lines match p with
                      | VMTranslator_py => vmt_direct_operand
                      | Main_py => main_direct_operand
                      end segment index = Some ls
       | Pop segment index =>
           pop_lines match p with
                     | VMTranslator_py => vmt_pop_via_lines
                     | Main_py => main_pop_via_lines
                     end
                     match p with
                     | VMTranslator_py => vmt_direct_operand
                     | Main_py => main_direct_operand
                     end segment index = Some ls
       end.
Proof.
  unfold emitted.
  destruct p, c as [command | segment index | segment index];
    cbn [perform vmt_perform main_perform];
    rewrite ?vmt_writeArithmetic_spec, ?vmt_writePush_spec, ?vmt_writePop_spec,
      ?main_writeArithmetic_spec, ?main_writePush_spec, ?main_writePop_spec;
    cbn [file label_count];
    try (destruct (String.eqb segment "constant"); [discriminate|]);
    match goal with
    | |- match match ?x with _ => _ end with _ => _ end = _ -> _ =>
        destruct x as [ls|] eqn:E; [|discriminate]
    end;
    intros [= <-]; exists ls; (split; [reflexivity|]); (split; [|reflexivity]).
  - apply (arithmetic_lines_facts _ _ _ E).
  - apply (push_lines_facts _ vmt_direct_clean _ _ _ E).
  - apply (pop_lines_facts _ _ vmt_direct_clean vmt_via_clean _ _ _ E).
  - apply (arithmetic_lines_facts _ _ _ E).
  - apply (push_lines_facts _ main_direct_clean _ _ _ E).
  - apply (pop_lines_facts _ _ main_direct_clean main_via_clean _ _ _ E).
Qed.

(** The real assembler keeps the predefined symbols, as long as no
    label of the text has the name of one. *)
Lemma dict_get_label_pass (items : list Hack.item) (a : Z) (t : dict Z) (s : string) :
  (forall l, In (Hack.ILabel l) items -> l <> s) ->
  dict_get (Hack.label_pass items a t) s = dict_get t s.
Proof.
  revert a t. induction items as [|i items IH]; intros a t H; simpl; [reflexivity|].
  destruct i as [o|d c j|l].
  - apply IH. intros l Hl. apply H. now right.
  - apply IH. intros l Hl. apply H. now right.
  - rewrite IH by (intros l' Hl'; apply H; now right).
    simpl. destruct (String.eqb_spec s l) as [->|]; [|reflexivity].
    exfalso. apply (H l); [now left | reflexivity].
Qed.

Lemma dict_get_var_pass (items : list Hack.item) (n : Z) (t : dict Z)
    (s : string) (v : Z) :
  dict_get t s = Some v ->
  dict_get (Hack.var_pass items n t) s = Some v.
Proof.
  revert n t. induction items as [|i items IH]; intros n t H; simpl; [exact H|].
  destruct i as [[k|x]|d c j|l]; try (now apply IH).
  unfold dict_mem. destruct (dict_get t x) eqn:E; [now apply IH|].
  apply IH. simpl. destruct (String.eqb_spec s x) as [->|]; [congruence | exact H].
Qed.

Lemma assembler_symtab_ok (items : list Hack.item) :
  (forall l, In (Hack.ILabel l) items -> dict_get Hack.predefined l = None) ->
  symtab_ok (Hack.lookup (Hack.symbol_table items)).
Proof.
  intros H s v Hv. unfold Hack.lookup, Hack.symbol_table.
  rewrite (dict_get_var_pass _ _ _ s v); [reflexivity|].
  rewrite dict_get_label_pass; [exact Hv|].
  intros l Hl ->. rewrite (H _ Hl) in Hv. discriminate.
Qed.

(** ** Stack depth *)

(** C4, as the claim states it, fails for a pop whose target is the
    stack pointer itself.  Both programs accept [pop temp -5] and write
    [@0] for its target, the cell of the stack pointer; the assembler
    accepts the text.  Run on a machine whose memory holds words, with
    the stack pointer at 300, the five instructions leave the popped
    value, 5083, in the stack pointer, not 299. *)
Lemma C4_pop_onto_the_stack_pointer :
  let m := demo_machine 300 in
  let c := Pop "temp" (-5) in
  let run p :=
    match Hack.assemble (demo_text p c 0) with
    | Some rom =>
        match Hack.run 5 rom m with
        | Some m' => Some (Hack.pc m', Hack.ram m' 0)
        | None => None
        end
    | None => None
    end in
  word_ram m
  /\ stack_ok m
  /\ emitted (perform VMTranslator_py c) 0 = Some (py "@SP\nAM=M-1\nD=M\n@0\nM=D\n")
  /\ emitted (perform Main_py c) 0 = Some (py "@SP\nAM=M-1\nD=M\n@0\nM=D\n")
  /\ address VMTranslator_py (demo_sigma (demo_text VMTranslator_py c 0)) m "temp" (-5)
     = Some 0
  /\ address Main_py (demo_sigma (demo_text Main_py c 0)) m "temp" (-5) = Some 0
  /\ Hack.ram m 0 + stack_effect c = 299
  /\ run VMTranslator_py = Some (5, 5083)
  /\ run Main_py = Some (5, 5083).
Proof.
  cbv zeta. split.
  { intros a. unfold demo_machine. cbn [Hack.ram].
    destruct (a =? 0); [lia | apply Z.mod_pos_bound; lia]. }
  split; [unfold stack_ok; cbn; lia|].
  repeat split; vm_compute; reflexivity.
Qed.

(** C4, amended: a pop moves the stack pointer down by one unless the
    cell it writes is the stack pointer.  Take a fragment written by one
    call of a generator, of either
    program, that the assembler accepts, placed anywhere in the
    instruction memory, with its symbols resolved.  On a machine whose
    memory holds words and whose stack pointer is at or above 256,
    started at the fragment, execution reaches the end of the fragment
    with the stack pointer moved by the effect of the command: minus one
    for add, sub, and, or, eq, gt, lt and for pop, zero for neg and not,
    plus one for push.  For a pop the cell written must not be the stack
    pointer itself. *)
Theorem C4_stack_depth_effect (p : program) (c : vm_command) (n : Z)
    (text : string) (items : list Hack.item) (sigma : Hack.symtab)
    (pre post : list Hack.instr) (m : Hack.machine) :
  emitted (perform p c) n = Some text ->
  Hack.parse_asm text = Some items ->
  symtab_ok sigma ->
  labels_at sigma (Z.of_nat (List.length pre)) items ->
  word_ram m ->
  stack_ok m ->
  (forall segment index t,
      c = Pop segment index -> address p sigma m segment index = Some t -> t <> 0) ->
  Hack.pc m = Z.of_nat (List.length pre) ->
  runs_to (pre ++ Hack.resolve sigma items ++ post) m
    (fun m' =>
       Hack.pc m' = Z.of_nat (List.length pre)
                    + Z.of_nat (List.length (Hack.resolve sigma items))
       /\ Hack.ram m' 0 = Hack.ram m 0 + stack_effect c).
Proof.
  intros He Hp Hs Hl Hw Hst Ht Hpc.
  destruct (emitted_lines p c n text He) as (ls & -> & Hc & Hls).
  rewrite (parse_asm_unlines _ Hc) in Hp.
  destruct c as [command | segment index | segment index].
  - apply (arithmetic_run sigma pre post _ Hs eq_refl command n ls items m);
      assumption.
  - apply runs_to_impl with
      (Q := fun m' =>
              Hack.pc m' = Z.of_nat (List.length pre)
                + Z.of_nat (List.length (Hack.resolve sigma items))
              /\ Hack.ram m' 0 = Hack.ram m 0 + 1
              /\ Hack.ram m' (Hack.ram m 0)
                 = match address p sigma m segment index with
                   | Some t => Hack.ram m t
                   | None => index
                   end).
    { intros m' (H1 & H2 & _). auto. }
    destruct p.
    + apply (push_run vmt_direct_operand vmt_address vmt_addr_via
               vmt_addr_direct (fun _ _ _ => eq_refl) sigma pre post Hs
               segment index ls items m); assumption.
    + apply (push_run main_direct_operand main_address main_addr_via
               main_addr_direct (fun _ _ _ => eq_refl) sigma pre post Hs
               segment index ls items m); assumption.
  - assert (Hpop : exists t,
               address p sigma m segment index = Some t
               /\ runs_to (pre ++ Hack.resolve sigma items ++ post) m
                    (fun m' =>
                       Hack.pc m' = Z.of_nat (List.length pre)
                         + Z.of_nat (List.length (Hack.resolve sigma items))
                       /\ Hack.ram m' t = Hack.ram m (Hack.ram m 0 - 1)
                       /\ (t <> 0 -> Hack.ram m' 0 = Hack.ram m 0 - 1))).
    { destruct p.
      - apply (pop_run vmt_direct_operand vmt_pop_via_lines vmt_address
                 vmt_addr_via vmt_addr_direct vmt_pop_via_run sigma pre post Hs
                 segment index ls items m); assumption.
      - apply (pop_run main_direct_operand main_pop_via_lines main_address
                 main_addr_via main_addr_direct main_pop_via_run sigma pre post Hs
                 segment index ls items m); assumption. }
    destruct Hpop as (t & Haddr & Hrun).
    eapply runs_to_impl; [|exact Hrun].
    intros m' (H1 & _ & H3). split; [exact H1|].
    apply H3. apply (Ht segment index t eq_refl Haddr).
Qed.

Lemma demo_word_ram (sp : Z) : 0 <= sp < 65536 -> word_ram (demo_machine sp).
Proof.
  intros H a. unfold demo_machine. cbn [Hack.ram].
  destruct (a =? 0); [exact H | apply Z.mod_pos_bound; lia].
Qed.

Lemma C4_stack_depth_effect_witness :
  let text := demo_text VMTranslator_py (Arithmetic "lt") 0 in
  runs_to ([] ++ Hack.resolve (demo_sigma text) (demo_items text) ++ [])
    (demo_machine 258)
    (fun m' =>
       Hack.pc m' = Z.of_nat (List.length (@nil Hack.instr))
                    + Z.of_nat (List.length
                                  (Hack.resolve (demo_sigma text) (demo_items text)))
       /\ Hack.ram m' 0 = Hack.ram (demo_machine 258) 0
                          + stack_effect (Arithmetic "lt")).
Proof.
  intros text.
  apply (C4_stack_depth_effect VMTranslator_py (Arithmetic "lt") 0 text
           (demo_items text) (demo_sigma text) [] [] (demo_machine 258)).
  - reflexivity.
  - reflexivity.
  - apply assembler_symtab_ok. intros l H. vm_compute in H.
    repeat (destruct H as [H|H]; [try discriminate H; injection H as <-; reflexivity|]).
    destruct H.
  - intros l a H. vm_compute in H.
    repeat (destruct H as [H|H]; [injection H as <- <-; reflexivity|]).
    destruct H.
  - apply demo_word_ram. lia.
  - unfold stack_ok. cbn. lia.
  - intros segment index t H. discriminate H.
  - reflexivity.
Defined.

(** ** Which cell a segment and an index denote *)

(** C7, as the claim states it, fails for [src/VMTranslator.py]: it
    does not address static and pointer cells as a fixed base plus the
    index.  Assembled on its own and run with the stack pointer at 256,
    [push static 5] pushes the value of cell 16, not of cell [16 + 5],
    and [push pointer 2] pushes the value of cell 4, not of cell
    [3 + 2]. *)
Lemma C7_vmtranslator_static_and_pointer_cells :
  let m := demo_machine 256 in
  let run c :=
    match Hack.assemble (demo_text VMTranslator_py c 0) with
    | Some rom =>
        match Hack.run 7 rom m with
        | Some m' => Some (Hack.ram m' 256)
        | None => None
        end
    | None => None
    end in
  run (Push "static" 5) = Some (Hack.ram m 16)
  /\ Hack.ram m 16 <> Hack.ram m (16 + 5)
  /\ run (Push "pointer" 2) = Some (Hack.ram m 4)
  /\ Hack.ram m 4 <> Hack.ram m (3 + 2).
Proof. vm_compute. repeat split; discriminate. Qed.

(** C7, amended.  In both programs push and pop on local, argument,
    this and that go through the value held in the cell of the base
    register, plus the index.  In [src/main.py] temp, pointer and static
    are the fixed cells [5 + index], [3 + index] and [16 + index].  In
    [src/VMTranslator.py] temp is the fixed cell [5 + index], pointer is
    the cell of the symbol [THIS] for index 0 and of [THAT] for every
    other index, and static is the cell the assembler gives the symbol
    [Static.<index>].  In every case there is no indirection other than
    the one named: a push leaves on top of the stack the value of that
    cell, a pop stores the former top of the stack in that cell. *)
Theorem C7_segment_addressing (p : program) (segment : string) (index n : Z)
    (sigma : Hack.symtab) (pre post : list Hack.instr) (m : Hack.machine) :
  symtab_ok sigma ->
  word_ram m ->
  stack_ok m ->
  Hack.pc m = Z.of_nat (List.length pre) ->
  (forall text items,
      emitted (perform p (Push segment index)) n = Some text ->
      Hack.parse_asm text = Some items ->
      runs_to (pre ++ Hack.resolve sigma items ++ post) m
        (fun m' =>
           Hack.pc m' = Z.of_nat (List.length pre)
                        + Z.of_nat (List.length (Hack.resolve sigma items))
           /\ Hack.ram m' 0 = Hack.ram m 0 + 1
           /\ Hack.ram m' (Hack.ram m 0)
              = match address p sigma m segment index with
                | Some t => Hack.ram m t
                | None => index
                end))
  /\ (forall text items,
         emitted (perform p (Pop segment index)) n = Some text ->
         Hack.parse_asm text = Some items ->
         exists t,
           address p sigma m segment index = Some t
           /\ runs_to (pre ++ Hack.resolve sigma items ++ post) m
                (fun m' =>
                   Hack.pc m' = Z.of_nat (List.length pre)
                                + Z.of_nat (List.length (Hack.resolve sigma items))
                   /\ Hack.ram m' t = Hack.ram m (Hack.ram m 0 - 1)
                   /\ (t <> 0 -> Hack.ram m' 0 = Hack.ram m 0 - 1)))
  /\ address p sigma m "local" index = Some (Hack.wrap (Hack.ram m 1 + index))
  /\ address p sigma m "argument" index = Some (Hack.wrap (Hack.ram m 2 + index))
  /\ address p sigma m "this" index = Some (Hack.wrap (Hack.ram m 3 + index))
  /\ address p sigma m "that" index = Some (Hack.wrap (Hack.ram m 4 + index))
  /\ address p sigma m "temp" index = Some (5 + index)
  /\ address Main_py sigma m "pointer" index = Some (3 + index)
  /\ address Main_py sigma m "static" index = Some (16 + index)
  /\ address VMTranslator_py sigma m "pointer" index
     = Some (if index =? 0 then 3 else 4)
  /\ address VMTranslator_py sigma m "static" index
     = Some (sigma ("Static." ++ py_str index))
  /\ address p sigma m "constant" index = None.
Proof.
  intros Hs Hw Hst Hpc.
  split.
  { intros text items He Hp.
    destruct (emitted_lines p _ n text He) as (ls & -> & Hc & Hls).
    rewrite (parse_asm_unlines _ Hc) in Hp.
    destruct p.
    - apply (push_run vmt_direct_operand vmt_address vmt_addr_via
               vmt_addr_direct (fun _ _ _ => eq_refl) sigma pre post Hs
               segment index ls items m); assumption.
    - apply (push_run main_direct_operand main_address main_addr_via
               main_addr_direct (fun _ _ _ => eq_refl) sigma pre post Hs
               segment index ls items m); assumption. }
  split.
  { intros text items He Hp.
    destruct (emitted_lines p _ n text He) as (ls & -> & Hc & Hls).
    rewrite (parse_asm_unlines _ Hc) in Hp.
    destruct p.
    - apply (pop_run vmt_direct_operand vmt_pop_via_lines vmt_address
               vmt_addr_via vmt_addr_direct vmt_pop_via_run sigma pre post Hs
               segment index ls items m); assumption.
    - apply (pop_run main_direct_operand main_pop_via_lines main_address
               main_addr_via main_addr_direct main_pop_via_run sigma pre post Hs
               segment index ls items m); assumption. }
  destruct p; unfold address, vmt_address, main_address, via_address; cbn;
    rewrite (Hs "LCL" 1 eq_refl), (Hs "ARG" 2 eq_refl), (Hs "THIS" 3 eq_refl),
      (Hs "THAT" 4 eq_refl);
    repeat split; destruct (index =? 0); reflexivity.
Qed.

Lemma C7_segment_addressing_witness :
  let text := demo_text Main_py (Pop "pointer" 1) 0 in
  exists t,
    address Main_py (demo_sigma text) (demo_machine 300) "pointer" 1 = Some t
    /\ runs_to ([] ++ Hack.resolve (demo_sigma text) (demo_items text) ++ [])
         (demo_machine 300)
         (fun m' =>
            Hack.pc m' = Z.of_nat (List.length (@nil Hack.instr))
                         + Z.of_nat (List.length
                                       (Hack.resolve (demo_sigma text)
                                          (demo_items text)))
            /\ Hack.ram m' t = Hack.ram (demo_machine 300)
                                 (Hack.ram (demo_machine 300) 0 - 1)
            /\ (t <> 0 -> Hack.ram m' 0 = Hack.ram (demo_machine 300) 0 - 1)).
Proof.
  intros text.
  assert (Hs : symtab_ok (demo_sigma text)).
  { apply assembler_symtab_ok. intros l H. vm_compute in H.
    repeat (destruct H as [H|H]; [try discriminate H|]). destruct H. }
  assert (Hw : word_ram (demo_machine 300)) by (apply demo_word_ram; lia).
  assert (Hst : stack_ok (demo_machine 300)) by (unfold stack_ok; cbn; lia).
  destruct (C7_segment_addressing Main_py "pointer" 1 0 (demo_sigma text) [] []
              (demo_machine 300) Hs Hw Hst eq_refl) as (_ & Hpop & _).
  apply (Hpop text (demo_items text)); reflexivity.
Defined.

(** ** The call fragment *)

Lemma parse_asm_unlines_no_lf (ls : list string) :
  Forall (fun l => no_lf l = true) ls ->
  Hack.parse_asm (unlines ls) = Hack.parse_lines ls.
Proof.
  intros H. unfold Hack.parse_asm.
  rewrite <- (append_nil_r (unlines ls)), lines_unlines by exact H.
  rewrite parse_lines_app. simpl.
  destruct (Hack.parse_lines ls); [now rewrite List.app_nil_r | reflexivity].
Qed.

Lemma declared_labels_unlines_no_lf (ls : list string) :
  Forall (fun l => no_lf l = true) ls ->
  Hack.declared_labels (unlines ls) = Hack.labels_of_lines ls.
Proof.
  intros H. unfold Hack.declared_labels.
  rewrite <- (append_nil_r (unlines ls)), lines_unlines by exact H.
  rewrite labels_of_lines_app. simpl. apply List.app_nil_r.
Qed.

Lemma call_lines_no_lf (function_name : string) (num_args n : Z) :
  no_lf function_name = true ->
  Forall (fun l => no_lf l = true) (call_lines function_name num_args n).
Proof.
  intros H. unfold call_lines.
  pose proof (py_str_no_lf num_args) as H1.
  pose proof (py_str_no_lf n) as H2.
  unfold no_lf in *.
  repeat (apply Forall_cons; [|]); [..|apply Forall_nil].
  all: cbn [Hack.all_chars append]; rewrite ?all_chars_app; cbn [Hack.all_chars];
    rewrite ?H, ?H1, ?H2; reflexivity.
Qed.

(** C2.  [writeCall] always ends normally, appends its text and moves
    the label counter by one; the text declares one label, [RETURN_]
    followed by the counter it found.  Take that text where the
    assembler accepts it, placed anywhere in the instruction memory with
    its symbols resolved, on a machine whose memory holds words and
    whose stack pointer [sp] is at or above 256.  Execution from the
    start of the fragment pushes exactly five cells, in this order: the
    return address, then the caller's LCL, ARG, THIS and THAT (cells
    [sp] to [sp + 4], stack pointer [sp + 5]); it sets ARG to the new
    stack pointer minus [num_args + 5] and LCL to the new stack pointer;
    no other cell changes; and it ends with a jump to the callee.  The
    jump is the last of the 49 instructions and the return address
    pushed is the address that follows it, which is where the label
    stands. *)
Theorem C2_call_frame (function_name : string) (num_args : Z) (w : CodeWriter)
    (text : string) (items : list Hack.item) (sigma : Hack.symtab)
    (pre post : list Hack.instr) (m : Hack.machine) :
  no_lf function_name = true ->
  emitted (MainPy.writeCall function_name num_args) (label_count w) = Some text ->
  Hack.parse_asm text = Some items ->
  symtab_ok sigma ->
  labels_at sigma (Z.of_nat (List.length pre)) items ->
  word_ram m ->
  stack_ok m ->
  Hack.pc m = Z.of_nat (List.length pre) ->
  MainPy.writeCall function_name num_args w
  = (Ok tt, mkCodeWriter (file w ++ text) (label_count w + 1))
  /\ Hack.declared_labels text = ["RETURN_" ++ py_str (label_count w)]
  /\ exists callee,
      Hack.parse_aoperand function_name = Some callee
      /\ Z.of_nat (List.length (Hack.resolve sigma items)) = 49
      /\ sigma ("RETURN_" ++ py_str (label_count w))
         = Z.of_nat (List.length pre) + 49
      /\ runs_to (pre ++ Hack.resolve sigma items ++ post) m
           (fun m' =>
              let sp := Hack.ram m 0 in
              Hack.pc m' = Hack.resolve_operand sigma callee
              /\ Hack.ram m' sp = Hack.wrap (Z.of_nat (List.length pre) + 49)
              /\ Hack.ram m' (sp + 1) = Hack.ram m 1
              /\ Hack.ram m' (sp + 2) = Hack.ram m 2
              /\ Hack.ram m' (sp + 3) = Hack.ram m 3
              /\ Hack.ram m' (sp + 4) = Hack.ram m 4
              /\ Hack.ram m' 0 = sp + 5
              /\ Hack.ram m' 2 = Hack.wrap (sp + 5 - (num_args + 5))
              /\ Hack.ram m' 1 = sp + 5
              /\ (forall x, x <> 0 -> x <> 1 -> x <> 2 ->
                            x < sp \/ sp + 5 <= x ->
                            Hack.ram m' x = Hack.ram m x)).
Proof.
  intros Hn He Hp Hs Hl Hw Hst Hpc.
  unfold emitted in He. rewrite main_writeCall_spec in He.
  cbn [file label_count] in He.
  assert (Ht : text = unlines (call_lines function_name num_args (label_count w)))
    by (injection He as <-; reflexivity).
  clear He. subst text.
  pose proof (call_lines_no_lf function_name num_args (label_count w) Hn) as Hc.
  split; [apply main_writeCall_spec|].
  split.
  { rewrite (declared_labels_unlines_no_lf _ Hc).
    unfold call_lines. cbn [Hack.labels_of_lines].
    replace (Hack.label_of_line
               (String "(" (("RETURN_" ++ py_str (label_count w)) ++ ")")))
      with (Some ("RETURN_" ++ py_str (label_count w)))
      by (cbn [Hack.label_of_line]; now rewrite strip_close_app).
    cbn [Hack.label_of_line append]. reflexivity. }
  rewrite (parse_asm_unlines_no_lf _ Hc) in Hp.
  apply (call_run sigma pre post _ Hs eq_refl function_name num_args
           (label_count w) items m); assumption.
Qed.

Lemma C2_call_frame_witness :
  let text := call_text "Sys.init" 0 0 in
  MainPy.writeCall "Sys.init" 0 (mkCodeWriter "" 0)
  = (Ok tt, mkCodeWriter ("" ++ text) (0 + 1))
  /\ Hack.declared_labels text = ["RETURN_" ++ py_str 0]
  /\ exists callee,
      Hack.parse_aoperand "Sys.init" = Some callee
      /\ runs_to ([] ++ Hack.resolve (demo_sigma text) (demo_items text) ++ [])
           (demo_machine 256)
           (fun m' =>
              Hack.pc m' = Hack.resolve_operand (demo_sigma text) callee
              /\ Hack.ram m' 0 = 256 + 5
              /\ Hack.ram m' 2 = Hack.wrap (256 + 5 - (0 + 5))
              /\ Hack.ram m' 1 = 256 + 5).
Proof.
  intros text.
  assert (Hs : symtab_ok (demo_sigma text)).
  { apply assembler_symtab_ok. intros l H. vm_compute in H.
    repeat (destruct H as [H|H]; [try discriminate H; injection H as <-; reflexivity|]).
    destruct H. }
  assert (Hl : labels_at (demo_sigma text) (Z.of_nat (List.length (@nil Hack.instr)))
                 (demo_items text)).
  { intros l a H. vm_compute in H.
    repeat (destruct H as [H|H]; [injection H as <- <-; reflexivity|]).
    destruct H. }
  assert (Hw : word_ram (demo_machine 256)) by (apply demo_word_ram; lia).
  assert (Hst : stack_ok (demo_machine 256)) by (unfold stack_ok; cbn; lia).
  destruct (C2_call_frame "Sys.init" 0 (mkCodeWriter "" 0) text (demo_items text)
              (demo_sigma text) [] [] (demo_machine 256)
              eq_refl eq_refl eq_refl Hs Hl Hw Hst eq_refl)
    as (H1 & H2 & callee & H3 & _ & _ & Hrun).
  split; [exact H1|]. split; [exact H2|].
  exists callee. split; [exact H3|].
  eapply runs_to_impl; [|exact Hrun].
  cbv zeta. intros m' (P1 & _ & _ & _ & _ & _ & P7 & P8 & P9 & _).
  auto.
Defined.

(** ** The bootstrap *)

Lemma resolve_app (sigma : Hack.symtab) (a b : list Hack.item) :
  Hack.resolve sigma (a ++ b)%list
  = (Hack.resolve sigma a ++ Hack.resolve sigma b)%list.
Proof.
  induction a as [|i a IH]; simpl; [reflexivity|].
  destruct i; simpl; now rewrite IH.
Qed.

(** Instructions without jump run in sequence. *)
Lemma run_sequential (code : list Hack.instr) :
  forall (pre rest : list Hack.instr) (m : Hack.machine) (k : nat),
  forallb no_jump code = true ->
  Hack.pc m = Z.of_nat (List.length pre) ->
  (k <= List.length code)%nat ->
  exists mk,
    Hack.run k (pre ++ code ++ rest) m = Some mk
    /\ Hack.pc mk = Hack.pc m + Z.of_nat k.
Proof.
  induction code as [|i code IH]; intros pre rest m k Hj Hpc Hk.
  - simpl in Hk. assert (k = O) by lia. subst k.
    exists m. split; [reflexivity | simpl; lia].
  - destruct k as [|k].
    + exists m. split; [reflexivity | simpl; lia].
    + simpl in Hj. apply andb_prop in Hj. destruct Hj as [Hi Hj].
      assert (Hf : Hack.fetch (pre ++ (i :: code) ++ rest) (Hack.pc m) = Some i).
      { rewrite <- (Z.add_0_r (Hack.pc m)).
        apply (fetch_code pre (i :: code) rest _ 0 i Hpc); [lia | reflexivity]. }
      assert (Hn : Hack.pc (Hack.exec i m) = Hack.pc m + 1).
      { destruct i as [v|d c j]; [reflexivity|].
        destruct j; try discriminate Hi. reflexivity. }
      destruct (IH (pre ++ [i])%list rest (Hack.exec i m) k Hj) as (mk & Hr & Hp).
      * rewrite Hn, Hpc, length_app. simpl. lia.
      * simpl in Hk. lia.
      * exists mk. split.
        -- cbn [Hack.run]. unfold Hack.step. rewrite Hf.
           rewrite <- List.app_assoc in Hr. exact Hr.
        -- rewrite Hp, Hn. lia.
Qed.

Lemma unlines_no_slash (ls : list string) :
  Forall (fun l => clean l = true) ls ->
  Hack.all_chars (fun c => negb (Ascii.eqb c "/")) (unlines ls) = true.
Proof.
  induction 1 as [|l ls Hl _ IH]; [reflexivity|].
  simpl. rewrite all_chars_app. simpl. rewrite IH, andb_true_r.
  revert Hl. apply all_chars_weaken. intros c Hc. unfold clean_char in Hc.
  apply andb_prop in Hc. tauto.
Qed.

Lemma occurrences_no_slash (p s : string) :
  Hack.all_chars (fun c => negb (Ascii.eqb c "/")) s = true ->
  occurrences (String "/" p) s = O.
Proof.
  induction s as [|c r IH]; [reflexivity|].
  cbn [Hack.all_chars occurrences starts]. intros H.
  apply andb_prop in H. destruct H as [Hc Hr].
  rewrite (IH Hr), Ascii.eqb_sym.
  destruct (Ascii.eqb c "/"); [discriminate Hc | reflexivity].
Qed.

Lemma occurrences_bootstrap (body : string) :
  occurrences "// Bootstrap code" (bootstrap_text ++ body)
  = S (occurrences "// Bootstrap code" body).
Proof. reflexivity. Qed.

Lemma bootstrap_text_lines :
  bootstrap_text = unlines (init_lines ++ call_lines "Sys.init" 0 0).
Proof. unfold bootstrap_text. now rewrite main_init_state. Qed.

Lemma run_add (a b : nat) (rom : list Hack.instr) (m : Hack.machine) :
  Hack.run (a + b) rom m
  = match Hack.run a rom m with
    | Some m' => Hack.run b rom m'
    | None => None
    end.
Proof.
  revert m. induction a as [|a IH]; intros m; simpl; [reflexivity|].
  destruct (Hack.step rom m); [apply IH | reflexivity].
Qed.

Lemma run_step (n : nat) (rom : list Hack.instr) (m : Hack.machine) (i : Hack.instr) :
  Hack.fetch rom (Hack.pc m) = Some i ->
  Hack.run (S n) rom m = Hack.run n rom (Hack.exec i m).
Proof. intros H. simpl. unfold Hack.step. now rewrite H. Qed.

Lemma fetch_nth (code : list Hack.instr) (k : nat) (i : Hack.instr) :
  nth_error code k = Some i -> Hack.fetch code (Z.of_nat k) = Some i.
Proof.
  intros H. unfold Hack.fetch.
  destruct (Z.ltb_spec (Z.of_nat k) 0); [lia|]. now rewrite Nat2Z.id.
Qed.

(** A run of [k] instructions without jump, then [@v] and an
    unconditional jump: control goes to [v] at step [k + 2], not
    before. *)
Lemma jump_after_sequential (code : list Hack.instr) (k : nat) (v : Z)
    (d : Hack.dest) (c : Hack.comp) (m : Hack.machine) :
  forallb no_jump (firstn k code) = true ->
  nth_error code k = Some (Hack.AInstr v) ->
  nth_error code (S k) = Some (Hack.CInstr d c Hack.JMP) ->
  Hack.pc m = 0 ->
  (forall j, (j <= S k)%nat ->
     exists mj, Hack.run j code m = Some mj /\ Hack.pc mj = Z.of_nat j)
  /\ exists m', Hack.run (S (S k)) code m = Some m' /\ Hack.pc m' = v.
Proof.
  intros Hj Ha Hc Hpc.
  assert (Hlen : List.length (firstn k code) = k).
  { apply firstn_length_le. apply Nat.lt_le_incl. apply nth_error_Some. congruence. }
  assert (Hseq : forall j, (j <= k)%nat ->
            exists mj, Hack.run j code m = Some mj /\ Hack.pc mj = Z.of_nat j).
  { intros j Hjk.
    destruct (run_sequential (firstn k code) [] (skipn k code) m j Hj Hpc)
      as (mj & Hr & Hp); [lia|].
    simpl in Hr. rewrite firstn_skipn in Hr.
    exists mj. split; [exact Hr | lia]. }
  destruct (Hseq k (Nat.le_refl k)) as (mk & Hrk & Hpk).
  assert (Hk1 : Hack.run (S k) code m = Some (Hack.exec (Hack.AInstr v) mk)).
  { replace (S k) with (k + 1)%nat by lia. rewrite run_add, Hrk.
    rewrite (run_step 0 code mk (Hack.AInstr v)); [reflexivity|].
    rewrite Hpk. now apply fetch_nth. }
  split.
  - intros j Hjk. destruct (Nat.eq_dec j (S k)) as [->|Hne].
    + eexists. split; [exact Hk1|]. simpl. lia.
    + apply Hseq. lia.
  - replace (S (S k)) with (S k + 1)%nat by lia. rewrite run_add, Hk1.
    eexists. split.
    + apply (run_step 0 code _ (Hack.CInstr d c Hack.JMP)).
      simpl. rewrite Hpk.
      replace (Z.of_nat k + 1) with (Z.of_nat (S k)) by lia.
      now apply fetch_nth.
    + reflexivity.
Qed.

(** C3, as the claim states it, fails for [src/VMTranslator.py], whose
    constructor writes nothing: the output of a run holds no bootstrap
    and no call of [Sys.init], and its first four instructions do not
    set the stack pointer to 256. *)
Lemma C3_vmtranslator_writes_no_bootstrap :
  let r := VMTranslatorPy.translate [["push"; "constant"; "7"]] in
  fst r = Ok tt
  /\ file (snd (VMTranslatorPy.translate [])) = EmptyString
  /\ occurrences "// Bootstrap code" (file (snd r)) = O
  /\ occurrences "Sys.init" (file (snd r)) = O
  /\ match Hack.assemble (file (snd r)) with
     | Some rom =>
         match Hack.run 4 rom (demo_machine 300) with
         | Some m4 => Some (Hack.ram m4 0)
         | None => None
         end
     | None => None
     end = Some 300.
Proof.
  cbv zeta.
  split; [vm_compute; reflexivity|]. split; [vm_compute; reflexivity|].
  split; [vm_compute; reflexivity|]. split; [vm_compute; reflexivity|].
  vm_compute. reflexivity.
Qed.

Lemma bootstrap_lines_no_lf :
  Forall (fun l => no_lf l = true) (init_lines ++ call_lines "Sys.init" 0 0).
Proof.
  apply Forall_app. split; [repeat constructor|].
  apply call_lines_no_lf. reflexivity.
Qed.

(** C3, amended: it holds for [src/main.py] only.  For every input,
    whether the run ends normally or raises, the output begins with the
    text the constructor wrote, which does not depend on the input: the
    header, the four instructions that set SP to 256, and the text of
    [writeCall("Sys.init", 0)].  The header occurs once in the output.
    Where the assembler accepts the output, on any machine started at
    address 0, the first four instructions leave 256 in cell 0, the
    first 52 instructions run in sequence, and the 53rd transfers
    control to [Sys.init]. *)
Theorem C3_bootstrap_prologue (input : list (list string)) :
  let out := file (snd (MainPy.translate input)) in
  (exists body, out = bootstrap_text ++ body)
  /\ bootstrap_text
     = py "// Bootstrap code\n@256\nD=A\n@SP\nM=D\n" ++ call_text "Sys.init" 0 0
  /\ occurrences "// Bootstrap code" out = 1%nat
  /\ (forall items sigma m,
         Hack.parse_asm out = Some items ->
         symtab_ok sigma ->
         Hack.pc m = 0 ->
         (exists m4,
             Hack.run 4 (Hack.resolve sigma items) m = Some m4
             /\ Hack.ram m4 0 = 256)
         /\ (forall k, (k <= 52)%nat ->
                exists mk,
                  Hack.run k (Hack.resolve sigma items) m = Some mk
                  /\ Hack.pc mk = Z.of_nat k)
         /\ (exists m53,
                Hack.run 53 (Hack.resolve sigma items) m = Some m53
                /\ Hack.pc m53 = sigma "Sys.init")).
Proof.
  cbv zeta.
  destruct (main_output_lines input) as (ls & Hout & Hc & _).
  rewrite Hout. rewrite unlines_app, <- bootstrap_text_lines.
  split; [eauto|]. split; [reflexivity|]. split.
  { rewrite occurrences_bootstrap.
    rewrite occurrences_no_slash; [reflexivity|].
    now apply unlines_no_slash. }
  intros items sigma m Hp Hs Hpc.
  rewrite bootstrap_text_lines, <- unlines_app in Hp.
  rewrite parse_asm_unlines_no_lf in Hp.
  2:{ apply Forall_app. split; [apply bootstrap_lines_no_lf|].
      eapply Forall_impl; [|exact Hc]. intros l. apply clean_no_lf. }
  rewrite parse_lines_app in Hp.
  match type of Hp with
  | context [Hack.parse_lines (init_lines ++ ?c)] =>
      let v := eval vm_compute in (Hack.parse_lines (init_lines ++ c)) in
      change (Hack.parse_lines (init_lines ++ c)) with v in Hp
  end.
  match type of Hp with
  | context [Some ?bi] => remember bi as boot eqn:Hboot
  end.
  destruct (Hack.parse_lines ls) as [rest|]; [|discriminate Hp].
  injection Hp as <-.
  rewrite resolve_app. subst boot. cbn [Hack.resolve Hack.resolve_operand].
  rewrite !(Hs "SP" 0 eq_refl), !(Hs "LCL" 1 eq_refl), !(Hs "ARG" 2 eq_refl),
    !(Hs "THIS" 3 eq_refl), !(Hs "THAT" 4 eq_refl).
  generalize (Hack.resolve sigma rest). intros tail.
  match goal with
  | |- context [Hack.run 53 ?code m] =>
      destruct (jump_after_sequential code 51 (sigma "Sys.init")
                  Hack.no_dest Hack.CZero m eq_refl eq_refl eq_refl Hpc)
        as (Hseq & Hjump)
  end.
  split; [|split; [exact Hseq | exact Hjump]].
  destruct m as [a d p r]. cbn [Hack.pc] in Hpc. subst p.
  eexists. split.
  - do 4 (erewrite run_step; [|reflexivity]). reflexivity.
  - reflexivity.
Qed.

Lemma C3_bootstrap_prologue_witness :
  let out := file (snd (MainPy.translate [["push"; "constant"; "1"]])) in
  exists m4,
    Hack.run 4 (Hack.resolve (demo_sigma out) (demo_items out)) (demo_machine 0)
    = Some m4
    /\ Hack.ram m4 0 = 256.
Proof.
  intros out.
  assert (Hs : symtab_ok (demo_sigma out)).
  { apply assembler_symtab_ok. intros l H. vm_compute in H.
    repeat (destruct H as [H|H]; [try discriminate H; injection H as <-; reflexivity|]).
    destruct H. }
  destruct (C3_bootstrap_prologue [["push"; "constant"; "1"]])
    as (_ & _ & _ & H).
  destruct (H (demo_items out) (demo_sigma out) (demo_machine 0) eq_refl Hs eq_refl)
    as (H4 & _).
  exact H4.
Defined.

(** * Loading a program *)

(** ** White space, lines and tokens *)

Lemma starts_app (pat a b : string) :
  starts pat a = true -> starts pat (a ++ b) = true.
Proof.
  revert a; induction pat as [|x pat IH]; intros [|y a]; simpl; try easy.
  intros H; apply andb_prop in H as [-> H]; simpl; auto.
Qed.

Lemma occurrences_tail (pat : string) (c : ascii) (s : string) :
  occurrences pat (String c s) = 0%nat ->
  starts pat (String c s) = false /\ occurrences pat s = 0%nat.
Proof.
  cbn [occurrences]. destruct (starts pat (String c s)); [discriminate|].
  intros H; split; [reflexivity | exact H].
Qed.

Lemma occurrences_app_r (pat a b : string) :
  occurrences pat (a ++ b) = 0%nat -> occurrences pat b = 0%nat.
Proof.
  induction a as [|c a IH]; [easy|].
  intros H; apply occurrences_tail in H as [_ H]; auto.
Qed.

Lemma occurrences_app_l (x : ascii) (pat a b : string) :
  occurrences (String x pat) (a ++ b) = 0%nat ->
  occurrences (String x pat) a = 0%nat.
Proof.
  induction a as [|c a IH]; [reflexivity|].
  intros H. change ((String c a) ++ b) with (String c (a ++ b)) in H.
  apply occurrences_tail in H as [Hs H].
  cbn [occurrences]. rewrite (IH H).
  destruct (starts (String x pat) (String c a)) eqn:E; [|reflexivity].
  apply (starts_app _ _ b) in E. simpl in E, Hs. congruence.
Qed.

Lemma readlines_nonempty (c : ascii) (s : string) : readlines (String c s) <> [].
Proof.
  simpl. destruct (Ascii.eqb c LF); [discriminate|].
  destruct (readlines s); discriminate.
Qed.

Lemma readlines_app (a b : string) :
  readlines (a ++ String LF b)
  = (readlines (a ++ String LF "") ++ readlines b)%list.
Proof.
  induction a as [|c a IH]; [reflexivity|].
  simpl. destruct (Ascii.eqb c LF).
  - rewrite IH. reflexivity.
  - rewrite IH.
    destruct (readlines (a ++ String LF "")) eqn:E; [|reflexivity].
    destruct a; simpl in E.
    + discriminate.
    + exfalso. revert E. apply readlines_nonempty.
Qed.

Lemma readlines_line (l : string) :
  no_lf l = true -> readlines (l ++ String LF "") = [l ++ String LF ""].
Proof.
  induction l as [|c l IH]; [reflexivity|].
  unfold no_lf; simpl. intros H; apply andb_prop in H as [Hc Hl].
  destruct (Ascii.eqb c LF); [discriminate|].
  rewrite (IH Hl). reflexivity.
Qed.

Lemma rstrip_empty (s : string) :
  rstrip s = "" <-> Hack.all_chars is_space s = true.
Proof.
  induction s as [|c s IH]; [easy|].
  simpl. destruct (rstrip s) eqn:E.
  - destruct (is_space c); simpl.
    + split; [intros _; apply IH; reflexivity | reflexivity].
    + split; discriminate.
  - split; [discriminate|].
    intros H; apply andb_prop in H as [_ H]. apply IH in H. discriminate.
Qed.

Lemma rstrip_first (s : string) (c : ascii) (r : string) :
  rstrip s = String c r -> exists r', s = String c r'.
Proof.
  destruct s as [|x s]; [discriminate|].
  simpl. destruct (rstrip s).
  - destruct (is_space x); [discriminate|]. intros [= <- <-]. eauto.
  - intros [= <- <-]. eauto.
Qed.

Lemma strip_empty (s : string) :
  py_bool (strip s) = negb (Hack.all_chars is_space s).
Proof.
  unfold strip. induction s as [|c s IH]; [reflexivity|].
  cbn [lstrip Hack.all_chars]. destruct (is_space c) eqn:E; [exact IH|].
  cbn [rstrip andb negb]. destruct (rstrip s); [rewrite E|]; reflexivity.
Qed.

Lemma py_split_spaces (s : string) :
  Hack.all_chars is_space s = true -> py_split s = [].
Proof.
  induction s as [|c s IH]; [reflexivity|].
  simpl. intros H; apply andb_prop in H as [-> H]. auto.
Qed.

Lemma py_split_lstrip (s : string) : py_split (lstrip s) = py_split s.
Proof.
  induction s as [|c s IH]; [reflexivity|].
  cbn [lstrip]. destruct (is_space c) eqn:E; [|reflexivity].
  rewrite IH. simpl. rewrite E. reflexivity.
Qed.

Lemma py_split_rstrip (s : string) : py_split (rstrip s) = py_split s.
Proof.
  induction s as [|c s IH]; [reflexivity|].
  cbn [rstrip]. destruct (rstrip s) as [|c' r'] eqn:E.
  - assert (Hs : py_split s = []) by (apply py_split_spaces, rstrip_empty, E).
    assert (Ha : Hack.all_chars is_space s = true) by (apply rstrip_empty, E).
    destruct (is_space c) eqn:Ec.
    + simpl. rewrite Ec. symmetry. exact Hs.
    + simpl. rewrite Ec. destruct s as [|x s]; [reflexivity|].
      simpl in Ha. apply andb_prop in Ha as [-> _]. rewrite Hs. reflexivity.
  - destruct (rstrip_first _ _ _ E) as [s' ->].
    cbn [py_split] in *. rewrite IH. reflexivity.
Qed.

Lemma py_split_strip (s : string) : py_split (strip s) = py_split s.
Proof. unfold strip. rewrite py_split_rstrip. apply py_split_lstrip. Qed.

Lemma py_split_step (c : ascii) (r : string) :
  py_split (String c r)
  = if is_space c then py_split r
    else match r with
         | EmptyString => [String c EmptyString]
         | String c' _ =>
             if is_space c' then String c EmptyString :: py_split r
             else match py_split r with
                  | w :: ws => String c w :: ws
                  | [] => [String c EmptyString]
                  end
         end.
Proof. reflexivity. Qed.

(** The first token of a text that begins with a character of a token
    is a prefix of the text. *)
Lemma py_split_first_prefix (r : string) (c : ascii) (w : string) (ws : list string) :
  is_space c = false ->
  py_split (String c r) = w :: ws -> exists b, String c r = w ++ b.
Proof.
  revert c w ws; induction r as [|c' r IH]; intros c w ws Hc;
    rewrite py_split_step, Hc.
  - intros [= <- <-]. exists "". reflexivity.
  - destruct (is_space c') eqn:E.
    + intros [= <- <-]. exists (String c' r). reflexivity.
    + destruct (py_split (String c' r)) as [|w' ws'] eqn:E2.
      * intros [= <- <-]. exists (String c' r). reflexivity.
      * intros [= <- <-]. destruct (IH c' w' ws' E E2) as [b Hb].
        exists b. simpl. rewrite <- Hb. reflexivity.
Qed.

Lemma py_split_substrings (s : string) :
  Forall (fun t => exists a b, s = a ++ t ++ b) (py_split s).
Proof.
  assert (Hweak : forall (c : ascii) (r : string) (l : list string),
             Forall (fun t => exists a b, r = a ++ t ++ b) l ->
             Forall (fun t => exists a b, String c r = a ++ t ++ b) l).
  { intros c r l H. eapply Forall_impl; [|exact H].
    intros t (a & b & ->). exists (String c a), b. reflexivity. }
  induction s as [|c s IH]; [constructor|].
  rewrite py_split_step. destruct (is_space c) eqn:Ec; [apply Hweak, IH|].
  destruct s as [|c' s']; [constructor; [|constructor]; exists "", ""; reflexivity|].
  destruct (is_space c') eqn:Ec'.
  - constructor; [exists "", (String c' s'); reflexivity | apply Hweak, IH].
  - destruct (py_split (String c' s')) as [|w ws] eqn:E.
    + constructor; [|constructor]. exists "", (String c' s'). reflexivity.
    + destruct (py_split_first_prefix s' c' w ws Ec' E) as [b Hb].
      constructor.
      * exists "", b. simpl. rewrite <- Hb. reflexivity.
      * apply Hweak. inversion IH; assumption.
Qed.

Lemma py_split_tokens (s : string) :
  Forall (fun t => t <> ""
                   /\ Hack.all_chars (fun c => negb (is_space c)) t = true)
    (py_split s).
Proof.
  induction s as [|c s IH]; [constructor|].
  rewrite py_split_step. destruct (is_space c) eqn:Ec; [exact IH|].
  assert (H1 : String c "" <> ""
               /\ Hack.all_chars (fun c => negb (is_space c)) (String c "") = true)
    by (split; [discriminate | simpl; rewrite Ec; reflexivity]).
  destruct s as [|c' s']; [constructor; [exact H1|constructor]|].
  destruct (is_space c') eqn:Ec'; [constructor; [exact H1 | exact IH]|].
  destruct (py_split (String c' s')) as [|w ws]; [constructor; [exact H1|constructor]|].
  inversion IH as [|? ? [_ Hw] Hws]; subst.
  constructor; [|exact Hws].
  split; [discriminate | simpl; rewrite Ec, Hw; reflexivity].
Qed.

Lemma split_head_prefix (sep s : string) : exists b, s = split_head sep s ++ b.
Proof.
  induction s as [|c s [b IH]]; [exists ""; reflexivity|].
  cbn [split_head]. destruct (starts sep (String c s)).
  - exists (String c s). reflexivity.
  - exists b. simpl. rewrite <- IH. reflexivity.
Qed.

Lemma split_head_free (x : ascii) (pat s : string) :
  occurrences (String x pat) (split_head (String x pat) s) = 0%nat.
Proof.
  induction s as [|c s IH]; [reflexivity|].
  cbn [split_head]. destruct (starts (String x pat) (String c s)) eqn:E; [reflexivity|].
  cbn [occurrences]. rewrite IH.
  destruct (starts (String x pat) (String c (split_head (String x pat) s))) eqn:E2;
    [|reflexivity].
  destruct (split_head_prefix (String x pat) s) as [b Hb].
  apply (starts_app _ _ b) in E2. simpl append in E2. rewrite <- Hb in E2. congruence.
Qed.

Lemma split_head_none (x : ascii) (pat s : string) :
  occurrences (String x pat) s = 0%nat -> split_head (String x pat) s = s.
Proof.
  induction s as [|c s IH]; [reflexivity|].
  intros H; apply occurrences_tail in H as [Hs H].
  cbn [split_head]. rewrite Hs, (IH H). reflexivity.
Qed.

Lemma starts_comment_cons (c : ascii) (r rest : string) :
  starts "//" (String c (r ++ "//" ++ rest)) = starts "//" (String c (r ++ "/")).
Proof. destruct r as [|c' r]; simpl; [|reflexivity]. reflexivity. Qed.

Lemma split_head_comment (code rest : string) :
  occurrences "//" (code ++ "/") = 0%nat ->
  split_head "//" (code ++ "//" ++ rest) = code.
Proof.
  induction code as [|c r IH]; [reflexivity|].
  change (String c r ++ "/") with (String c (r ++ "/")).
  intros H; apply occurrences_tail in H as [Hs H].
  change (String c r ++ "//" ++ rest) with (String c (r ++ "//" ++ rest)).
  cbn [split_head]. rewrite starts_comment_cons, Hs, (IH H). reflexivity.
Qed.

Lemma occurrences_substring (x : ascii) (pat s a t b : string) :
  occurrences (String x pat) s = 0%nat -> s = a ++ t ++ b ->
  occurrences (String x pat) t = 0%nat.
Proof.
  intros H ->. apply occurrences_app_r in H. apply occurrences_app_l in H. exact H.
Qed.

Lemma line_tokens (line : string) :
  Forall token_ok (py_split (strip (split_head "//" line))).
Proof.
  rewrite py_split_strip.
  pose proof (py_split_tokens (split_head "//" line)) as H1.
  pose proof (py_split_substrings (split_head "//" line)) as H2.
  pose proof (split_head_free "/" "/" line) as H3.
  rewrite Forall_forall in *. intros t Hin.
  destruct (H1 t Hin) as [Ha Hb]. destruct (H2 t Hin) as (a & b & Hab).
  split; [exact Ha | split; [exact Hb|]].
  exact (occurrences_substring _ _ _ _ _ _ H3 Hab).
Qed.

(** X1.  Whatever the text of the file, every token of every command
    that [Parser.__init__] loads is a non-empty string that holds no
    white space (no line feed in particular) and no comment mark [//]. *)
Theorem Parser_init_tokens (text : string) :
  Forall (Forall token_ok) (commands (Parser_init text)).
Proof.
  unfold Parser_init; cbn [commands].
  apply Forall_forall. intros c Hin.
  apply in_map_iff in Hin as (line & <- & _).
  apply line_tokens.
Qed.

Lemma Parser_init_app (a b : string) :
  commands (Parser_init (a ++ String LF b))
  = (commands (Parser_init (a ++ String LF ""))
     ++ commands (Parser_init b))%list.
Proof.
  unfold Parser_init; cbn [commands].
  rewrite readlines_app, filter_app, map_app. reflexivity.
Qed.

Lemma readlines_all (f : ascii -> bool) (s : string) :
  Hack.all_chars f s = true -> Forall (fun l => Hack.all_chars f l = true) (readlines s).
Proof.
  induction s as [|c s IH]; [constructor|].
  simpl. intros H; apply andb_prop in H as [Hc Hs]. specialize (IH Hs).
  destruct (Ascii.eqb_spec c LF) as [->|_].
  - constructor; [simpl; rewrite Hc; reflexivity | exact IH].
  - destruct (readlines s) as [|l ls].
    + constructor; [simpl; rewrite Hc; reflexivity | constructor].
    + inversion IH; subst. constructor; [simpl; rewrite Hc; assumption | assumption].
Qed.

Lemma no_lf_app (a b : string) : no_lf (a ++ b) = (no_lf a && no_lf b)%bool.
Proof. apply all_chars_app. Qed.

(** X2.  [Parser.__init__] reads the text line by line: what a line
    contributes does not depend on the lines after it.  A text that is
    all white space (blank lines) contributes no command, and neither
    does a line that begins with [//]. *)
Theorem Parser_init_skips_blank_and_comment_lines (a b blank note : string) :
  commands (Parser_init (a ++ String LF b))
  = (commands (Parser_init (a ++ String LF ""))
     ++ commands (Parser_init b))%list
  /\ (Hack.all_chars is_space blank = true ->
      commands (Parser_init blank) = [])
  /\ (no_lf note = true ->
      commands (Parser_init ("//" ++ note ++ String LF "")) = []).
Proof.
  split; [apply Parser_init_app|]. split.
  - intros H. unfold Parser_init; cbn [commands].
    apply readlines_all in H. induction H as [|l ls Hl _ IH]; [reflexivity|].
    cbn [filter]. rewrite strip_empty, Hl. exact IH.
  - intros H. unfold Parser_init; cbn [commands].
    change ("//" ++ note ++ String LF "") with (("//" ++ note) ++ String LF "").
    rewrite (readlines_line ("//" ++ note)) by exact H.
    cbn [filter]. replace (starts "//" (("//" ++ note) ++ String LF "")) with true
      by reflexivity.
    rewrite andb_false_r. reflexivity.
Qed.

Lemma Parser_init_skips_blank_and_comment_lines_witness :
  commands (Parser_init (py "  \n\n \n")) = []
  /\ commands (Parser_init (py "// push constant 1\n")) = [].
Proof.
  destruct (Parser_init_skips_blank_and_comment_lines
              "add" "neg" (py "  \n\n \n") " push constant 1") as (_ & H1 & H2).
  split; [apply H1; reflexivity | apply H2; reflexivity].
Defined.

Lemma starts_comment_code (code rest : string) :
  occurrences "//" (code ++ "/") = 0%nat ->
  starts "//" (code ++ "//" ++ rest) = negb (py_bool code).
Proof.
  destruct code as [|c r]; [reflexivity|].
  change (String c r ++ "/") with (String c (r ++ "/")).
  intros H; apply occurrences_tail in H as [Hs _].
  change (String c r ++ "//" ++ rest) with (String c (r ++ "//" ++ rest)).
  rewrite starts_comment_cons. exact Hs.
Qed.

Lemma comment_not_blank (code rest : string) :
  Hack.all_chars is_space (code ++ "//" ++ rest) = false.
Proof. rewrite all_chars_app. simpl. apply andb_false_r. Qed.

(** X3.  A comment that follows code on a line is cut off: the line
    [code // note] loads as the tokens of [code] (here [code] holds no
    comment mark of its own and does not end in a slash).  The line is
    dropped only if [code] is empty; if [code] is white space, so that
    the comment is indented, the line is kept as a command with no
    token. *)
Theorem Parser_init_trailing_comment (code note : string) :
  no_lf code = true ->
  no_lf note = true ->
  occurrences "//" (code ++ "/") = 0%nat ->
  commands (Parser_init (code ++ "//" ++ note ++ String LF ""))
  = (if py_bool code then [py_split code] else [])
  /\ (Hack.all_chars is_space code = true -> py_split code = []).
Proof.
  intros Hc Hn Ho. split; [|apply py_split_spaces].
  unfold Parser_init; cbn [commands].
  replace (code ++ "//" ++ note ++ String LF "")
    with ((code ++ "//" ++ note) ++ String LF "")
    by (rewrite !append_assoc; reflexivity).
  rewrite readlines_line
    by (rewrite !no_lf_app, Hc, Hn; reflexivity).
  cbn [filter]. rewrite strip_empty.
  replace ((code ++ "//" ++ note) ++ String LF "")
    with (code ++ "//" ++ (note ++ String LF ""))
    by (rewrite !append_assoc; reflexivity).
  rewrite (starts_comment_code _ _ Ho), negb_involutive, comment_not_blank.
  cbn [negb andb].
  destruct (py_bool code); [|reflexivity].
  cbn [List.map]. rewrite (split_head_comment _ _ Ho), py_split_strip. reflexivity.
Qed.

Lemma Parser_init_trailing_comment_witness :
  commands (Parser_init (py "pop local 2 // store\n")) = [["pop"; "local"; "2"]]
  /\ commands (Parser_init (py "    // indented\n")) = [[]].
Proof.
  split.
  - apply (Parser_init_trailing_comment "pop local 2 " " store"); reflexivity.
  - apply (Parser_init_trailing_comment "    " " indented"); reflexivity.
Defined.

(** ** Printing a program and loading it again *)

Lemma py_split_token_app (t s : string) :
  t <> "" ->
  Hack.all_chars (fun c => negb (is_space c)) t = true ->
  (s = "" \/ exists c r, s = String c r /\ is_space c = true) ->
  py_split (t ++ s) = t :: py_split s.
Proof.
  intros Ht Hall Hs. induction t as [|c t IH]; [congruence|].
  simpl in Hall. apply andb_prop in Hall as [Hc Hall].
  apply negb_true_iff in Hc.
  change (String c t ++ s) with (String c (t ++ s)).
  rewrite py_split_step, Hc.
  destruct t as [|c2 t2].
  - cbn [append]. destruct Hs as [->|(c' & r & -> & Hsp)]; [reflexivity|].
    rewrite Hsp. reflexivity.
  - change (String c2 t2 ++ s) with (String c2 (t2 ++ s)) in *.
    simpl in Hall. apply andb_prop in Hall as [Hc2 Hall2].
    apply negb_true_iff in Hc2. rewrite Hc2.
    rewrite IH; [reflexivity | discriminate |].
    simpl. rewrite Hc2, Hall2. reflexivity.
Qed.

Lemma py_join_cons (sep a b : string) (r : list string) :
  py_join sep (a :: b :: r) = a ++ sep ++ py_join sep (b :: r).
Proof. reflexivity. Qed.

Lemma py_split_join (c : list string) (s : string) :
  Forall token_ok c ->
  (s = "" \/ exists x r, s = String x r /\ is_space x = true) ->
  py_split (py_join " " c ++ s) = (c ++ py_split s)%list.
Proof.
  intros Hc Hs. induction Hc as [|a r (Ha1 & Ha2 & _) Hr IH]; [reflexivity|].
  destruct r as [|b r].
  - cbn [py_join List.app]. apply py_split_token_app; assumption.
  - rewrite py_join_cons, !append_assoc.
    rewrite py_split_token_app; [|assumption|assumption|].
    + cbn [append]. rewrite py_split_step.
      replace (is_space " ") with true by reflexivity.
      rewrite IH. reflexivity.
    + right. eexists _, _. split; reflexivity.
Qed.

Lemma occurrences_sep (a b : string) (x : ascii) :
  x <> "/"%char ->
  occurrences "//" a = 0%nat -> occurrences "//" b = 0%nat ->
  occurrences "//" (a ++ String x b) = 0%nat.
Proof.
  intros Hx Ha Hb.
  assert (Ex : Ascii.eqb "/" x = false)
    by (apply Ascii.eqb_neq; congruence).
  induction a as [|c a IH].
  - cbn [append occurrences starts]. rewrite Ex, Hb. reflexivity.
  - apply occurrences_tail in Ha as [Hs Ha].
    change (String c a ++ String x b) with (String c (a ++ String x b)).
    cbn [occurrences]. rewrite (IH Ha), Nat.add_0_r.
    destruct a as [|c2 a2].
    + cbn [append starts]. rewrite Ex, andb_false_r. reflexivity.
    + cbn [append starts] in *. rewrite andb_true_r in *. rewrite Hs. reflexivity.
Qed.

Lemma py_join_free (c : list string) :
  Forall token_ok c -> occurrences "//" (py_join " " c) = 0%nat.
Proof.
  intros Hc. induction Hc as [|a r (_ & _ & Ha) Hr IH]; [reflexivity|].
  destruct r as [|b r]; [exact Ha|].
  rewrite py_join_cons. cbn [append].
  apply occurrences_sep; [discriminate | exact Ha | exact IH].
Qed.

Lemma space_lf (c : ascii) : negb (is_space c) = true -> negb (Ascii.eqb c LF) = true.
Proof.
  destruct (Ascii.eqb_spec c LF) as [->|_]; [|reflexivity].
  intros H; exact H.
Qed.

Lemma py_join_no_lf (c : list string) :
  Forall token_ok c -> no_lf (py_join " " c) = true.
Proof.
  intros Hc. induction Hc as [|a r (_ & Ha & _) Hr IH]; [reflexivity|].
  assert (Hlf : no_lf a = true)
    by (unfold no_lf; eapply all_chars_weaken; [apply space_lf | exact Ha]).
  destruct r as [|b r]; [exact Hlf|].
  rewrite py_join_cons, !no_lf_app, Hlf, IH. reflexivity.
Qed.

Lemma py_join_first (a : string) (r : list string) :
  token_ok a ->
  exists c rest, py_join " " (a :: r) = String c rest /\ is_space c = false.
Proof.
  intros (Ha & Hall & _). destruct a as [|c a]; [congruence|].
  simpl in Hall. apply andb_prop in Hall as [Hc _]. apply negb_true_iff in Hc.
  destruct r as [|b r].
  - exists c, a. split; [reflexivity | exact Hc].
  - rewrite py_join_cons. eexists c, _. split; [reflexivity | exact Hc].
Qed.

Lemma Parser_init_printed_line (c : list string) :
  c <> [] -> Forall token_ok c ->
  commands (Parser_init (py_join " " c ++ String LF "")) = [c].
Proof.
  intros Hne Hc. unfold Parser_init; cbn [commands].
  rewrite readlines_line by (apply py_join_no_lf, Hc).
  assert (Hfree : occurrences "//" (py_join " " c ++ String LF "") = 0%nat)
    by (apply occurrences_sep;
        [discriminate | apply py_join_free, Hc | reflexivity]).
  destruct c as [|a r]; [congruence|].
  destruct (py_join_first a r) as (x & rest & Hj & Hx);
    [inversion Hc; assumption|].
  cbn [filter]. rewrite strip_empty.
  assert (Hstart : starts "//" (py_join " " (a :: r) ++ String LF "") = false).
  { rewrite Hj in *. apply occurrences_tail in Hfree as [Hs _]. exact Hs. }
  rewrite Hstart.
  replace (Hack.all_chars is_space (py_join " " (a :: r) ++ String LF "")) with false
    by (rewrite Hj; simpl; rewrite Hx; reflexivity).
  cbn [negb andb List.map].
  rewrite (split_head_none _ _ _ Hfree), py_split_strip.
  rewrite py_split_join;
    [ | exact Hc | right; eexists _, _; split; reflexivity ].
  change (py_split (String LF "")) with (@nil string).
  rewrite List.app_nil_r. reflexivity.
Qed.

(** X4.  Printing and loading are inverse: a list of commands, none
    empty and each made of well-formed tokens, written one command per
    line with its tokens separated by a space, is loaded by
    [Parser.__init__] as the same list. *)
Theorem Parser_init_round_trip (cmds : list (list string)) :
  Forall (fun c => c <> [] /\ Forall token_ok c) cmds ->
  commands (Parser_init (unlines (List.map (py_join " ") cmds))) = cmds.
Proof.
  intros H. induction H as [|c cmds [Hne Hc] _ IH]; [reflexivity|].
  cbn [List.map unlines]. rewrite Parser_init_app, IH.
  rewrite (Parser_init_printed_line c Hne Hc). reflexivity.
Qed.

Lemma Parser_init_round_trip_witness :
  commands (Parser_init (py "push constant 7\npop that 0\nadd\n"))
  = [["push"; "constant"; "7"]; ["pop"; "that"; "0"]; ["add"]].
Proof.
  apply (Parser_init_round_trip
           [["push"; "constant"; "7"]; ["pop"; "that"; "0"]; ["add"]]).
  repeat constructor; discriminate.
Defined.

(** * The translate loop *)

(** X5.  A command with no token (what an indented comment line loads
    as) stops [src/VMTranslator.py] with an [IndexError], raised by
    [commandType] after the commands before it have been translated;
    [src/main.py] tests for it and passes over it, so its output is the
    one of the program without that command. *)
Theorem empty_command_stops_VMTranslator_only
    (pre post : list (list string)) (w : CodeWriter) :
  VMTranslatorPy.translate_loop (pre ++ [] :: post)%list w
  = match VMTranslatorPy.translate_loop pre w with
    | (Ok _, w') => (Raise IndexError, w')
    | (Raise e, w') => (Raise e, w')
    end
  /\ MainPy.translate_loop (pre ++ [] :: post)%list w
     = MainPy.translate_loop (pre ++ post)%list w.
Proof.
  rewrite vmt_loop_app, !main_loop_app. split.
  - destruct (VMTranslatorPy.translate_loop pre w) as [[[]|e] w']; reflexivity.
  - destruct (MainPy.translate_loop pre w) as [[[]|e] w']; reflexivity.
Qed.

(** ** One turn of the loop *)

Lemma writer_unchanged (w : CodeWriter) :
  mkCodeWriter (file w ++ unlines []) (label_count w + 0) = w.
Proof. destruct w as [f n]. simpl. rewrite append_nil_r, Z.add_0_r. reflexivity. Qed.

Lemma not_arithmetic_not_comparison (c0 : string) :
  py_in c0 arithmetic_words = false -> is_comparison c0 = false.
Proof.
  intros H. destruct (is_comparison c0) eqn:E; [|reflexivity].
  apply is_comparison_arithmetic in E. congruence.
Qed.


Lemma dispatch_spec (p : program) (rest : list (list string)) (c : list string)
    (w : CodeWriter) :
  dispatch_of p (mkParser rest (Some c)) w
  = match command_lines p c (label_count w) with
    | Ok ls =>
        (Ok tt, mkCodeWriter (file w ++ unlines ls)
                  (label_count w + (if is_comparison_command c then 1 else 0)))
    | Raise e => (Raise e, w)
    end.
Proof.
  destruct p.
  - destruct c as [|c0 args]; [reflexivity|].
    unfold dispatch_of, command_lines, VMTranslatorPy.dispatch, VMTranslatorPy.arg1,
      VMTranslatorPy.arg2, VMTranslatorPy.commandType, bind, lift.
    cbn [current_command tok nth_error is_comparison_command direct_of via_of
         segment_error].
    destruct (py_in c0 arithmetic_words) eqn:Ea; cbn [command_type_eqb].
    + rewrite vmt_writeArithmetic_spec.
      destruct (arithmetic_lines c0 (label_count w)); [|reflexivity].
      destruct (is_comparison c0); [reflexivity | rewrite Z.add_0_r; reflexivity].
    + rewrite (not_arithmetic_not_comparison _ Ea).
      destruct (String.eqb c0 "push"); cbn [command_type_eqb orb].
      { destruct args as [|a1 [|a2 args]]; cbn [tok nth_error]; try reflexivity.
        unfold int_of. destruct (py_int a2); [|reflexivity].
        rewrite vmt_writePush_spec.
        destruct (push_lines _ _ _); [rewrite Z.add_0_r|]; reflexivity. }
      destruct (String.eqb c0 "pop"); cbn [command_type_eqb orb]; [|reflexivity].
      destruct args as [|a1 [|a2 args]]; cbn [tok nth_error]; try reflexivity.
      unfold int_of. destruct (py_int a2); [|reflexivity].
      rewrite vmt_writePop_spec.
      destruct (String.eqb_spec a1 "constant") as [->|_]; [reflexivity|].
      destruct (pop_lines _ _ _ _); [rewrite Z.add_0_r|]; reflexivity.
  - destruct c as [|c0 args];
      [cbn; unfold ret; rewrite writer_unchanged; reflexivity|].
    unfold dispatch_of, command_lines, MainPy.dispatch, MainPy.arg1,
      MainPy.arg2, MainPy.commandType, bind, lift.
    cbn [current_command tok nth_error is_comparison_command direct_of via_of
         segment_error].
    fold arithmetic_words.
    destruct (py_in c0 arithmetic_words) eqn:Ea; cbn [MainPy.is_type command_type_eqb].
    + rewrite main_writeArithmetic_spec.
      destruct (arithmetic_lines c0 (label_count w)); [|reflexivity].
      destruct (is_comparison c0); [reflexivity | rewrite Z.add_0_r; reflexivity].
    + rewrite (not_arithmetic_not_comparison _ Ea).
      destruct (String.eqb c0 "push"); cbn [MainPy.is_type command_type_eqb orb].
      { destruct args as [|a1 [|a2 args]]; cbn [tok nth_error]; try reflexivity.
        unfold int_of. destruct (py_int a2); [|reflexivity].
        rewrite main_writePush_spec.
        destruct (push_lines _ _ _); [rewrite Z.add_0_r|]; reflexivity. }
      destruct (String.eqb c0 "pop"); cbn [MainPy.is_type command_type_eqb orb].
      { destruct args as [|a1 [|a2 args]]; cbn [tok nth_error]; try reflexivity.
        unfold int_of. destruct (py_int a2); [|reflexivity].
        rewrite main_writePop_spec.
        destruct (pop_lines _ _ _ _); [rewrite Z.add_0_r|]; reflexivity. }
      unfold py_in, control_words. cbn [existsb].
      repeat match goal with
        | |- context [String.eqb c0 ?k] =>
            destruct (String.eqb c0 k);
            [ cbn; unfold ret; rewrite writer_unchanged; reflexivity
            | cbn [orb MainPy.is_type command_type_eqb] ]
        end.
      reflexivity.
Qed.

Lemma loop_cons (p : program) (c : list string) (rest : list (list string))
    (w : CodeWriter) :
  loop_of p (c :: rest) w
  = match dispatch_of p (mkParser rest (Some c)) w with
    | (Ok _, w') => loop_of p rest w'
    | (Raise e, w') => (Raise e, w')
    end.
Proof. destruct p; reflexivity. Qed.

Lemma loop_nil (p : program) (w : CodeWriter) : loop_of p [] w = (Ok tt, w).
Proof. destruct p; reflexivity. Qed.

Lemma translate_of_loop (p : program) (input : list (list string)) :
  translate_of p input = loop_of p input (initial_writer p).
Proof.
  destruct p; [reflexivity|].
  unfold translate_of, MainPy.translate, initial_writer.
  rewrite main_init_state. reflexivity.
Qed.

(** X6.  The loop of [translate], run as the source writes it with
    [hasMoreCommands] and [advance], ends: as many turns as there are
    commands suffice.  It ends with no command left, or at the first
    command whose translation raises, and its effect on the writer is
    that of translating the commands in order. *)
Theorem translate_while_ends (p : program) (fuel : nat) (parser : Parser)
    (w : CodeWriter) :
  (List.length (commands parser) <= fuel)%nat ->
  match loop_of p (commands parser) w with
  | (Ok _, w') =>
      exists parser',
        translate_while (dispatch_of p) fuel parser w = (Ok (Some parser'), w')
        /\ hasMoreCommands parser' = false
  | (Raise e, w') =>
      translate_while (dispatch_of p) fuel parser w = (Raise e, w')
  end.
Proof.
  revert parser w. induction fuel as [|k IH]; intros [cmds cur] w Hlen;
    cbn [commands] in *.
  - destruct cmds; [|simpl in Hlen; lia].
    rewrite loop_nil. eexists. split; reflexivity.
  - destruct cmds as [|c rest].
    + rewrite loop_nil. eexists. split; reflexivity.
    + rewrite loop_cons. cbn [translate_while hasMoreCommands commands advance].
      unfold bind.
      destruct (dispatch_of p (mkParser rest (Some c)) w) as [[[]|e] w1];
        [|reflexivity].
      apply (IH (mkParser rest (Some c)) w1). simpl in Hlen. cbn [commands]. lia.
Qed.

Lemma translate_while_ends_witness :
  exists parser',
    translate_while VMTranslatorPy.dispatch 5
      (Parser_init (py "push constant 2\nneg\n")) (mkCodeWriter "" 0)
    = (Ok (Some parser'),
       mkCodeWriter
         (py "@2\nD=A\n@SP\nA=M\nM=D\n@SP\nM=M+1\n@SP\nA=M-1\nM=-M\n") 0)
    /\ hasMoreCommands parser' = false.
Proof.
  apply (translate_while_ends VMTranslator_py 5
           (Parser_init (py "push constant 2\nneg\n")) (mkCodeWriter "" 0)).
  vm_compute. lia.
Defined.

Lemma loop_failure (p : program) (input : list (list string))
    (w w' : CodeWriter) (e : exn) :
  loop_of p input w = (Raise e, w') ->
  exists pre c post,
    input = (pre ++ c :: post)%list
    /\ loop_of p pre w = (Ok tt, w')
    /\ command_lines p c (label_count w') = Raise e.
Proof.
  revert w. induction input as [|c rest IH]; intros w.
  - rewrite loop_nil. discriminate.
  - rewrite loop_cons, dispatch_spec.
    destruct (command_lines p c (label_count w)) as [ls|e0] eqn:E.
    + intros H. destruct (IH _ H) as (pre & c' & post & -> & Hpre & Hc).
      exists (c :: pre), c', post. split; [reflexivity|]. split; [|exact Hc].
      cbn [List.app]. rewrite loop_cons, dispatch_spec, E. exact Hpre.
    + intros [= <- <-]. exists [], c, rest.
      split; [reflexivity|]. split; [apply loop_nil | exact E].
Qed.

(** X7.  A run that raises stops at the first command whose translation
    raises: the output and the label counter are exactly those of
    translating the commands before it, the failing command itself
    writes nothing, and no later command is looked at. *)
Theorem translation_stops_at_first_failure (p : program)
    (input : list (list string)) (w w' : CodeWriter) (e : exn) :
  loop_of p input w = (Raise e, w') ->
  exists pre c post,
    input = (pre ++ c :: post)%list
    /\ loop_of p pre w = (Ok tt, w')
    /\ (forall post', dispatch_of p (mkParser post' (Some c)) w' = (Raise e, w'))
    /\ (forall post', loop_of p (pre ++ c :: post')%list w = (Raise e, w')).
Proof.
  intros H. destruct (loop_failure _ _ _ _ _ H) as (pre & c & post & -> & Hpre & Hc).
  exists pre, c, post. split; [reflexivity|]. split; [exact Hpre|].
  assert (Hd : forall post', dispatch_of p (mkParser post' (Some c)) w' = (Raise e, w'))
    by (intros post'; rewrite dispatch_spec, Hc; reflexivity).
  split; [exact Hd|].
  intros post'. clear H. revert w Hpre.
  induction pre as [|c1 pre IH]; intros w Hpre.
  - rewrite loop_nil in Hpre. injection Hpre as ->.
    cbn [List.app]. rewrite loop_cons, Hd. reflexivity.
  - cbn [List.app] in *. rewrite loop_cons in *.
    destruct (dispatch_of p (mkParser pre (Some c1)) w) as [[[]|e1] w1] eqn:E1;
      [|discriminate].
    assert (E2 : dispatch_of p (mkParser (pre ++ c :: post')%list (Some c1)) w
                 = (Ok tt, w1)).
    { rewrite dispatch_spec in *.
      destruct (command_lines p c1 (label_count w)); [exact E1 | discriminate]. }
    rewrite E2. apply IH. exact Hpre.
Qed.

Lemma translation_stops_at_first_failure_witness :
  exists pre c post,
    [["push"; "constant"; "1"]; ["pop"; "constant"; "0"]; ["add"]]
    = (pre ++ c :: post)%list
    /\ VMTranslatorPy.translate_loop pre (mkCodeWriter "" 0)
       = (Ok tt, mkCodeWriter (py "@1\nD=A\n@SP\nA=M\nM=D\n@SP\nM=M+1\n") 0).
Proof.
  destruct (translation_stops_at_first_failure VMTranslator_py
              [["push"; "constant"; "1"]; ["pop"; "constant"; "0"]; ["add"]]
              (mkCodeWriter "" 0)
              (mkCodeWriter (py "@1\nD=A\n@SP\nA=M\nM=D\n@SP\nM=M+1\n") 0)
              ValueError eq_refl) as (pre & c & post & H1 & H2 & _).
  exists pre, c, post. split; [exact H1 | exact H2].
Defined.

Lemma command_lines_errors (p : program) (c : list string) (n : Z) (e : exn) :
  command_lines p c n = Raise e ->
  e = IndexError \/ e = ValueError \/ (p = Main_py /\ e = UnboundLocalError).
Proof.
  assert (Hseg : segment_error p = ValueError
                 \/ (p = Main_py /\ segment_error p = UnboundLocalError))
    by (destruct p; [left | right]; auto).
  unfold command_lines.
  repeat match goal with
    | |- Raise ?x = Raise _ -> _ =>
        intros [= <-]; first [ left; reflexivity | right; left; reflexivity | idtac ]
    | |- Ok _ = Raise _ -> _ => discriminate
    | |- context [match ?x with _ => _ end] => destruct x
    end.
  all: destruct Hseg as [->|[-> ->]]; auto.
Qed.

(** X8.  The only exceptions a run can end with are [IndexError] (a
    token is missing), [ValueError] (an unknown command, an index that
    is no numeral, an unknown segment or [pop constant] in
    [src/VMTranslator.py]) and, in [src/main.py] only,
    [UnboundLocalError] (a segment the writer does not know).  The
    look-ups in the operator tables never fail with [KeyError], and the
    current command is never read before it is set ([TypeError]). *)
Theorem translation_exceptions (p : program) (input : list (list string))
    (w w' : CodeWriter) (e : exn) :
  loop_of p input w = (Raise e, w') ->
  e = IndexError \/ e = ValueError \/ (p = Main_py /\ e = UnboundLocalError).
Proof.
  intros H. destruct (loop_failure _ _ _ _ _ H) as (pre & c & post & _ & _ & Hc).
  exact (command_lines_errors _ _ _ _ Hc).
Qed.

Lemma translation_exceptions_witness :
  UnboundLocalError = IndexError \/ UnboundLocalError = ValueError
  \/ (Main_py = Main_py /\ UnboundLocalError = UnboundLocalError).
Proof.
  apply (translation_exceptions Main_py [["push"; "heap"; "0"]]
           (mkCodeWriter "" 0) (mkCodeWriter "" 0) UnboundLocalError).
  reflexivity.
Defined.

(** X9.  One turn of the loop reads at most the first three tokens of
    the command: whatever follows them on the line has no effect, so a
    line with surplus tokens is translated like the line without. *)
Theorem only_three_tokens_are_read (p : program) (c : list string)
    (rest rest' : list (list string)) (w : CodeWriter) :
  dispatch_of p (mkParser rest (Some c)) w
  = dispatch_of p (mkParser rest' (Some (firstn 3 c))) w.
Proof.
  rewrite !dispatch_spec.
  destruct c as [|c0 [|a1 [|a2 [|a3 r]]]]; reflexivity.
Qed.





(** * The path of the output file *)

Lemma replace_from_none (x : ascii) (pat new s : string) :
  occurrences (String x pat) s = 0%nat ->
  replace_from (String x pat) new 0 s = s.
Proof.
  induction s as [|c s IH]; [reflexivity|].
  intros H; apply occurrences_tail in H as [Hs H].
  cbn [replace_from]. rewrite Hs, (IH H). reflexivity.
Qed.

Lemma starts_vm_cons (c : ascii) (a b : string) :
  starts ".vm" (String c a) = false ->
  starts ".vm" (String c (a ++ ".vm" ++ b)) = false.
Proof.
  destruct a as [|c2 [|c3 a]]; cbn [append starts];
    repeat match goal with
      | |- context [Ascii.eqb ?x ?y] =>
          destruct (Ascii.eqb_spec x y); subst; cbn [andb]
      end; congruence.
Qed.

Lemma output_file_app (a b : string) :
  occurrences ".vm" a = 0%nat ->
  output_file (a ++ ".vm" ++ b) = a ++ ".asm" ++ output_file b.
Proof.
  unfold output_file, py_replace.
  induction a as [|c a IH]; [reflexivity|].
  intros H; apply occurrences_tail in H as [Hs H].
  change (String c a ++ ".vm" ++ b) with (String c (a ++ ".vm" ++ b)).
  cbn [replace_from]. rewrite (starts_vm_cons _ _ b Hs), (IH H). reflexivity.
Qed.

(** X11.  [VMTranslator.__init__] derives the path of the output from
    the path of the input by replacing every [.vm] in it, not only a
    final one, by [.asm] (so a [.vm] in a directory name is replaced
    too).  A path that holds no [.vm] is left as it is: the output file
    is then the input file itself. *)
Theorem output_file_replaces_every_vm (a b : string) :
  occurrences ".vm" a = 0%nat ->
  output_file a = a
  /\ output_file (a ++ ".vm") = a ++ ".asm"
  /\ output_file (a ++ ".vm" ++ b) = a ++ ".asm" ++ output_file b.
Proof.
  intros H. split; [apply replace_from_none, H|].
  split; [|apply output_file_app, H].
  apply (output_file_app a "" H).
Qed.

Lemma output_file_replaces_every_vm_witness :
  output_file "lib/Main" = "lib/Main"
  /\ output_file "lib/Main.vm" = "lib/Main.asm".
Proof.
  destruct (output_file_replaces_every_vm "lib/Main" "" eq_refl) as (H1 & H2 & _).
  split; [exact H1 | exact H2].
Defined.

(** * The output as assembly text *)

Lemma parse_lines_all (ls : list string) :
  Forall (fun l => exists oi, Hack.parse_line l = Some oi) ls ->
  exists items, Hack.parse_lines ls = Some items.
Proof.
  induction 1 as [|l ls [oi Hl] _ [items IH]]; [eexists; reflexivity|].
  cbn [Hack.parse_lines]. rewrite Hl, IH. destruct oi; eexists; reflexivity.
Qed.

Lemma static_symbol (i : Z) :
  0 <= i -> Hack.valid_symbol ("Static." ++ py_str i) = true.
Proof.
  intros Hi. simpl.
  apply (all_chars_weaken is_digit); [apply digit_symbol_char|].
  now apply py_str_digits.
Qed.

Lemma parse_line_static (i : Z) :
  0 <= i ->
  Hack.parse_line (String "@" ("Static." ++ py_str i))
  = Some (Some (Hack.IA (Hack.ASym ("Static." ++ py_str i)))).
Proof.
  intros Hi. rewrite parse_line_at_prefixed by reflexivity.
  rewrite static_symbol by exact Hi. reflexivity.
Qed.

(** A line [@n] with [n] in range, a line that names a generated
    symbol, or a line without variable part. *)
Ltac line_parses :=
  first
    [ match goal with
      | |- exists oi, Hack.parse_line (String "@" (py_str ?z)) = Some oi =>
          rewrite (parse_line_at_num z);
          replace ((0 <=? z) && (z <=? 32767))%bool with true
            by (symmetry; apply andb_true_intro; split; apply Z.leb_le; lia);
          eexists; reflexivity
      end
    | eexists; apply parse_line_static; lia
    | rewrite parse_line_at_prefixed by reflexivity;
      match goal with
      | H : Hack.valid_symbol ?s = true |- context [Hack.valid_symbol ?s] =>
          rewrite H; eexists; reflexivity
      end
    | rewrite parse_line_label;
      match goal with
      | H : Hack.valid_symbol ?s = true |- context [Hack.valid_symbol ?s] =>
          rewrite H; eexists; reflexivity
      end
    | eexists; vm_compute; reflexivity ].

Ltac lines_parse :=
  repeat (apply Forall_cons; [line_parses|]); apply Forall_nil.

Lemma arithmetic_lines_parse (c0 : string) (n : Z) (ls : list string) :
  arithmetic_lines c0 n = Some ls -> 0 <= n ->
  Forall (fun l => exists oi, Hack.parse_line l = Some oi) ls.
Proof.
  intros H Hn. destruct (comparison_label_symbol n Hn) as [Ht He].
  revert H. unfold arithmetic_lines.
  repeat match goal with
    | |- context [String.eqb c0 ?k] =>
        destruct (String.eqb c0 k);
        [ intros [= <-];
          unfold binary_lines, unary_lines, comparison_lines; lines_parse |]
    end.
  discriminate.
Qed.

(** Case analysis on a segment name, in the order of the tests. *)
Ltac on_key x k tac :=
  match goal with
  | |- context [String.eqb x k] =>
      destruct (String.eqb x k); cbv beta iota; [tac|]
  end.

Ltac on_segments x tac :=
  try on_key x "constant" tac;
  on_key x "local" tac; on_key x "argument" tac;
  on_key x "this" tac; on_key x "that" tac;
  on_key x "temp" tac; on_key x "pointer" tac; on_key x "static" tac.

Lemma push_lines_parse (p : program) (segment : string) (i : Z) (ls : list string) :
  push_lines (direct_of p) segment i = Some ls -> 0 <= i <= 32751 ->
  Forall (fun l => exists oi, Hack.parse_line l = Some oi) ls.
Proof.
  intros H Hi. revert H.
  unfold push_lines, base_register, direct_of, vmt_direct_operand,
    main_direct_operand.
  destruct p;
    on_segments segment
      ltac:(intros [= <-];
            unfold push_constant_lines, push_via_lines, push_direct_lines, push_tail;
            cbn [List.app]; try destruct (i =? 0); lines_parse);
    discriminate.
Qed.

Lemma pop_lines_parse (p : program) (segment : string) (i : Z) (ls : list string) :
  pop_lines (via_of p) (direct_of p) segment i = Some ls -> 0 <= i <= 32751 ->
  Forall (fun l => exists oi, Hack.parse_line l = Some oi) ls.
Proof.
  intros H Hi. revert H.
  unfold pop_lines, base_register, direct_of, via_of, vmt_direct_operand,
    main_direct_operand.
  destruct p;
    on_segments segment
      ltac:(intros [= <-];
            unfold vmt_pop_via_lines, main_pop_via_lines, pop_direct_lines, pop_tail;
            cbn [List.app]; try destruct (i =? 0); lines_parse);
    discriminate.
Qed.

Lemma command_lines_clean (p : program) (c : list string) (n : Z) (ls : list string) :
  command_lines p c n = Ok ls -> Forall (fun l => clean l = true) ls.
Proof.
  assert (Hd : forall segment index o,
             direct_of p segment index = Some o -> clean o = true)
    by (destruct p; [apply vmt_direct_clean | apply main_direct_clean]).
  assert (Hv : forall b index, clean b = true ->
             Forall (fun l => clean l = true) (via_of p b index)
             /\ Hack.labels_of_lines (via_of p b index) = [])
    by (destruct p; [apply vmt_via_clean | apply main_via_clean]).
  destruct c as [|c0 args]; [destruct p; [discriminate | intros [= <-]; constructor]|].
  unfold command_lines.
  destruct (py_in c0 arithmetic_words).
  { destruct (arithmetic_lines c0 n) as [l|] eqn:E; [|discriminate].
    intros [= <-]. apply (arithmetic_lines_facts _ _ _ E). }
  destruct (String.eqb c0 "push").
  { destruct args as [|a1 [|a2 args]]; try discriminate.
    destruct (py_int a2) as [i|]; [|discriminate].
    destruct (push_lines (direct_of p) a1 i) as [l|] eqn:E; [|discriminate].
    intros [= <-]. apply (push_lines_facts _ Hd _ _ _ E). }
  destruct (String.eqb c0 "pop").
  { destruct args as [|a1 [|a2 args]]; try discriminate.
    destruct (py_int a2) as [i|]; [|discriminate].
    destruct (pop_lines (via_of p) (direct_of p) a1 i) as [l|] eqn:E; [|discriminate].
    intros [= <-]. apply (pop_lines_facts _ _ Hd Hv _ _ _ E). }
  destruct p; [discriminate|].
  destruct (py_in c0 control_words); [intros [= <-]; constructor | discriminate].
Qed.

Lemma command_lines_parse (p : program) (c : list string) (n : Z) (ls : list string) :
  command_lines p c n = Ok ls -> 0 <= n -> index_in_range c = true ->
  Forall (fun l => exists oi, Hack.parse_line l = Some oi) ls.
Proof.
  intros H Hn Hr.
  destruct c as [|c0 args]; [destruct p; [discriminate | injection H as <-; constructor]|].
  revert H Hr. unfold command_lines, index_in_range.
  destruct (py_in c0 arithmetic_words).
  { destruct (arithmetic_lines c0 n) as [l|] eqn:E; [|discriminate].
    intros [= <-] _. apply (arithmetic_lines_parse _ _ _ E Hn). }
  change (py_in c0 ["push"; "pop"])
    with (String.eqb c0 "push" || (String.eqb c0 "pop" || false))%bool.
  destruct (String.eqb c0 "push").
  { destruct args as [|a1 [|a2 args]]; try discriminate.
    destruct (py_int a2) as [i|]; [|discriminate].
    destruct (push_lines (direct_of p) a1 i) as [l|] eqn:E; [|discriminate].
    intros [= <-] Hr. cbn [orb] in Hr. apply andb_prop in Hr as [H1 H2].
    apply Z.leb_le in H1, H2. apply (push_lines_parse _ _ _ _ E). lia. }
  destruct (String.eqb c0 "pop").
  { destruct args as [|a1 [|a2 args]]; try discriminate.
    destruct (py_int a2) as [i|]; [|discriminate].
    destruct (pop_lines (via_of p) (direct_of p) a1 i) as [l|] eqn:E; [|discriminate].
    intros [= <-] Hr. cbn [orb] in Hr. apply andb_prop in Hr as [H1 H2].
    apply Z.leb_le in H1, H2. apply (pop_lines_parse _ _ _ _ E). lia. }
  destruct p; [discriminate|].
  destruct (py_in c0 control_words); [intros [= <-] _; constructor | discriminate].
Qed.

Lemma loop_assembles (p : program) (input : list (list string))
    (w w' : CodeWriter) (L : list string) :
  loop_of p input w = (Ok tt, w') ->
  forallb index_in_range input = true ->
  0 <= label_count w ->
  file w = unlines L ->
  Forall (fun l => no_lf l = true) L ->
  Forall (fun l => exists oi, Hack.parse_line l = Some oi) L ->
  exists L',
    file w' = unlines L'
    /\ Forall (fun l => no_lf l = true) L'
    /\ Forall (fun l => exists oi, Hack.parse_line l = Some oi) L'.
Proof.
  revert w L. induction input as [|c rest IH]; intros w L.
  - rewrite loop_nil. intros [= <-] _ _ Hf Hn Hp. exists L. auto.
  - rewrite loop_cons, dispatch_spec. cbn [forallb].
    destruct (command_lines p c (label_count w)) as [ls|e] eqn:E; [|discriminate].
    intros Hloop Hr Hc Hf Hn Hp. apply andb_prop in Hr as [Hr1 Hr2].
    apply (IH _ (L ++ ls)%list Hloop Hr2).
    + cbn [label_count]. destruct (is_comparison_command c); lia.
    + cbn [file]. rewrite Hf, unlines_app. reflexivity.
    + apply Forall_app. split; [exact Hn|].
      eapply Forall_impl; [|exact (command_lines_clean _ _ _ _ E)].
      intros l. apply clean_no_lf.
    + apply Forall_app. split; [exact Hp|].
      exact (command_lines_parse _ _ _ _ E Hc Hr1).
Qed.

Lemma bootstrap_lines_parse :
  Forall (fun l => exists oi, Hack.parse_line l = Some oi)
    (init_lines ++ call_lines "Sys.init" 0 0).
Proof.
  unfold init_lines, call_lines. cbn [List.app].
  repeat (apply Forall_cons; [eexists; vm_compute; reflexivity|]). apply Forall_nil.
Qed.

(** X12.  The output of a run that ends normally is Hack assembly:
    provided the index of every [push] and [pop] lies between 0 and
    32751, the assembler accepts the whole text, bootstrap included,
    whatever the commands are. *)
Theorem output_is_assembly (p : program) (input : list (list string)) :
  fst (translate_of p input) = Ok tt ->
  forallb index_in_range input = true ->
  exists items,
    Hack.parse_asm (file (snd (translate_of p input))) = Some items.
Proof.
  rewrite translate_of_loop.
  destruct (loop_of p input (initial_writer p)) as [[[]|e] w'] eqn:E;
    [|discriminate].
  intros _ Hr. cbn [snd].
  assert (H : exists L,
             file (initial_writer p) = unlines L
             /\ 0 <= label_count (initial_writer p)
             /\ Forall (fun l => no_lf l = true) L
             /\ Forall (fun l => exists oi, Hack.parse_line l = Some oi) L).
  { destruct p.
    - exists []. repeat split; try constructor. discriminate.
    - exists (init_lines ++ call_lines "Sys.init" 0 0)%list.
      unfold initial_writer. rewrite main_init_state. cbn [snd file label_count].
      repeat split; [lia | apply bootstrap_lines_no_lf | apply bootstrap_lines_parse]. }
  destruct H as (L & Hf & Hc & Hn & Hp).
  destruct (loop_assembles _ _ _ _ _ E Hr Hc Hf Hn Hp) as (L' & -> & Hn' & Hp').
  rewrite parse_asm_unlines_no_lf by exact Hn'.
  apply parse_lines_all, Hp'.
Qed.

Lemma output_is_assembly_witness :
  exists items,
    Hack.parse_asm
      (file (snd (MainPy.translate
                    [["push"; "constant"; "7"]; ["push"; "static"; "3"]; ["lt"];
                     ["pop"; "that"; "2"]; ["call"; "Main.f"; "1"]])))
    = Some items.
Proof.
  apply (output_is_assembly Main_py
           [["push"; "constant"; "7"]; ["push"; "static"; "3"]; ["lt"];
            ["pop"; "that"; "2"]; ["call"; "Main.f"; "1"]]); reflexivity.
Defined.


(** * The call of [Sys.init] in the output of [src/main.py] *)

Lemma parse_cinstr_item (l : string) (i : Hack.item) :
  Hack.parse_cinstr l = Some i -> exists d c j, i = Hack.IC d c j.
Proof.
  unfold Hack.parse_cinstr.
  repeat match goal with
    | |- context [match ?x with _ => _ end] => destruct x
    end; intros [= <-] || discriminate; eauto.
Qed.

Ltac not_a_label :=
  first
    [ discriminate
    | unfold option_map; destruct (Hack.parse_aoperand _); discriminate
    | unfold option_map;
      let E := fresh "E" in
      destruct (Hack.parse_cinstr _) eqn:E;
      [apply parse_cinstr_item in E as (? & ? & ? & ->)|]; discriminate ].

(** Only a line [(name)] parses as the declaration of a label. *)
Lemma parse_line_label_inv (l name : string) :
  Hack.parse_line l = Some (Some (Hack.ILabel name)) ->
  Hack.label_of_line l = Some name.
Proof.
  destruct l as [|c r]; [discriminate|].
  destruct (Ascii.eqb_spec c "(") as [->|Hc].
  - cbn [Hack.parse_line Hack.label_of_line].
    destruct (Hack.strip_close r) as [s|]; [|discriminate].
    destruct (Hack.valid_symbol s); [intros [= <-]; reflexivity | discriminate].
  - destruct c as [[] [] [] [] [] [] [] []]; try (now destruct Hc);
      cbn [Hack.parse_line]; try not_a_label.
    destruct r as [|c2 r2]; [not_a_label|].
    destruct c2 as [[] [] [] [] [] [] [] []]; not_a_label.
Qed.

Lemma parse_lines_labels (L : list string) (items : list Hack.item) (name : string) :
  Hack.parse_lines L = Some items ->
  In (Hack.ILabel name) items -> In name (Hack.labels_of_lines L).
Proof.
  revert items. induction L as [|l L IH]; intros items Hp Hin.
  - injection Hp as <-. destruct Hin.
  - apply parse_lines_cons_inv in Hp as (oi & r & Hl & Hr & ->).
    cbn [Hack.labels_of_lines]. apply in_or_app.
    destruct oi as [i|]; [|right; eapply IH; eassumption].
    destruct Hin as [->|Hin]; [|right; eapply IH; eassumption].
    left. rewrite (parse_line_label_inv _ _ Hl). left. reflexivity.
Qed.

Lemma main_output_label (input : list (list string)) (l : string) :
  In l (Hack.declared_labels (file (snd (MainPy.translate input)))) ->
  l = "RETURN_0"
  \/ exists k, l = "TRUE_" ++ py_str k \/ l = "END_" ++ py_str k.
Proof.
  destruct (main_output_labels input) as [_ ->].
  intros [<-|H]; [left; reflexivity|].
  apply in_comparison_labels in H as (k & _ & H). right. eauto.
Qed.

Lemma main_output_text (input : list (list string)) :
  exists ls,
    file (snd (MainPy.translate input))
    = unlines ((init_lines ++ call_lines "Sys.init" 0 0) ++ ls)
    /\ Forall (fun l => no_lf l = true)
         ((init_lines ++ call_lines "Sys.init" 0 0) ++ ls).
Proof.
  destruct (main_output_lines input) as (ls & Hout & Hc & _).
  exists ls. split; [exact Hout|].
  apply Forall_app. split; [apply bootstrap_lines_no_lf|].
  eapply Forall_impl; [|exact Hc]. intros l. apply clean_no_lf.
Qed.

(** X14.  Every output of [src/main.py] ends its bootstrap with a jump
    to the symbol [Sys.init], and no output declares that symbol: the
    only labels a run declares are [RETURN_0] and those of comparisons,
    since [function] commands are not translated. *)
Theorem Sys_init_is_called_but_never_declared (input : list (list string)) :
  let out := file (snd (MainPy.translate input)) in
  (exists before after,
      Hack.lines out = (before ++ "@Sys.init" :: "0;JMP" :: after)%list
      /\ List.length before = 53%nat)
  /\ ~ In "Sys.init" (Hack.declared_labels out).
Proof.
  cbv zeta. split.
  - destruct (main_output_text input) as (ls & -> & Hn).
    rewrite <- (append_nil_r (unlines _)), lines_unlines by exact Hn.
    exists (firstn 53 (init_lines ++ call_lines "Sys.init" 0 0)),
      ((["(RETURN_0)"] ++ ls) ++ Hack.lines "")%list.
    split; reflexivity.
  - intros H. apply main_output_label in H as [H|(k & [H|H])]; discriminate H.
Qed.

(** ** Where the jump goes when the output is assembled on its own *)

Lemma dict_mem_label_pass (items : list Hack.item) (a : Z) (t : dict Z) (s : string) :
  dict_mem t s = true -> dict_mem (Hack.label_pass items a t) s = true.
Proof.
  revert a t. induction items as [|i items IH]; intros a t H; [exact H|].
  destruct i as [o|d c j|l]; cbn [Hack.label_pass]; try (now apply IH).
  apply IH. unfold dict_mem in *. cbn [dict_get].
  destruct (String.eqb s l); [reflexivity | exact H].
Qed.

Lemma dict_mem_declared (items : list Hack.item) (a : Z) (t : dict Z) (s : string) :
  In (Hack.ILabel s) items -> dict_mem (Hack.label_pass items a t) s = true.
Proof.
  revert a t. induction items as [|i items IH]; intros a t H; [destruct H|].
  destruct H as [->|H].
  - cbn [Hack.label_pass]. apply dict_mem_label_pass.
    unfold dict_mem. cbn [dict_get]. rewrite String.eqb_refl. reflexivity.
  - destruct i as [o|d c j|l]; cbn [Hack.label_pass]; now apply IH.
Qed.

(** Symbols that the table already holds allocate no variable. *)
Lemma var_pass_known (known rest : list Hack.item) (n : Z) (t : dict Z) :
  Forall (fun i => match i with
                   | Hack.IA (Hack.ASym s) => dict_mem t s = true
                   | _ => True
                   end) known ->
  Hack.var_pass (known ++ rest) n t = Hack.var_pass rest n t.
Proof.
  induction 1 as [|i known Hi _ IH]; [reflexivity|].
  cbn [List.app Hack.var_pass].
  destruct i as [[k|s]|d c j|l]; try exact IH.
  rewrite Hi. exact IH.
Qed.

(** A loop made of [k] instructions without jump, then [@v] and an
    unconditional jump, with [v] inside the loop: control never leaves
    it. *)
Lemma closed_loop (code rest : list Hack.instr) (k : nat) (v : Z)
    (d : Hack.dest) (c : Hack.comp) :
  forallb no_jump (firstn k code) = true ->
  nth_error code k = Some (Hack.AInstr v) ->
  nth_error code (S k) = Some (Hack.CInstr d c Hack.JMP) ->
  0 <= v <= Z.of_nat k ->
  forall (n : nat) (m : Hack.machine),
  0 <= Hack.pc m <= Z.of_nat (S k) ->
  (Hack.pc m = Z.of_nat (S k) -> Hack.regA m = v) ->
  exists m',
    Hack.run n (code ++ rest) m = Some m' /\ 0 <= Hack.pc m' <= Z.of_nat (S k).
Proof.
  intros Hj Ha Hc Hv.
  assert (Hfetch : forall j i, nth_error code j = Some i ->
             Hack.fetch (code ++ rest) (Z.of_nat j) = Some i).
  { intros j i H. apply fetch_nth. rewrite nth_error_app1; [exact H|].
    apply nth_error_Some. congruence. }
  assert (Hlen : (S k < List.length code)%nat)
    by (apply nth_error_Some; congruence).
  induction n as [|n IH]; intros m Hpc HA; [exists m; split; [reflexivity | exact Hpc]|].
  remember (Z.to_nat (Hack.pc m)) as j eqn:Ej.
  assert (Epc : Hack.pc m = Z.of_nat j) by lia.
  destruct (Nat.lt_trichotomy j k) as [Hlt|[->|Hgt]].
  - destruct (nth_error code j) as [i|] eqn:Ei;
      [|apply nth_error_None in Ei; lia].
    assert (Hi : no_jump i = true).
    { rewrite forallb_forall in Hj. apply Hj.
      apply (nth_error_In _ j). rewrite nth_error_firstn.
      destruct (Nat.ltb_spec j k); [exact Ei | lia]. }
    assert (Hn : Hack.pc (Hack.exec i m) = Hack.pc m + 1).
    { destruct i as [x|d' c' j']; [reflexivity|].
      destruct j'; try discriminate Hi. reflexivity. }
    rewrite (run_step n _ m i) by (rewrite Epc; apply Hfetch, Ei).
    apply IH; rewrite Hn; lia.
  - rewrite (run_step n _ m (Hack.AInstr v)) by (rewrite Epc; apply Hfetch, Ha).
    apply IH; cbn [Hack.exec Hack.pc Hack.regA]; [lia | reflexivity].
  - assert (Ek : j = S k) by lia. clear Ej. subst j.
    rewrite (run_step n _ m (Hack.CInstr d c Hack.JMP))
      by (rewrite Epc; apply Hfetch, Hc).
    apply IH; cbn [Hack.exec Hack.pc Hack.jump_taken]; rewrite (HA Epc); lia.
Qed.

Lemma bootstrap_items :
  exists known after,
    Hack.parse_lines (init_lines ++ call_lines "Sys.init" 0 0)
    = Some (known ++ Hack.IA (Hack.ASym "Sys.init") :: after)%list
    /\ Forall (fun i => match i with
                        | Hack.IA (Hack.ASym s) =>
                            s = "RETURN_0" \/ dict_mem Hack.predefined s = true
                        | _ => True
                        end) known
    /\ In (Hack.ILabel "RETURN_0") after
    /\ forall sigma,
         let code := Hack.resolve sigma
                       (known ++ Hack.IA (Hack.ASym "Sys.init") :: after)%list in
         List.length code = 53%nat
         /\ forallb no_jump (firstn 51 code) = true
         /\ nth_error code 51 = Some (Hack.AInstr (sigma "Sys.init"))
         /\ nth_error code 52 = Some (Hack.CInstr Hack.no_dest Hack.CZero Hack.JMP).
Proof.
  pose (items := match Hack.parse_lines (init_lines ++ call_lines "Sys.init" 0 0) with
                 | Some l => l
                 | None => []
                 end).
  exists (firstn 51 items), (skipn 52 items).
  split; [vm_compute; reflexivity|]. split.
  - vm_compute.
    repeat (apply Forall_cons;
            [first [exact I | left; reflexivity | right; reflexivity]|]).
    apply Forall_nil.
  - split; [vm_compute; auto|].
    intros sigma. vm_compute firstn. vm_compute skipn.
    cbn [List.app Hack.resolve Hack.resolve_operand].
    repeat split.
Qed.

Lemma sys_init_address (input : list (list string)) (items : list Hack.item) :
  Hack.parse_asm (file (snd (MainPy.translate input))) = Some items ->
  exists boot body,
    items = (boot ++ body)%list
    /\ Hack.parse_lines (init_lines ++ call_lines "Sys.init" 0 0) = Some boot
    /\ Hack.lookup (Hack.symbol_table items) "Sys.init" = 16.
Proof.
  intros Hp.
  assert (Hlab : forall l, In (Hack.ILabel l) items ->
             In l (Hack.declared_labels (file (snd (MainPy.translate input))))).
  { intros l Hl. destruct (main_output_text input) as (ls & Hout & Hn).
    rewrite Hout in Hp |- *.
    rewrite parse_asm_unlines_no_lf in Hp by exact Hn.
    rewrite declared_labels_unlines_no_lf by exact Hn.
    exact (parse_lines_labels _ _ _ Hp Hl). }
  destruct (main_output_text input) as (ls & Hout & Hn).
  rewrite Hout, parse_asm_unlines_no_lf, parse_lines_app in Hp by exact Hn.
  destruct bootstrap_items as (known & after & Hb & Hk & Hr & _).
  rewrite Hb in Hp.
  destruct (Hack.parse_lines ls) as [body|]; [|discriminate Hp].
  injection Hp as <-.
  exists (known ++ Hack.IA (Hack.ASym "Sys.init") :: after)%list, body.
  split; [reflexivity|]. split; [exact Hb|].
  unfold Hack.lookup, Hack.symbol_table.
  set (items := ((known ++ Hack.IA (Hack.ASym "Sys.init") :: after) ++ body)%list) in *.
  set (T0 := Hack.label_pass items 0 Hack.predefined).
  assert (Hnot : dict_mem T0 "Sys.init" = false).
  { unfold dict_mem, T0. rewrite dict_get_label_pass; [reflexivity|].
    intros l Hl ->. apply Hlab in Hl.
    apply main_output_label in Hl as [H|(k & [H|H])]; discriminate H. }
  assert (Hknown : Forall (fun i => match i with
                                    | Hack.IA (Hack.ASym s) => dict_mem T0 s = true
                                    | _ => True
                                    end) known).
  { eapply Forall_impl; [|exact Hk].
    intros [[k|s]|d c j|l]; try exact (fun _ => I).
    intros [->|H].
    - apply dict_mem_declared. unfold items.
      apply in_or_app. left. apply in_or_app. right. right. exact Hr.
    - apply dict_mem_label_pass, H. }
  unfold items at 1. rewrite <- List.app_assoc.
  rewrite (var_pass_known _ _ _ _ Hknown).
  cbn [List.app Hack.var_pass]. rewrite Hnot.
  erewrite dict_get_var_pass; [reflexivity|].
  cbn [dict_get]. reflexivity.
Qed.

(** X15.  Assembled on its own, an output of [src/main.py] never runs
    the code of the commands.  [Sys.init] is declared nowhere, so the
    assembler makes it a variable, the first one, at address 16; the
    jump that ends the bootstrap goes to instruction 16, in the middle
    of the bootstrap, and from there the same instructions run again
    without end.  The bootstrap is the first 53 instructions: started
    at address 0, the machine is still inside it after any number of
    steps. *)
Theorem bootstrap_never_reaches_the_commands (input : list (list string))
    (rom : list Hack.instr) (m : Hack.machine) (n : nat) :
  Hack.assemble (file (snd (MainPy.translate input))) = Some rom ->
  Hack.pc m = 0 ->
  (exists boot body : list Hack.instr,
      Hack.assemble bootstrap_text = Some boot
      /\ List.length boot = 53%nat
      /\ List.length rom = (53 + List.length body)%nat)
  /\ exists m', Hack.run n rom m = Some m' /\ 0 <= Hack.pc m' < 53.
Proof.
  unfold Hack.assemble.
  destruct (Hack.parse_asm (file (snd (MainPy.translate input))))
    as [items|] eqn:Hp; [|discriminate].
  intros [= <-] Hpc.
  destruct (sys_init_address _ _ Hp) as (boot & body & -> & Hb & Hs).
  destruct bootstrap_items as (known & after & Hb' & _ & _ & Hcode).
  rewrite Hb' in Hb. injection Hb as <-.
  rewrite resolve_app.
  set (sigma := Hack.lookup
                  (Hack.symbol_table
                     ((known ++ Hack.IA (Hack.ASym "Sys.init") :: after) ++ body)))
    in *.
  destruct (Hcode sigma) as (Hlen & Hj & Ha & Hc).
  rewrite Hs in Ha.
  split.
  - exists (Hack.resolve (Hack.lookup (Hack.symbol_table
              (known ++ Hack.IA (Hack.ASym "Sys.init") :: after)))
              (known ++ Hack.IA (Hack.ASym "Sys.init") :: after)),
      (Hack.resolve sigma body).
    split.
    + rewrite bootstrap_text_lines, parse_asm_unlines_no_lf
        by apply bootstrap_lines_no_lf.
      rewrite Hb'. reflexivity.
    + split; [apply Hcode|]. rewrite length_app, Hlen. reflexivity.
  - destruct (closed_loop _ (Hack.resolve sigma body) 51 16 _ _ Hj Ha Hc
                ltac:(lia) n m) as (m' & Hr & Hm').
    + rewrite Hpc. lia.
    + rewrite Hpc. lia.
    + exists m'. split; [exact Hr | lia].
Qed.

Lemma bootstrap_never_reaches_the_commands_witness :
  exists m',
    Hack.run 1000
      (Hack.resolve
         (demo_sigma (file (snd (MainPy.translate [["push"; "constant"; "1"]]))))
         (demo_items (file (snd (MainPy.translate [["push"; "constant"; "1"]])))))
      (demo_machine 0)
    = Some m'
    /\ 0 <= Hack.pc m' < 53.
Proof.
  destruct (bootstrap_never_reaches_the_commands
              [["push"; "constant"; "1"]]
              (Hack.resolve
                 (demo_sigma (file (snd (MainPy.translate [["push"; "constant"; "1"]]))))
                 (demo_items (file (snd (MainPy.translate [["push"; "constant"; "1"]])))))
              (demo_machine 0) 1000 eq_refl eq_refl) as [_ H].
  exact H.
Defined.

(** * The values the operators compute *)

Lemma log2_word (x : Z) : 0 <= x < 65536 -> Z.log2 x < 16.
Proof.
  intros H. destruct (Z.eq_dec x 0) as [->|Hx]; [reflexivity|].
  apply Z.log2_lt_pow2; [lia|]. change (2 ^ 16) with 65536. lia.
Qed.

Lemma word_of_log2 (z : Z) : 0 <= z -> Z.log2 z < 16 -> 0 <= z < 65536.
Proof.
  intros H0 H. split; [exact H0|].
  destruct (Z.eq_dec z 0) as [->|Hz]; [reflexivity|].
  change 65536 with (2 ^ 16). apply Z.log2_lt_pow2; [lia | exact H].
Qed.

Lemma land_word (x y : Z) :
  0 <= x < 65536 -> 0 <= y < 65536 -> 0 <= Z.land x y < 65536.
Proof.
  intros Hx Hy. apply word_of_log2.
  - apply Z.land_nonneg. left. apply Hx.
  - pose proof (Z.log2_land x y (proj1 Hx) (proj1 Hy)) as H.
    pose proof (log2_word x Hx). pose proof (Z.le_min_l (Z.log2 x) (Z.log2 y)).
    eapply Z.le_lt_trans; [exact H|]. eapply Z.le_lt_trans; eassumption.
Qed.

Lemma lor_word (x y : Z) :
  0 <= x < 65536 -> 0 <= y < 65536 -> 0 <= Z.lor x y < 65536.
Proof.
  intros Hx Hy. apply word_of_log2.
  - apply Z.lor_nonneg. split; [apply Hx | apply Hy].
  - rewrite (Z.log2_lor x y (proj1 Hx) (proj1 Hy)).
    pose proof (log2_word x Hx). pose proof (log2_word y Hy).
    apply Z.max_lub_lt; assumption.
Qed.

Lemma lnot_word (y : Z) : 0 <= y < 65536 -> Hack.wrap (Z.lnot y) = 65535 - y.
Proof.
  intros Hy. unfold Hack.wrap. rewrite Z.lnot_eq_pred_opp.
  symmetry. apply (Z.mod_unique _ _ (-1)); lia.
Qed.

(** The 16-bit difference of two words, read as a signed number: the
    difference of the numbers they stand for, unless that overflows. *)
Lemma signed_difference (x y : Z) :
  0 <= x < 65536 -> 0 <= y < 65536 ->
  let d := Hack.signed x - Hack.signed y in
  Hack.signed (Hack.wrap (x - y))
  = if d <? -32768 then d + 65536 else if 32767 <? d then d - 65536 else d.
Proof.
  intros Hx Hy. cbv zeta. unfold Hack.wrap.
  assert (Hm : (x - y) mod 65536 = if x <? y then x - y + 65536 else x - y).
  { destruct (Z.ltb_spec x y).
    - symmetry. apply (Z.mod_unique _ _ (-1)); lia.
    - apply Z.mod_small. lia. }
  rewrite Hm. unfold Hack.signed.
  repeat match goal with
    | |- context [Z.ltb ?a ?b] => destruct (Z.ltb_spec a b)
    end; lia.
Qed.

Section Values.

Variable sigma : Hack.symtab.
Variables pre post : list Hack.instr.
Variable B : Z.
Hypothesis Hs : symtab_ok sigma.
Hypothesis HB : B = Z.of_nat (List.length pre).

Local Abbreviation placed items := (pre ++ Hack.resolve sigma items ++ post)%list.
Local Abbreviation size items := (Z.of_nat (List.length (Hack.resolve sigma items))).

Ltac start m :=
  cbn [Hack.resolve Hack.resolve_operand];
  repeat match goal with
    | |- context [sigma ?s] => rewrite (Hs s _ eq_refl)
    end;
  destruct m as [a0 d0 p0 r];
  unfold word_ram, stack_ok in *;
  cbn [Hack.pc Hack.ram] in *; subst p0;
  replace (Hack.mkMachine a0 d0 B r) with (Hack.mkMachine a0 d0 (B + 0) r)
    by (f_equal; lia).

Lemma binary_run (command : string) (n v : Z) (ls : list string)
    (items : list Hack.item) (m : Hack.machine) :
  binary_value command (Hack.ram m (Hack.ram m 0 - 2)) (Hack.ram m (Hack.ram m 0 - 1))
  = Some v ->
  arithmetic_lines command n = Some ls ->
  Hack.parse_lines ls = Some items ->
  word_ram m -> stack_ok m -> Hack.pc m = B ->
  runs_to (placed items) m
    (fun m' =>
       let sp := Hack.ram m 0 in
       Hack.pc m' = B + size items
       /\ Hack.ram m' 0 = sp - 1
       /\ Hack.ram m' (sp - 2) = v
       /\ (forall a, a <> 0 -> a <> sp - 2 -> Hack.ram m' a = Hack.ram m a)).
Proof.
  unfold binary_value, arithmetic_lines.
  by_key_only command ltac:(
    intros [= <-] [= <-] Hp Hw Hst Hpc;
    unfold binary_lines in Hp; parse_inv Hp;
    start m; do 5 hstep HB; hdone; cbv zeta;
    replace (r 0 - 1 - 1) with (r 0 - 2) by lia;
    split; [simp_state; lia|];
    split; [|intros a Ha0 Ha1; simp_state; reflexivity];
    rewrite upd_same;
    first [ reflexivity
          | f_equal; lia
          | rewrite Z.land_comm; apply wrap_small, land_word; apply Hw
          | rewrite Z.lor_comm; apply wrap_small, lor_word; apply Hw ]).
  discriminate.
Qed.

Lemma unary_run (command : string) (n v : Z) (ls : list string)
    (items : list Hack.item) (m : Hack.machine) :
  unary_value command (Hack.ram m (Hack.ram m 0 - 1)) = Some v ->
  arithmetic_lines command n = Some ls ->
  Hack.parse_lines ls = Some items ->
  word_ram m -> stack_ok m -> Hack.pc m = B ->
  runs_to (placed items) m
    (fun m' =>
       let sp := Hack.ram m 0 in
       Hack.pc m' = B + size items
       /\ Hack.ram m' 0 = sp
       /\ Hack.ram m' (sp - 1) = v
       /\ (forall a, a <> sp - 1 -> Hack.ram m' a = Hack.ram m a)).
Proof.
  unfold unary_value, arithmetic_lines.
  by_key_only command ltac:(
    intros [= <-] [= <-] Hp Hw Hst Hpc;
    unfold unary_lines in Hp; parse_inv Hp;
    start m; do 3 hstep HB; hdone; cbv zeta;
    split; [simp_state; lia|];
    split; [|intros a Ha1; simp_state; reflexivity];
    rewrite upd_same;
    first [ reflexivity | apply lnot_word, Hw ]).
  discriminate.
Qed.

Ltac jump_cases_eq :=
  match goal with
  | |- context [Z.eqb (Hack.signed ?x) 0] =>
      destruct (Z.eqb (Hack.signed x) 0) eqn:Ej
  | |- context [Z.ltb 0 (Hack.signed ?x)] =>
      destruct (Z.ltb 0 (Hack.signed x)) eqn:Ej
  | |- context [Z.ltb (Hack.signed ?x) 0] =>
      destruct (Z.ltb (Hack.signed x) 0) eqn:Ej
  end.

Ltac label_at Hl l k :=
  assert (sigma l = B + k)
    by (eapply eq_trans;
        [ eapply Hl; cbn [Hack.label_pass];
          first [ left; reflexivity | right; left; reflexivity ]
        | lia ]).

(** A comparison leaves the truth value of its test on the sign of the
    16-bit difference [x - y]. *)
Lemma comparison_run (command : string) (n : Z) (b : bool) (ls : list string)
    (items : list Hack.item) (m : Hack.machine) :
  comparison command
    (Hack.signed (Hack.wrap (Hack.ram m (Hack.ram m 0 - 2)
                             - Hack.ram m (Hack.ram m 0 - 1)))) 0 = Some b ->
  arithmetic_lines command n = Some ls ->
  Hack.parse_lines ls = Some items ->
  labels_at sigma B items ->
  word_ram m -> stack_ok m -> Hack.pc m = B ->
  runs_to (placed items) m
    (fun m' =>
       let sp := Hack.ram m 0 in
       Hack.pc m' = B + size items
       /\ Hack.ram m' 0 = sp - 1
       /\ Hack.ram m' (sp - 2) = vm_bool b
       /\ (forall a, a <> 0 -> a <> sp - 2 -> Hack.ram m' a = Hack.ram m a)).
Proof.
  unfold comparison, arithmetic_lines.
  by_key_only command ltac:(
    intros [= <-] [= <-] Hp Hl Hw Hst Hpc;
    unfold comparison_lines in Hp; parse_inv Hp;
    unfold labels_at in Hl;
    label_at Hl ("TRUE_" ++ py_str n) 12;
    label_at Hl ("END_" ++ py_str n) 15;
    clear Hl;
    cbn [Hack.resolve Hack.resolve_operand];
    cbn [append] in *;
    repeat match goal with H : sigma _ = _ |- _ => rewrite H; clear H end;
    start m; do 7 hstep HB;
    replace (r 0 - 1 - 1) with (r 0 - 2) in * by lia;
    jump_cases_eq;
    [ do 3 hstep HB | do 5 hstep HB ]; hdone; cbv zeta;
    replace (r 0 - 1 - 1) with (r 0 - 2) by lia;
    (split; [simp_state; lia|]);
    (split; [|intros a Ha0 Ha1; simp_state; reflexivity]);
    rewrite upd_same; reflexivity).
  discriminate.
Qed.

End Values.

Lemma arithmetic_emitted (p : program) (command : string) (n : Z)
    (text : string) (items : list Hack.item) :
  emitted (perform p (Arithmetic command)) n = Some text ->
  Hack.parse_asm text = Some items ->
  exists ls, arithmetic_lines command n = Some ls /\ Hack.parse_lines ls = Some items.
Proof.
  intros He Hp.
  destruct (emitted_lines p (Arithmetic command) n text He) as (ls & -> & Hc & Hls).
  rewrite (parse_asm_unlines _ Hc) in Hp. eauto.
Qed.

(** X16.  The four binary operators compute on words: run on a machine
    whose stack holds [x] below [y], the text written for [add], [sub],
    [and], [or] replaces the two operands by [x + y] and [x - y] modulo
    2^16, the bitwise and, the bitwise or; the stack pointer moves down
    by one and no cell other than the stack pointer and the cell of the
    result changes. *)
Theorem binary_operator_value (p : program) (command : string) (n v : Z)
    (text : string) (items : list Hack.item) (sigma : Hack.symtab)
    (pre post : list Hack.instr) (m : Hack.machine) :
  let sp := Hack.ram m 0 in
  binary_value command (Hack.ram m (sp - 2)) (Hack.ram m (sp - 1)) = Some v ->
  emitted (perform p (Arithmetic command)) n = Some text ->
  Hack.parse_asm text = Some items ->
  symtab_ok sigma ->
  word_ram m ->
  stack_ok m ->
  Hack.pc m = Z.of_nat (List.length pre) ->
  runs_to (pre ++ Hack.resolve sigma items ++ post) m
    (fun m' =>
       Hack.pc m' = Z.of_nat (List.length pre)
                    + Z.of_nat (List.length (Hack.resolve sigma items))
       /\ Hack.ram m' 0 = sp - 1
       /\ Hack.ram m' (sp - 2) = v
       /\ (forall a, a <> 0 -> a <> sp - 2 -> Hack.ram m' a = Hack.ram m a)).
Proof.
  cbv zeta. intros Hv He Hp Hs Hw Hst Hpc.
  destruct (arithmetic_emitted _ _ _ _ _ He Hp) as (ls & Hls & Hpl).
  exact (binary_run sigma pre post _ Hs eq_refl command n v ls items m
           Hv Hls Hpl Hw Hst Hpc).
Qed.

Ltac demo_symbols :=
  apply assembler_symtab_ok; intros l H; vm_compute in H;
  repeat (destruct H as [H|H];
          [try discriminate H; injection H as <-; reflexivity|]);
  destruct H.

Ltac demo_labels :=
  intros l a H; vm_compute in H;
  repeat (destruct H as [H|H]; [injection H as <- <-; reflexivity|]);
  destruct H.

Lemma binary_operator_value_witness :
  let text := demo_text Main_py (Arithmetic "sub") 0 in
  runs_to ([] ++ Hack.resolve (demo_sigma text) (demo_items text) ++ [])
    (demo_machine 300)
    (fun m' => Hack.ram m' 0 = 299 /\ Hack.ram m' 298 = 65519).
Proof.
  intros text.
  eapply runs_to_impl;
    [|apply (binary_operator_value Main_py "sub" 0 65519 text
               (demo_items text) (demo_sigma text) [] [] (demo_machine 300))].
  - intros m' (_ & H1 & H2 & _). split; [exact H1 | exact H2].
  - reflexivity.
  - reflexivity.
  - reflexivity.
  - demo_symbols.
  - apply demo_word_ram. lia.
  - unfold stack_ok. cbn. lia.
  - reflexivity.
Defined.

(** X17.  The two unary operators work in place on the top of the
    stack: the text written for [neg] replaces the word [y] there by
    [- y] modulo 2^16, the one for [not] by its bitwise complement
    [65535 - y]; the stack pointer and every other cell keep their
    value. *)
Theorem unary_operator_value (p : program) (command : string) (n v : Z)
    (text : string) (items : list Hack.item) (sigma : Hack.symtab)
    (pre post : list Hack.instr) (m : Hack.machine) :
  let sp := Hack.ram m 0 in
  unary_value command (Hack.ram m (sp - 1)) = Some v ->
  emitted (perform p (Arithmetic command)) n = Some text ->
  Hack.parse_asm text = Some items ->
  symtab_ok sigma ->
  word_ram m ->
  stack_ok m ->
  Hack.pc m = Z.of_nat (List.length pre) ->
  runs_to (pre ++ Hack.resolve sigma items ++ post) m
    (fun m' =>
       Hack.pc m' = Z.of_nat (List.length pre)
                    + Z.of_nat (List.length (Hack.resolve sigma items))
       /\ Hack.ram m' 0 = sp
       /\ Hack.ram m' (sp - 1) = v
       /\ (forall a, a <> sp - 1 -> Hack.ram m' a = Hack.ram m a)).
Proof.
  cbv zeta. intros Hv He Hp Hs Hw Hst Hpc.
  destruct (arithmetic_emitted _ _ _ _ _ He Hp) as (ls & Hls & Hpl).
  exact (unary_run sigma pre post _ Hs eq_refl command n v ls items m
           Hv Hls Hpl Hw Hst Hpc).
Qed.

Lemma unary_operator_value_witness :
  let text := demo_text VMTranslator_py (Arithmetic "not") 0 in
  runs_to ([] ++ Hack.resolve (demo_sigma text) (demo_items text) ++ [])
    (demo_machine 300)
    (fun m' => Hack.ram m' 0 = 300 /\ Hack.ram m' 299 = 60452).
Proof.
  intros text.
  eapply runs_to_impl;
    [|apply (unary_operator_value VMTranslator_py "not" 0 60452 text
               (demo_items text) (demo_sigma text) [] [] (demo_machine 300))].
  - intros m' (_ & H1 & H2 & _). split; [exact H1 | exact H2].
  - reflexivity.
  - reflexivity.
  - reflexivity.
  - demo_symbols.
  - apply demo_word_ram. lia.
  - unfold stack_ok. cbn. lia.
  - reflexivity.
Defined.

Lemma comparison_of_difference (command : string) (x y d : Z) (b : bool) :
  d = x - y ->
  comparison command x y = Some b -> comparison command d 0 = Some b.
Proof.
  intros ->. unfold comparison.
  repeat match goal with
    | |- context [String.eqb command ?k] => destruct (String.eqb command k)
    end; try discriminate; intros [= <-]; f_equal.
  - destruct (Z.eqb_spec (x - y) 0), (Z.eqb_spec x y); lia || reflexivity.
  - destruct (Z.ltb_spec 0 (x - y)), (Z.ltb_spec y x); lia || reflexivity.
  - destruct (Z.ltb_spec (x - y) 0), (Z.ltb_spec x y); lia || reflexivity.
Qed.

Lemma comparison_of_overflow (command : string) (x y d : Z) (b : bool) :
  (x - y < -32768 /\ d = x - y + 65536) \/ (32767 < x - y /\ d = x - y - 65536) ->
  -65536 < x - y < 65536 ->
  command <> "eq" ->
  comparison command x y = Some b -> comparison command d 0 = Some (negb b).
Proof.
  intros Hd Hr Hne. unfold comparison.
  destruct (String.eqb_spec command "eq") as [->|_]; [now destruct Hne|].
  repeat match goal with
    | |- context [String.eqb command ?k] => destruct (String.eqb command k)
    end; try discriminate; intros [= <-]; f_equal.
  - destruct (Z.ltb_spec 0 d), (Z.ltb_spec y x); lia || reflexivity.
  - destruct (Z.ltb_spec d 0), (Z.ltb_spec x y); lia || reflexivity.
Qed.

(** X18.  The comparisons are right as long as the difference of the
    operands fits in a word: on a stack that holds the numbers [x]
    below [y] (words read as signed numbers) with
    [-32768 <= x - y <= 32767], the text written for [eq], [gt], [lt]
    replaces them by -1 if [x = y], [x > y], [x < y] holds and by 0 if
    not; the stack pointer moves down by one and no other cell
    changes. *)
Theorem comparison_value (p : program) (command : string) (n : Z) (b : bool)
    (text : string) (items : list Hack.item) (sigma : Hack.symtab)
    (pre post : list Hack.instr) (m : Hack.machine) :
  let sp := Hack.ram m 0 in
  let x := Hack.signed (Hack.ram m (sp - 2)) in
  let y := Hack.signed (Hack.ram m (sp - 1)) in
  comparison command x y = Some b ->
  -32768 <= x - y <= 32767 ->
  emitted (perform p (Arithmetic command)) n = Some text ->
  Hack.parse_asm text = Some items ->
  symtab_ok sigma ->
  labels_at sigma (Z.of_nat (List.length pre)) items ->
  word_ram m ->
  stack_ok m ->
  Hack.pc m = Z.of_nat (List.length pre) ->
  runs_to (pre ++ Hack.resolve sigma items ++ post) m
    (fun m' =>
       Hack.pc m' = Z.of_nat (List.length pre)
                    + Z.of_nat (List.length (Hack.resolve sigma items))
       /\ Hack.ram m' 0 = sp - 1
       /\ Hack.ram m' (sp - 2) = vm_bool b
       /\ (forall a, a <> 0 -> a <> sp - 2 -> Hack.ram m' a = Hack.ram m a)).
Proof.
  cbv zeta. intros Hb Hfit He Hp Hs Hl Hw Hst Hpc.
  destruct (arithmetic_emitted _ _ _ _ _ He Hp) as (ls & Hls & Hpl).
  apply (comparison_run sigma pre post _ Hs eq_refl command n b ls items m);
    try assumption.
  eapply comparison_of_difference; [|exact Hb].
  rewrite signed_difference by apply Hw. cbv zeta.
  destruct (Z.ltb_spec (Hack.signed (Hack.ram m (Hack.ram m 0 - 2))
                        - Hack.signed (Hack.ram m (Hack.ram m 0 - 1))) (-32768));
    [lia|].
  destruct (Z.ltb_spec 32767
              (Hack.signed (Hack.ram m (Hack.ram m 0 - 2))
               - Hack.signed (Hack.ram m (Hack.ram m 0 - 1)))); [lia|].
  reflexivity.
Qed.

Lemma comparison_value_witness :
  let text := demo_text VMTranslator_py (Arithmetic "lt") 0 in
  runs_to ([] ++ Hack.resolve (demo_sigma text) (demo_items text) ++ [])
    (demo_machine 300)
    (fun m' => Hack.ram m' 0 = 299 /\ Hack.ram m' 298 = 65535).
Proof.
  intros text.
  eapply runs_to_impl;
    [|apply (comparison_value VMTranslator_py "lt" 0 true text
               (demo_items text) (demo_sigma text) [] [] (demo_machine 300))].
  - intros m' (_ & H1 & H2 & _). split; [exact H1 | exact H2].
  - reflexivity.
  - vm_compute. split; discriminate.
  - reflexivity.
  - reflexivity.
  - demo_symbols.
  - demo_labels.
  - apply demo_word_ram. lia.
  - unfold stack_ok. cbn. lia.
  - reflexivity.
Defined.

(** X19.  [gt] and [lt] are wrong when the difference of the operands
    overflows: the programs test the sign of the 16-bit difference, so
    for numbers [x], [y] with [x - y] below -32768 or above 32767 the
    text written leaves the opposite of the truth value of [x > y],
    [x < y] on the stack. *)
Theorem comparison_overflow (p : program) (command : string) (n : Z) (b : bool)
    (text : string) (items : list Hack.item) (sigma : Hack.symtab)
    (pre post : list Hack.instr) (m : Hack.machine) :
  let sp := Hack.ram m 0 in
  let x := Hack.signed (Hack.ram m (sp - 2)) in
  let y := Hack.signed (Hack.ram m (sp - 1)) in
  comparison command x y = Some b ->
  command <> "eq" ->
  x - y < -32768 \/ 32767 < x - y ->
  emitted (perform p (Arithmetic command)) n = Some text ->
  Hack.parse_asm text = Some items ->
  symtab_ok sigma ->
  labels_at sigma (Z.of_nat (List.length pre)) items ->
  word_ram m ->
  stack_ok m ->
  Hack.pc m = Z.of_nat (List.length pre) ->
  runs_to (pre ++ Hack.resolve sigma items ++ post) m
    (fun m' =>
       Hack.pc m' = Z.of_nat (List.length pre)
                    + Z.of_nat (List.length (Hack.resolve sigma items))
       /\ Hack.ram m' 0 = sp - 1
       /\ Hack.ram m' (sp - 2) = vm_bool (negb b)
       /\ (forall a, a <> 0 -> a <> sp - 2 -> Hack.ram m' a = Hack.ram m a)).
Proof.
  cbv zeta. intros Hb Hne Hover He Hp Hs Hl Hw Hst Hpc.
  destruct (arithmetic_emitted _ _ _ _ _ He Hp) as (ls & Hls & Hpl).
  apply (comparison_run sigma pre post _ Hs eq_refl command n (negb b) ls items m);
    try assumption.
  pose proof (Hw (Hack.ram m 0 - 2)) as Hx.
  pose proof (Hw (Hack.ram m 0 - 1)) as Hy.
  eapply comparison_of_overflow; [| |exact Hne|exact Hb].
  - rewrite signed_difference by assumption. cbv zeta.
    repeat match goal with
      | |- context [Z.ltb ?u ?v] => destruct (Z.ltb_spec u v)
      end; lia.
  - unfold Hack.signed.
    repeat match goal with
      | |- context [Z.ltb ?u ?v] => destruct (Z.ltb_spec u v)
      end; lia.
Qed.

Lemma comparison_overflow_witness :
  let text := demo_text Main_py (Arithmetic "gt") 1 in
  Hack.signed (Hack.ram (demo_machine 1929) 1927) = 32759
  /\ Hack.signed (Hack.ram (demo_machine 1929) 1928) = -32760
  /\ runs_to ([] ++ Hack.resolve (demo_sigma text) (demo_items text) ++ [])
       (demo_machine 1929)
       (fun m' => Hack.ram m' 0 = 1928 /\ Hack.ram m' 1927 = 0).
Proof.
  intros text. split; [reflexivity|]. split; [reflexivity|].
  eapply runs_to_impl;
    [|apply (comparison_overflow Main_py "gt" 1 true text
               (demo_items text) (demo_sigma text) [] [] (demo_machine 1929))].
  - intros m' (_ & H1 & H2 & _). split; [exact H1 | exact H2].
  - reflexivity.
  - discriminate.
  - right. vm_compute. reflexivity.
  - reflexivity.
  - reflexivity.
  - demo_symbols.
  - demo_labels.
  - apply demo_word_ram. lia.
  - unfold stack_ok. cbn. lia.
  - reflexivity.
Defined.

(** * Numerals *)







(** * A push followed by a pop *)

Lemma runs_to_seq (rom : list Hack.instr) (m : Hack.machine)
    (Q1 Q2 : Hack.machine -> Prop) :
  runs_to rom m Q1 ->
  (forall m1, Q1 m1 -> runs_to rom m1 Q2) ->
  runs_to rom m Q2.
Proof.
  intros (n1 & m1 & Hr1 & H1) H.
  destruct (H m1 H1) as (n2 & m2 & Hr2 & H2).
  exists (n1 + n2)%nat, m2. rewrite run_add, Hr1. split; assumption.
Qed.

Lemma address_via (p : program) (sigma : Hack.symtab) (m : Hack.machine)
    (segment b : string) (index : Z) :
  base_register segment = Some b ->
  address p sigma m segment index = Some (via_address sigma m b index).
Proof. destruct p; [apply vmt_addr_via | apply main_addr_via]. Qed.

Lemma address_direct (p : program) (sigma : Hack.symtab) (m : Hack.machine)
    (segment : string) (index : Z) (o : string) (a : Hack.aoperand) :
  base_register segment = None ->
  direct_of p segment index = Some o ->
  Hack.parse_aoperand o = Some a ->
  address p sigma m segment index = Some (Hack.resolve_operand sigma a).
Proof. destruct p; [apply vmt_addr_direct | apply main_addr_direct]. Qed.

Lemma address_constant (p : program) (sigma : Hack.symtab) (m : Hack.machine)
    (index : Z) :
  address p sigma m "constant" index = None.
Proof. destruct p; reflexivity. Qed.

(** The whole memory after a push. *)
Lemma push_state (p : program) (sigma : Hack.symtab) (pre post : list Hack.instr)
    (segment : string) (index : Z) (ls : list string) (items : list Hack.item)
    (m : Hack.machine) :
  symtab_ok sigma ->
  push_lines (direct_of p) segment index = Some ls ->
  Hack.parse_lines ls = Some items ->
  word_ram m -> stack_ok m -> Hack.pc m = Z.of_nat (List.length pre) ->
  let v := match address p sigma m segment index with
           | Some t => Hack.ram m t
           | None => index
           end in
  0 <= v < 65536
  /\ runs_to (pre ++ Hack.resolve sigma items ++ post) m
       (fun m' =>
          Hack.pc m' = Z.of_nat (List.length pre)
                       + Z.of_nat (List.length (Hack.resolve sigma items))
          /\ Hack.ram m'
             = Hack.upd (Hack.upd (Hack.ram m) (Hack.ram m 0) v)
                 0 (Hack.ram m 0 + 1)).
Proof.
  intros Hs Hls Hp Hw Hst Hpc. cbv zeta. unfold push_lines in Hls.
  destruct (String.eqb_spec segment "constant") as [->|Hc].
  { injection Hls as <-. rewrite address_constant. split.
    - unfold push_constant_lines in Hp. cbn [List.app] in Hp.
      apply parse_lines_cons_inv in Hp as (oi & r & Hl & _ & _).
      rewrite parse_line_at_num in Hl.
      destruct ((0 <=? index) && (index <=? 32767))%bool eqn:E; [|discriminate Hl].
      apply andb_prop in E as [E1 E2]. apply Z.leb_le in E1, E2. lia.
    - apply (push_constant_run sigma pre post _ Hs eq_refl index items m);
        assumption. }
  destruct (base_register segment) as [b|] eqn:Eb.
  { injection Hls as <-. rewrite (address_via p sigma m _ _ index Eb).
    split; [apply Hw|].
    apply (push_via_run sigma pre post _ Hs eq_refl segment b index items m);
      assumption. }
  destruct (direct_of p segment index) as [o|] eqn:Eo; [|discriminate].
  injection Hls as <-.
  destruct (push_direct_run sigma pre post _ Hs eq_refl o items m Hp Hw Hst Hpc)
    as (a & Ha & Hrun).
  rewrite (address_direct p sigma m _ _ _ _ Eb Eo Ha).
  split; [apply Hw | exact Hrun].
Qed.

Lemma pop_state (p : program) (sigma : Hack.symtab) (pre post : list Hack.instr)
    (segment : string) (index : Z) (ls : list string) (items : list Hack.item)
    (m : Hack.machine) :
  symtab_ok sigma ->
  pop_lines (via_of p) (direct_of p) segment index = Some ls ->
  Hack.parse_lines ls = Some items ->
  word_ram m -> stack_ok m -> Hack.pc m = Z.of_nat (List.length pre) ->
  exists t,
    address p sigma m segment index = Some t
    /\ runs_to (pre ++ Hack.resolve sigma items ++ post) m
         (fun m' =>
            Hack.pc m' = Z.of_nat (List.length pre)
                         + Z.of_nat (List.length (Hack.resolve sigma items))
            /\ Hack.ram m' t = Hack.ram m (Hack.ram m 0 - 1)
            /\ (t <> 0 -> Hack.ram m' 0 = Hack.ram m 0 - 1)).
Proof.
  intros Hs Hls Hp Hw Hst Hpc. destruct p.
  - apply (pop_run vmt_direct_operand vmt_pop_via_lines vmt_address
             vmt_addr_via vmt_addr_direct vmt_pop_via_run sigma pre post Hs
             segment index ls items m); assumption.
  - apply (pop_run main_direct_operand main_pop_via_lines main_address
             main_addr_via main_addr_direct main_pop_via_run sigma pre post Hs
             segment index ls items m); assumption.
Qed.

(** The cell a segment and an index denote depends on the memory
    through the four base registers only. *)
Lemma address_frame (p : program) (sigma : Hack.symtab) (m m1 : Hack.machine)
    (segment : string) (index : Z) :
  symtab_ok sigma ->
  (forall a, 1 <= a <= 4 -> Hack.ram m1 a = Hack.ram m a) ->
  address p sigma m1 segment index = address p sigma m segment index.
Proof.
  intros Hs Hf.
  assert (Hb : forall b, base_register segment = Some b ->
             via_address sigma m1 b index = via_address sigma m b index).
  { unfold base_register, via_address.
    repeat match goal with
      | |- context [String.eqb segment ?k] => destruct (String.eqb segment k)
      end; intros b [= <-];
      repeat match goal with
        | |- context [sigma ?s] => rewrite (Hs s _ eq_refl)
        end;
      rewrite Hf by lia; reflexivity. }
  destruct p; cbn [address]; unfold vmt_address, main_address;
    destruct (base_register segment) as [b|]; try reflexivity;
    rewrite (Hb b eq_refl); reflexivity.
Qed.

Lemma memory_lines (p : program) (c : vm_command) (n : Z) (text : string)
    (items : list Hack.item) :
  emitted (perform p c) n = Some text ->
  Hack.parse_asm text = Some items ->
  exists ls,
    text = unlines ls
    /\ Forall (fun l => clean l = true) ls
    /\ Hack.parse_lines ls = Some items
    /\ match c with
       | Arithmetic command => arithmetic_lines command n = Some ls
       | Push segment index => push_lines (direct_of p) segment index = Some ls
       | Pop segment index =>
           pop_lines (via_of p) (direct_of p) segment index = Some ls
       end.
Proof.
  intros He Hp.
  destruct (emitted_lines p c n text He) as (ls & -> & Hc & Hls).
  rewrite (parse_asm_unlines _ Hc) in Hp.
  exists ls. split; [reflexivity|]. split; [exact Hc|]. split; [exact Hp|].
  destruct c, p; exact Hls.
Qed.

(** X21.  A push followed by a pop is a move.  Take the text of a
    [push] and, after it, the text of a [pop], both accepted by the
    assembler, placed one behind the other in the instruction memory,
    on a machine whose stack pointer is between 256 and 32766.
    Execution runs through both fragments; the cell that the segment
    and index of the [pop] denote then holds the value that the segment
    and index of the [push] denoted before (the index itself for
    [constant]), and the stack pointer is back where it was, unless it
    is itself the cell that was written. *)
Theorem push_then_pop_is_a_move (p : program) (s1 : string) (i1 : Z)
    (s2 : string) (i2 n : Z) (text1 text2 : string)
    (items1 items2 : list Hack.item) (sigma : Hack.symtab)
    (pre post : list Hack.instr) (m : Hack.machine) :
  emitted (perform p (Push s1 i1)) n = Some text1 ->
  emitted (perform p (Pop s2 i2)) n = Some text2 ->
  Hack.parse_asm text1 = Some items1 ->
  Hack.parse_asm text2 = Some items2 ->
  symtab_ok sigma ->
  word_ram m ->
  256 <= Hack.ram m 0 < 32767 ->
  Hack.pc m = Z.of_nat (List.length pre) ->
  Hack.parse_asm (text1 ++ text2) = Some (items1 ++ items2)%list
  /\ exists t,
       address p sigma m s2 i2 = Some t
       /\ runs_to (pre ++ Hack.resolve sigma (items1 ++ items2) ++ post) m
            (fun m' =>
               Hack.pc m' = Z.of_nat (List.length pre)
                            + Z.of_nat (List.length
                                          (Hack.resolve sigma (items1 ++ items2)))
               /\ Hack.ram m' t
                  = match address p sigma m s1 i1 with
                    | Some a => Hack.ram m a
                    | None => i1
                    end
               /\ (t <> 0 -> Hack.ram m' 0 = Hack.ram m 0)).
Proof.
  intros He1 He2 Hp1 Hp2 Hs Hw Hsp Hpc.
  destruct (memory_lines _ _ _ _ _ He1 Hp1) as (ls1 & -> & Hc1 & Hl1 & Hpush).
  destruct (memory_lines _ _ _ _ _ He2 Hp2) as (ls2 & -> & Hc2 & Hl2 & Hpop).
  split.
  { rewrite <- unlines_app, parse_asm_unlines by (apply Forall_app; auto).
    rewrite parse_lines_app, Hl1, Hl2. reflexivity. }
  assert (Hst : stack_ok m) by (unfold stack_ok; lia).
  destruct (push_state p sigma pre (Hack.resolve sigma items2 ++ post)%list
              s1 i1 ls1 items1 m Hs Hpush Hl1 Hw Hst Hpc) as (Hv & Hrun1).
  cbv zeta in Hv, Hrun1.
  set (v := match address p sigma m s1 i1 with
            | Some a => Hack.ram m a
            | None => i1
            end) in *.
  set (m1ram := Hack.upd (Hack.upd (Hack.ram m) (Hack.ram m 0) v) 0 (Hack.ram m 0 + 1)).
  assert (Hframe : forall a, 1 <= a <= 4 -> m1ram a = Hack.ram m a).
  { intros a Ha. unfold m1ram. rewrite !upd_other by lia. reflexivity. }
  assert (Hrom : (pre ++ Hack.resolve sigma (items1 ++ items2) ++ post)%list
                 = ((pre ++ Hack.resolve sigma items1)
                    ++ Hack.resolve sigma items2 ++ post)%list)
    by (rewrite resolve_app, <- !List.app_assoc; reflexivity).
  assert (Hpop1 : forall m1,
             Hack.pc m1 = Z.of_nat (List.length pre)
                          + Z.of_nat (List.length (Hack.resolve sigma items1)) ->
             Hack.ram m1 = m1ram ->
             exists t,
               address p sigma m s2 i2 = Some t
               /\ runs_to ((pre ++ Hack.resolve sigma items1)
                           ++ Hack.resolve sigma items2 ++ post) m1
                    (fun m' =>
                       Hack.pc m' = Z.of_nat (List.length pre)
                                    + Z.of_nat (List.length
                                                  (Hack.resolve sigma
                                                     (items1 ++ items2)))
                       /\ Hack.ram m' t = v
                       /\ (t <> 0 -> Hack.ram m' 0 = Hack.ram m 0))).
  { intros m1 Hpc1 Hram1.
    assert (Hw1 : word_ram m1).
    { intros a. rewrite Hram1. unfold m1ram, Hack.upd.
      destruct (a =? 0); [lia|]. destruct (a =? Hack.ram m 0); [exact Hv | apply Hw]. }
    assert (Hst1 : stack_ok m1).
    { unfold stack_ok. rewrite Hram1. unfold m1ram. rewrite upd_same. lia. }
    destruct (pop_state p sigma (pre ++ Hack.resolve sigma items1)%list post
                s2 i2 ls2 items2 m1 Hs Hpop Hl2 Hw1 Hst1) as (t & Ht & Hrun2).
    { rewrite Hpc1, length_app. lia. }
    exists t. split.
    - rewrite <- Ht. symmetry. apply address_frame; [exact Hs|].
      intros a Ha. rewrite Hram1. apply Hframe, Ha.
    - eapply runs_to_impl; [|exact Hrun2].
      intros m' (H1 & H2 & H3). rewrite Hram1 in H2, H3.
      unfold m1ram in H2, H3. rewrite upd_same in H2, H3.
      replace (Hack.ram m 0 + 1 - 1) with (Hack.ram m 0) in H2, H3 by lia.
      rewrite upd_other, upd_same in H2 by lia.
      split; [|split; [exact H2 | exact H3]].
      rewrite H1, resolve_app, !length_app. lia. }
  destruct (Hpop1 (Hack.mkMachine 0 0
                     (Z.of_nat (List.length pre)
                      + Z.of_nat (List.length (Hack.resolve sigma items1)))
                     m1ram) eq_refl eq_refl) as (t & Ht & _).
  exists t. split; [exact Ht|].
  rewrite Hrom. rewrite <- List.app_assoc.
  eapply runs_to_seq; [exact Hrun1|].
  intros m1 (Hpc1 & Hram1).
  destruct (Hpop1 m1 Hpc1 Hram1) as (t' & Ht' & Hrun).
  rewrite Ht in Ht'. injection Ht' as <-.
  rewrite <- List.app_assoc in Hrun. exact Hrun.
Qed.

Lemma push_then_pop_is_a_move_witness :
  let text := demo_text Main_py (Push "constant" 7) 0
              ++ demo_text Main_py (Pop "temp" 3) 0 in
  runs_to ([] ++ Hack.resolve (demo_sigma text) (demo_items text) ++ [])
    (demo_machine 300)
    (fun m' => Hack.ram m' 8 = 7 /\ Hack.ram m' 0 = 300).
Proof.
  intros text.
  destruct (push_then_pop_is_a_move Main_py "constant" 7 "temp" 3 0
              (demo_text Main_py (Push "constant" 7) 0)
              (demo_text Main_py (Pop "temp" 3) 0)
              (demo_items (demo_text Main_py (Push "constant" 7) 0))
              (demo_items (demo_text Main_py (Pop "temp" 3) 0))
              (demo_sigma text) [] [] (demo_machine 300))
    as (_ & t & Ht & Hrun); try reflexivity.
  - demo_symbols.
  - apply demo_word_ram. lia.
  - cbn. lia.
  - injection Ht as <-.
    eapply runs_to_impl; [|exact Hrun].
    intros m' (_ & H1 & H2). split; [exact H1 | apply H2; discriminate].
Defined.

(** * The output of a sequence of commands *)

Lemma loop_shift (p : program) (input : list (list string)) (f : string) (n : Z) :
  loop_of p input (mkCodeWriter f n)
  = (fst (loop_of p input (mkCodeWriter "" n)),
     mkCodeWriter (f ++ file (snd (loop_of p input (mkCodeWriter "" n))))
       (label_count (snd (loop_of p input (mkCodeWriter "" n))))).
Proof.
  revert f n. induction input as [|c rest IH]; intros f n.
  - rewrite !loop_nil. cbn [fst snd file label_count].
    rewrite append_nil_r. reflexivity.
  - rewrite !loop_cons, !dispatch_spec. cbn [label_count file].
    destruct (command_lines p c n) as [ls|e].
    + rewrite (IH (f ++ unlines ls)), (IH ("" ++ unlines ls)).
      cbn [fst snd file label_count append]. rewrite append_assoc. reflexivity.
    + cbn [fst snd file label_count]. rewrite append_nil_r. reflexivity.
Qed.

Lemma loop_app (p : program) (a b : list (list string)) (w : CodeWriter) :
  loop_of p (a ++ b)%list w
  = match loop_of p a w with
    | (Ok _, w') => loop_of p b w'
    | (Raise e, w') => (Raise e, w')
    end.
Proof. destruct p; [apply vmt_loop_app | apply main_loop_app]. Qed.

(** X22.  Translation is compositional.  The text written for a
    sequence of commands depends on what was written before only
    through the label counter: if the commands [a] are translated
    without an exception, the output for [a] followed by [b] is the
    output for [a] followed by the text that [b] gives on an empty file
    from the counter that [a] left, and the run ends as that
    translation of [b] ends.  Without a comparison in [a] the counter
    is the initial one. *)
Theorem translation_is_compositional (p : program) (a b : list (list string))
    (w wa : CodeWriter) :
  loop_of p a w = (Ok tt, wa) ->
  let rb := loop_of p b (mkCodeWriter "" (label_count wa)) in
  loop_of p (a ++ b)%list w
  = (fst rb, mkCodeWriter (file wa ++ file (snd rb)) (label_count (snd rb)))
  /\ label_count wa = label_count w + Z.of_nat (count_comparisons a).
Proof.
  intros Ha. cbv zeta. split.
  - rewrite loop_app, Ha. destruct wa as [f n]. apply loop_shift.
  - destruct p; cbn [loop_of] in Ha.
    + pose proof (vmt_loop_count a w) as H. rewrite Ha in H. apply H. reflexivity.
    + pose proof (main_loop_count a w) as H. rewrite Ha in H. apply H. reflexivity.
Qed.

Lemma translation_is_compositional_witness :
  loop_of VMTranslator_py ([["push"; "constant"; "1"]] ++ [["neg"]])%list
    (mkCodeWriter "" 0)
  = (Ok tt,
     mkCodeWriter
       (py "@1\nD=A\n@SP\nA=M\nM=D\n@SP\nM=M+1\n" ++ py "@SP\nA=M-1\nM=-M\n") 0).
Proof.
  destruct (translation_is_compositional VMTranslator_py
              [["push"; "constant"; "1"]] [["neg"]] (mkCodeWriter "" 0)
              (mkCodeWriter (py "@1\nD=A\n@SP\nA=M\nM=D\n@SP\nM=M+1\n") 0) eq_refl)
    as [H _].
  exact H.
Defined.

(** * What a push and a pop leave alone *)

(** The whole memory after a pop. *)
Lemma pop_memory (p : program) (sigma : Hack.symtab) (pre post : list Hack.instr)
    (segment : string) (index : Z) (ls : list string) (items : list Hack.item)
    (m : Hack.machine) :
  symtab_ok sigma ->
  pop_lines (via_of p) (direct_of p) segment index = Some ls ->
  Hack.parse_lines ls = Some items ->
  word_ram m -> stack_ok m -> Hack.pc m = Z.of_nat (List.length pre) ->
  exists t,
    address p sigma m segment index = Some t
    /\ runs_to (pre ++ Hack.resolve sigma items ++ post) m
         (fun m' =>
            Hack.pc m' = Z.of_nat (List.length pre)
                         + Z.of_nat (List.length (Hack.resolve sigma items))
            /\ Hack.ram m'
               = Hack.upd
                   (Hack.upd
                      (match base_register segment with
                       | Some _ => Hack.upd (Hack.ram m) 13 t
                       | None => Hack.ram m
                       end)
                      0 (Hack.ram m 0 - 1))
                   t (Hack.ram m (Hack.ram m 0 - 1))).
Proof.
  intros Hs Hls Hp Hw Hst Hpc. unfold pop_lines in Hls.
  destruct (base_register segment) as [b|] eqn:Eb.
  - injection Hls as <-. exists (via_address sigma m b index).
    split; [apply address_via, Eb|].
    destruct p; cbn [via_of] in Hp.
    + apply (vmt_pop_via_run sigma pre post _ Hs eq_refl segment b index items m);
        assumption.
    + apply (main_pop_via_run sigma pre post _ Hs eq_refl segment b index items m);
        assumption.
  - destruct (direct_of p segment index) as [o|] eqn:Eo; [|discriminate].
    injection Hls as <-.
    destruct (pop_direct_run sigma pre post _ Hs eq_refl o items m Hp Hw Hst Hpc)
      as (a & Ha & Hrun).
    exists (Hack.resolve_operand sigma a).
    split; [apply (address_direct p sigma m _ _ o); assumption | exact Hrun].
Qed.

(** X23.  A push and a pop change nothing but the cells they are
    meant to change.  Run on the Hack machine, the text of a [push]
    changes the stack pointer and the cell it pointed to, and no other
    cell.  The text of a [pop] changes the stack pointer and the cell
    its segment and index denote; for [local], [argument], [this] and
    [that] it also uses cell 13 as a scratch cell and leaves the address
    of the target there (unless cell 13 is itself the target, which then
    holds the popped value); every other cell keeps its value. *)
Theorem push_and_pop_frame (p : program) (segment : string) (index n : Z)
    (sigma : Hack.symtab) (pre post : list Hack.instr) (m : Hack.machine) :
  symtab_ok sigma ->
  word_ram m ->
  stack_ok m ->
  Hack.pc m = Z.of_nat (List.length pre) ->
  (forall text items,
      emitted (perform p (Push segment index)) n = Some text ->
      Hack.parse_asm text = Some items ->
      runs_to (pre ++ Hack.resolve sigma items ++ post) m
        (fun m' =>
           Hack.pc m' = Z.of_nat (List.length pre)
                        + Z.of_nat (List.length (Hack.resolve sigma items))
           /\ forall a, a <> 0 -> a <> Hack.ram m 0 -> Hack.ram m' a = Hack.ram m a))
  /\ (forall text items,
         emitted (perform p (Pop segment index)) n = Some text ->
         Hack.parse_asm text = Some items ->
         exists t,
           address p sigma m segment index = Some t
           /\ runs_to (pre ++ Hack.resolve sigma items ++ post) m
                (fun m' =>
                   Hack.pc m' = Z.of_nat (List.length pre)
                                + Z.of_nat (List.length (Hack.resolve sigma items))
                   /\ (forall a, a <> 0 -> a <> t ->
                                 a <> 13 \/ base_register segment = None ->
                                 Hack.ram m' a = Hack.ram m a)
                   /\ (base_register segment <> None -> t <> 13 ->
                       Hack.ram m' 13 = t))).
Proof.
  intros Hs Hw Hst Hpc. split.
  - intros text items He Hp.
    destruct (memory_lines _ _ _ _ _ He Hp) as (ls & _ & _ & Hl & Hpush).
    destruct (push_state p sigma pre post segment index ls items m
                Hs Hpush Hl Hw Hst Hpc) as (_ & Hrun).
    eapply runs_to_impl; [|exact Hrun].
    intros m' (H1 & H2). split; [exact H1|].
    intros a Ha0 Hasp. rewrite H2, !upd_other by assumption. reflexivity.
  - intros text items He Hp.
    destruct (memory_lines _ _ _ _ _ He Hp) as (ls & _ & _ & Hl & Hpop).
    destruct (pop_memory p sigma pre post segment index ls items m
                Hs Hpop Hl Hw Hst Hpc) as (t & Ht & Hrun).
    exists t. split; [exact Ht|].
    eapply runs_to_impl; [|exact Hrun].
    intros m' (H1 & H2). split; [exact H1|]. rewrite H2. split.
    + intros a Ha0 Hat H13. rewrite !upd_other by assumption.
      destruct (base_register segment); [|reflexivity].
      destruct H13 as [H13|H13]; [|discriminate H13].
      rewrite upd_other by assumption. reflexivity.
    + intros Hb Ht13. rewrite !upd_other by (try lia; congruence).
      destruct (base_register segment); [apply upd_same | now destruct Hb].
Qed.

Lemma push_and_pop_frame_witness :
  let text := demo_text VMTranslator_py (Pop "local" 2) 0 in
  exists t,
    address VMTranslator_py (demo_sigma text) (demo_machine 300) "local" 2 = Some t
    /\ runs_to ([] ++ Hack.resolve (demo_sigma text) (demo_items text) ++ [])
         (demo_machine 300)
         (fun m' => Hack.ram m' 13 = t
                    /\ Hack.ram m' 298 = Hack.ram (demo_machine 300) 298).
Proof.
  intros text.
  assert (Hs : symtab_ok (demo_sigma text)) by demo_symbols.
  destruct (push_and_pop_frame VMTranslator_py "local" 2 0 (demo_sigma text)
              [] [] (demo_machine 300) Hs) as [_ H].
  - apply demo_word_ram. lia.
  - unfold stack_ok. cbn. lia.
  - reflexivity.
  - destruct (H text (demo_items text) eq_refl eq_refl) as (t & Ht & Hrun).
    exists t. split; [exact Ht|].
    assert (Et : t = 19).
    { vm_compute in Ht. injection Ht as <-. reflexivity. }
    eapply runs_to_impl; [|exact Hrun].
    intros m' (_ & H1 & H2). split.
    + apply H2; [discriminate | lia].
    + apply H1; [lia | lia | left; lia].
Defined.
